(** * BOT-REKAPAN: activation-report bot, verified against its specification

    A shallow embedding of [src/index.js] (the enhanced bot) and of the
    older minimal bot kept beside it, followed by the theorems that settle
    the claims of the specification (C1 to C10) and by further
    properties of the code (X1 to X30).

    Conventions of the embedding.
    - A JavaScript string is a [string] of 7-bit characters; [toUpperCase],
      [toLowerCase], [trim] and the regular-expression classes act on that
      range exactly as ECMAScript defines them there.
    - A sheet is the list of rows that [spreadsheets.values.get] returns,
      a row the list of its cells; [undefined] cells are absent list
      positions.  Where a statement depends on it, the sheet that a
      handler has read and the sheet that it appends to are kept apart,
      and the row that the storage service makes of the cells it is
      given is a parameter.
    - A [Date] is its time value in milliseconds since the epoch (UTC);
      the host's local-time offset and the implementation-defined part of
      [Date.parse] are fields of a [Host] record.
    - Regular expressions are abstract syntax interpreted by a backtracking
      matcher that follows the matcher semantics of ECMA-262. *)

From Stdlib Require Import Bool Arith ZArith Lia List Ascii String.
From Stdlib Require Import Sorted Permutation.
Import ListNotations.

Open Scope string_scope.
Open Scope list_scope.
Open Scope nat_scope.

(* ================================================================== *)
(** * Part I. Strings *)
(* ================================================================== *)

Module Str.

(** Code unit of a character. *)
Definition code (c : ascii) : nat := nat_of_ascii c.

Definition isLowerAlpha (c : ascii) : bool := (97 <=? code c) && (code c <=? 122).
Definition isUpperAlpha (c : ascii) : bool := (65 <=? code c) && (code c <=? 90).
Definition isDigit (c : ascii) : bool := (48 <=? code c) && (code c <=? 57).

(** White space and line terminators of ECMAScript in the 7-bit range:
    TAB, LF, VT, FF, CR and SPACE. *)
Definition isSpace (c : ascii) : bool :=
  ((9 <=? code c) && (code c <=? 13)) || (code c =? 32).

(** [\w] of ECMAScript regular expressions. *)
Definition isWordChar (c : ascii) : bool :=
  isLowerAlpha c || isUpperAlpha c || isDigit c || (code c =? 95).

(** Line terminators in the 7-bit range: LF and CR. *)
Definition isLineTerminator (c : ascii) : bool :=
  (code c =? 10) || (code c =? 13).

Definition toUpperChar (c : ascii) : ascii :=
  if isLowerAlpha c then ascii_of_nat (code c - 32) else c.

Definition toLowerChar (c : ascii) : ascii :=
  if isUpperAlpha c then ascii_of_nat (code c + 32) else c.

Fixpoint map (f : ascii -> ascii) (s : string) : string :=
  match s with
  | EmptyString => EmptyString
  | String c s' => String (f c) (map f s')
  end.

(** [String.prototype.toUpperCase] and [toLowerCase]. *)
Definition toUpperCase (s : string) : string := map toUpperChar s.
Definition toLowerCase (s : string) : string := map toLowerChar s.

(** [s.startsWith(p)]. *)
Fixpoint startsWith (p s : string) : bool :=
  match p, s with
  | EmptyString, _ => true
  | String a p', String b s' => Ascii.eqb a b && startsWith p' s'
  | String _ _, EmptyString => false
  end.

(** [s.includes(p)]: [p] starts at some index of [s]. *)
Fixpoint includes (s p : string) : bool :=
  startsWith p s ||
  match s with
  | EmptyString => false
  | String _ s' => includes s' p
  end.

(** [String.prototype.trim], as [trimEnd] after [trimStart]. *)
Fixpoint trimStart (s : string) : string :=
  match s with
  | EmptyString => EmptyString
  | String c s' => if isSpace c then trimStart s' else s
  end.

Fixpoint trimEnd (s : string) : string :=
  match s with
  | EmptyString => EmptyString
  | String c s' =>
      match trimEnd s' with
      | EmptyString => if isSpace c then EmptyString else String c EmptyString
      | r => String c r
      end
  end.

Definition trim (s : string) : string := trimEnd (trimStart s).

(** Truthiness of a string value: only the empty string is falsy. *)
Definition truthy (s : string) : bool :=
  match s with EmptyString => false | _ => true end.

(** [a || b] on strings. *)
Definition or_else (a b : string) : string := if truthy a then a else b.

(** [x || d] where [x] may be [undefined]. *)
Definition or_default (x : option string) (d : string) : string :=
  match x with
  | Some s => or_else s d
  | None => d
  end.

(** [s.split(sep)] for a non-empty separator.  [skip] counts the
    characters of a separator occurrence that remain to be dropped, [cur]
    is the piece being collected, in reverse. *)
Fixpoint rev_string (acc s : string) : string :=
  match s with
  | EmptyString => acc
  | String c s' => rev_string (String c acc) s'
  end.

Fixpoint split_aux (sep s cur : string) (skip : nat) : list string :=
  match s with
  | EmptyString => [rev_string "" cur]
  | String c s' =>
      match skip with
      | S n => split_aux sep s' cur n
      | O =>
          if startsWith sep s
          then rev_string "" cur :: split_aux sep s' "" (String.length sep - 1)
          else split_aux sep s' (String c cur) 0
      end
  end.

Definition split (sep s : string) : list string := split_aux sep s "" 0.

(** [parts.join(sep)]. *)
Fixpoint join (sep : string) (l : list string) : string :=
  match l with
  | [] => ""
  | [x] => x
  | x :: l' => (x ++ sep ++ join sep l')%string
  end.

(** [s.replace(c, '')] with a one-character string pattern: the first
    occurrence is removed, wherever it stands. *)
Fixpoint removeFirst (c : ascii) (s : string) : string :=
  match s with
  | EmptyString => EmptyString
  | String a s' => if Ascii.eqb a c then s' else String a (removeFirst c s')
  end.

(** [s.padStart(n, '0')]. *)
Fixpoint repeat_char (c : ascii) (n : nat) : string :=
  match n with
  | O => EmptyString
  | S n' => String c (repeat_char c n')
  end.

Definition padStart (n : nat) (c : ascii) (s : string) : string :=
  (repeat_char c (n - String.length s) ++ s)%string.

(** [parseInt] on a string of decimal digits (the captures of [\d]
    groups); [acc] is the value read so far. *)
Fixpoint parseDigits (acc : Z) (s : string) : Z :=
  match s with
  | EmptyString => acc
  | String c s' =>
      if isDigit c
      then parseDigits (10 * acc + Z.of_nat (code c - 48))%Z s'
      else acc
  end.

Definition parseInt (s : string) : Z := parseDigits 0%Z s.

Definition allb (p : ascii -> bool) (s : string) : bool :=
  (fix go (s : string) : bool :=
     match s with
     | EmptyString => true
     | String c s' => p c && go s'
     end) s.

End Str.

Import Str.

(* ================================================================== *)
(** * Part II. Regular expressions *)
(* ================================================================== *)

Module Re.

(** Members of a character class. *)
Inductive ClassItem : Type :=
| ItChar (c : ascii)
| ItRange (lo hi : ascii)
| ItDigit            (* \d *)
| ItSpace            (* \s *)
| ItWord.            (* \w *)

(** The fragment of the pattern language that the bot uses. Capture
    groups carry their number (the position of their left parenthesis). *)
Inductive regex : Type :=
| Empty
| Chr (c : ascii)
| AnyChar                                   (* .  *)
| Class (items : list ClassItem)            (* [...] and \d \s \w *)
| Seq (r1 r2 : regex)
| Rep (greedy : bool) (lo : nat) (hi : option nat) (r : regex)
| Group (n : nat) (r : regex)
| WordBoundary                              (* \b *)
| Bol.                                      (* ^ without the m flag *)

(** A [RegExp] object: pattern and the two flags the bot uses. *)
Record RegExp : Type := mkRegExp {
  source : regex;
  ignoreCase : bool;
  global : bool
}.

(** Matcher state: the character before the current position (absent
    at index 0), the input from the current position on, and the
    captures made so far. *)
Record MState : Type := mkMState {
  prev : option ascii;
  rest : string;
  caps : list (nat * string)
}.

Definition Cont : Type := MState -> option MState.

Definition item_has (ch : ascii) (it : ClassItem) : bool :=
  match it with
  | ItChar c => Ascii.eqb c ch
  | ItRange lo hi => (code lo <=? code ch) && (code ch <=? code hi)
  | ItDigit => isDigit ch
  | ItSpace => isSpace ch
  | ItWord => isWordChar ch
  end.

(** CharacterSetMatcher: under [ignoreCase] a character is accepted when
    some member of the set has the same canonical (upper-case) form. *)
Definition class_has (ic : bool) (items : list ClassItem) (ch : ascii) : bool :=
  existsb (item_has ch) items ||
  (ic && (existsb (item_has (toUpperChar ch)) items ||
          existsb (item_has (toLowerChar ch)) items)).

Definition chr_eqb (ic : bool) (c ch : ascii) : bool :=
  if ic then Ascii.eqb (toUpperChar c) (toUpperChar ch) else Ascii.eqb c ch.

(** One character accepted by predicate [p]. *)
Definition step_char (p : ascii -> bool) (st : MState) (k : Cont) : option MState :=
  match rest st with
  | String a s' => if p a then k (mkMState (Some a) s' (caps st)) else None
  | EmptyString => None
  end.

(** The input consumed between two states of one match. *)
Definition consumed (st st1 : MState) : string :=
  substring 0 (String.length (rest st) - String.length (rest st1)) (rest st).

Definition set_cap (n : nat) (v : string) (st : MState) : MState :=
  mkMState (prev st) (rest st) ((n, v) :: caps st).

Fixpoint get_cap (n : nat) (cs : list (nat * string)) : option string :=
  match cs with
  | [] => None
  | (m, v) :: cs' => if Nat.eqb m n then Some v else get_cap n cs'
  end.

Definition is_word (o : option ascii) : bool :=
  match o with Some c => isWordChar c | None => false end.

Definition next_char (s : string) : option ascii :=
  match s with String c _ => Some c | EmptyString => None end.

Definition dec_hi (hi : option nat) : option nat := option_map pred hi.

(** RepeatMatcher of ECMA-262: [m] matches the quantified atom. An
    iteration that consumes nothing once the minimum is reached fails,
    so [fuel] = [lo] + remaining length + 1 is never exhausted. *)
Fixpoint repeat_match (m : MState -> Cont -> option MState)
    (greedy : bool) (lo : nat) (hi : option nat) (fuel : nat)
    (st : MState) (k : Cont) {struct fuel} : option MState :=
  match fuel with
  | O => None
  | S fuel' =>
      match hi with
      | Some O => k st
      | _ =>
          let d : Cont := fun st1 =>
            if (lo =? 0) && (String.length (rest st1) =? String.length (rest st))
            then None
            else repeat_match m greedy (pred lo) (dec_hi hi) fuel' st1 k in
          match lo with
          | S _ => m st d
          | O =>
              if greedy
              then match m st d with
                   | Some z => Some z
                   | None => k st
                   end
              else match k st with
                   | Some z => Some z
                   | None => m st d
                   end
          end
      end
  end.

(** The matcher of a pattern, in continuation-passing style. *)
Fixpoint rmatch (ic : bool) (r : regex) : MState -> Cont -> option MState :=
  match r with
  | Empty => fun st k => k st
  | Chr c => step_char (chr_eqb ic c)
  | AnyChar => step_char (fun a => negb (isLineTerminator a))
  | Class items => step_char (class_has ic items)
  | Seq r1 r2 => fun st k => rmatch ic r1 st (fun st1 => rmatch ic r2 st1 k)
  | Rep greedy lo hi r' => fun st k =>
      repeat_match (rmatch ic r') greedy lo hi
        (lo + String.length (rest st) + 1) st k
  | Group n r' => fun st k =>
      rmatch ic r' st (fun st1 => k (set_cap n (consumed st st1) st1))
  | WordBoundary => fun st k =>
      if xorb (is_word (prev st)) (is_word (next_char (rest st)))
      then k st else None
  | Bol => fun st k =>
      match prev st with None => k st | Some _ => None end
  end.

(** The result of [RegExp.prototype.exec]: the text before the match,
    the match, the text after it, the character before the end position
    and the captures. *)
Record MatchResult : Type := mkMatchResult {
  before : string;
  whole : string;
  after : string;
  end_prev : option ascii;
  groups : list (nat * string)
}.

(** Try the pattern at the current index, then at each later one.
    [pre] is the skipped text, in reverse. *)
Fixpoint exec_from (ic : bool) (r : regex) (pre : string)
    (p : option ascii) (s : string) : option MatchResult :=
  match rmatch ic r (mkMState p s []) (fun st => Some st) with
  | Some st' =>
      Some (mkMatchResult (rev_string "" pre)
              (consumed (mkMState p s []) st') (rest st') (prev st') (caps st'))
  | None =>
      match s with
      | EmptyString => None
      | String c s' => exec_from ic r (String c pre) (Some c) s'
      end
  end.

(** [re.exec(s)] for a pattern without the g flag. *)
Definition exec (re : RegExp) (s : string) : option MatchResult :=
  exec_from (ignoreCase re) (source re) "" None s.

(** [re.test(s)]. *)
Definition test (re : RegExp) (s : string) : bool :=
  match exec re s with Some _ => true | None => false end.

(** [m[n]] of a match array. *)
Definition group (n : nat) (m : MatchResult) : option string :=
  get_cap n (groups m).

(** [s.match(re)] with the g flag: every match from left to right, each
    search resuming where the last match ended (one further after an
    empty match).  At most [length s + 1] matches exist. *)
Fixpoint match_all_from (fuel : nat) (ic : bool) (r : regex)
    (p : option ascii) (s : string) : list string :=
  match fuel with
  | O => []
  | S fuel' =>
      match exec_from ic r "" p s with
      | None => []
      | Some m =>
          whole m ::
          match whole m, after m with
          | EmptyString, EmptyString => []
          | EmptyString, String c s' => match_all_from fuel' ic r (Some c) s'
          | _, s' => match_all_from fuel' ic r (end_prev m) s'
          end
      end
  end.

Definition match_all (re : RegExp) (s : string) : list string :=
  match_all_from (S (String.length s)) (ignoreCase re) (source re) None s.

(** [s.replace(re, '')] for a pattern without the g flag. *)
Definition remove_match (re : RegExp) (s : string) : string :=
  match exec re s with
  | Some m => (before m ++ after m)%string
  | None => s
  end.

(** ** Pattern notation: helpers that build the syntax of a literal *)

(** The characters of [s] in sequence. *)
Fixpoint lit (s : string) : regex :=
  match s with
  | EmptyString => Empty
  | String c EmptyString => Chr c
  | String c s' => Seq (Chr c) (lit s')
  end.

Fixpoint seq (l : list regex) : regex :=
  match l with
  | [] => Empty
  | [r] => r
  | r :: l' => Seq r (seq l')
  end.

Definition star (r : regex) : regex := Rep true 0 None r.
Definition plus (r : regex) : regex := Rep true 1 None r.
Definition lazy_star (r : regex) : regex := Rep false 0 None r.
Definition lazy_plus (r : regex) : regex := Rep false 1 None r.
Definition at_least (n : nat) (r : regex) : regex := Rep true n None r.
Definition between (n m : nat) (r : regex) : regex := Rep true n (Some m) r.
Definition exactly (n : nat) (r : regex) : regex := Rep true n (Some n) r.

Definition digit : regex := Class [ItDigit].
Definition space : regex := Class [ItSpace].
(** [[A-Z0-9]], [[A-Za-z0-9]], [[A-Z0-9\s]], [[A-Z0-9-]], [[A-Z]],
    [[:\s]], [[ :|]], [[\/\-]]. *)
Definition upper_digit : regex := Class [ItRange "A" "Z"; ItRange "0" "9"].
Definition alnum : regex :=
  Class [ItRange "A" "Z"; ItRange "a" "z"; ItRange "0" "9"].
Definition upper_digit_space : regex :=
  Class [ItRange "A" "Z"; ItRange "0" "9"; ItSpace].
Definition upper_digit_dash : regex :=
  Class [ItRange "A" "Z"; ItRange "0" "9"; ItChar "-"].
Definition upper : regex := Class [ItRange "A" "Z"].
Definition colon_space : regex := Class [ItChar ":"; ItSpace].
Definition space_colon_bar : regex := Class [ItChar " "; ItChar ":"; ItChar "|"].
Definition slash_dash : regex := Class [ItChar "/"; ItChar "-"].

End Re.

(* ================================================================== *)
(** * Part III. Dates *)
(* ================================================================== *)

Module JsDate.

Local Open Scope Z_scope.

Definition msPerDay : Z := 86400000.

(** Day number and time within the day of a time value (ECMA-262,
    21.4.1.3); [/] and [mod] on [Z] round towards minus infinity. *)
Definition Day (t : Z) : Z := t / msPerDay.
Definition TimeWithinDay (t : Z) : Z := t mod msPerDay.

(** Day number of a civil date of the proleptic Gregorian calendar;
    [m] runs from 1 to 12. *)
Definition days_from_civil (y m d : Z) : Z :=
  let y' := if m <=? 2 then y - 1 else y in
  let era := y' / 400 in
  let yoe := y' - era * 400 in
  let mp := if 2 <? m then m - 3 else m + 9 in
  let doy := (153 * mp + 2) / 5 + d - 1 in
  let doe := yoe * 365 + yoe / 4 - yoe / 100 + doy in
  era * 146097 + doe - 719468.

(** Civil date (year, month 1..12, day) of a day number. *)
Definition civil_from_days (z0 : Z) : Z * Z * Z :=
  let z := z0 + 719468 in
  let era := z / 146097 in
  let doe := z - era * 146097 in
  let yoe := (doe - doe / 1460 + doe / 36524 - doe / 146096) / 365 in
  let doy := doe - (365 * yoe + yoe / 4 - yoe / 100) in
  let mp := (5 * doy + 2) / 153 in
  let d := doy - (153 * mp + 2) / 5 + 1 in
  let m := if mp <? 10 then mp + 3 else mp - 9 in
  let y := yoe + era * 400 + (if m <=? 2 then 1 else 0) in
  (y, m, d).

Definition YearFromTime (t : Z) : Z :=
  let '(y, _, _) := civil_from_days (Day t) in y.
(** Months count from 0, as in ECMAScript. *)
Definition MonthFromTime (t : Z) : Z :=
  let '(_, m, _) := civil_from_days (Day t) in m - 1.
Definition DateFromTime (t : Z) : Z :=
  let '(_, _, d) := civil_from_days (Day t) in d.
Definition WeekDay (t : Z) : Z := (Day t + 4) mod 7.

(** MakeDay, MakeTime and MakeDate (ECMA-262, 21.4.1.28 to 21.4.1.30):
    a month outside 0..11 carries into the year, a date outside the
    month carries into the neighbouring months. *)
Definition MakeDay (year month date : Z) : Z :=
  let ym := year + month / 12 in
  let mn := month mod 12 in
  days_from_civil ym (mn + 1) 1 + date - 1.

Definition MakeTime (h m s ms : Z) : Z :=
  h * 3600000 + m * 60000 + s * 1000 + ms.

Definition MakeDate (day time : Z) : Z := day * msPerDay + time.

(** What the program takes from its host: the offset of local time
    (constant: the configured zone, Asia/Jakarta, has no daylight saving
    time), and the result of [Date.parse] on strings outside the
    date-time string format, which ECMA-262 leaves to the
    implementation. *)
Inductive DateValue : Type :=
| ValidDate (t : Z)
| InvalidDate.

Record Host : Type := mkHost {
  LocalTZA : Z;
  hostDateParse : string -> DateValue
}.

(** The calendar fields of a local time value: year, month (1..12),
    day, hours, minutes, seconds, milliseconds. *)
Definition fieldsOf (t : Z) : Z * Z * Z * Z * Z * Z * Z :=
  let '(y, m, dd) := civil_from_days (Day t) in
  let w := TimeWithinDay t in
  (y, m, dd, w / 3600000, (w / 60000) mod 60, (w / 1000) mod 60, w mod 1000).

Section WithHost.

Variable host : Host.

Definition LocalTime (t : Z) : Z := t + LocalTZA host.
Definition UTC (t : Z) : Z := t - LocalTZA host.

(** [new Date(year, month, day)]: a year from 0 to 99 means 1900 + year.
    (TimeClip is the identity on all dates built here: years have at
    most four digits.) *)
Definition newDate (year month day : Z) : Z :=
  let yr := if (0 <=? year) && (year <=? 99) then 1900 + year else year in
  UTC (MakeDate (MakeDay yr month day) (MakeTime 0 0 0 0)).

Definition getFullYear (d : Z) : Z := YearFromTime (LocalTime d).
Definition getMonth (d : Z) : Z := MonthFromTime (LocalTime d).
Definition getDate (d : Z) : Z := DateFromTime (LocalTime d).
Definition getDay (d : Z) : Z := WeekDay (LocalTime d).

(** [d.setHours(h, m, s, ms)] and [d.setDate(dt)], returning the new
    time value of [d]. *)
Definition setHours (d h m s ms : Z) : Z :=
  UTC (MakeDate (Day (LocalTime d)) (MakeTime h m s ms)).

Definition setDate (d dt : Z) : Z :=
  let t := LocalTime d in
  UTC (MakeDate (MakeDay (YearFromTime t) (MonthFromTime t) dt)
         (TimeWithinDay t)).

(** The local calendar fields of a date: year, month (1..12), day,
    hours, minutes, seconds, milliseconds. *)
Definition localFields (d : Z) : Z * Z * Z * Z * Z * Z * Z :=
  fieldsOf (LocalTime d).

(** The date-only form [YYYY-MM-DD] of the date-time string format,
    naming a day that exists: it denotes midnight UTC.  Every other
    string is parsed as the host decides. *)
Definition digitVal (c : ascii) : Z := Z.of_nat (code c - 48).

Definition daysInMonth (y m : Z) : Z := MakeDay y m 1 - MakeDay y (m - 1) 1.

Definition isoDateOnly (s : string) : option (Z * Z * Z) :=
  match s with
  | String y1 (String y2 (String y3 (String y4 (String "-"
      (String m1 (String m2 (String "-"
        (String d1 (String d2 EmptyString))))))))) =>
      if forallb isDigit [y1; y2; y3; y4; m1; m2; d1; d2] then
        let y := 1000 * digitVal y1 + 100 * digitVal y2
                 + 10 * digitVal y3 + digitVal y4 in
        let m := 10 * digitVal m1 + digitVal m2 in
        let d := 10 * digitVal d1 + digitVal d2 in
        if (1 <=? m) && (m <=? 12) && (1 <=? d) && (d <=? daysInMonth y m)
        then Some (y, m, d) else None
      else None
  | _ => None
  end.

(** [new Date(s)] for a string [s]. *)
Definition parseDate (s : string) : DateValue :=
  match isoDateOnly s with
  | Some (y, m, d) => ValidDate (MakeDate (MakeDay y (m - 1) d) 0)
  | None => hostDateParse host s
  end.

End WithHost.

(** [a >= b] and [a <= b] between a parsed date and a bound that may
    be [undefined]: comparisons with NaN are false. *)
Definition date_ge (a : DateValue) (b : option Z) : bool :=
  match a, b with
  | ValidDate t, Some u => u <=? t
  | _, _ => false
  end.

Definition date_le (a : DateValue) (b : option Z) : bool :=
  match a, b with
  | ValidDate t, Some u => t <=? u
  | _, _ => false
  end.

End JsDate.

Import Re.

(* ================================================================== *)
(** * Part IV. Sheets and users *)
(* ================================================================== *)

(** A row of a sheet and a sheet, as [getSheetData] returns them: row 0
    is the header.  [cell row i] is [row[i]]. *)
Definition Row : Type := list string.
Definition Sheet : Type := list Row.

Definition cell (row : Row) (i : nat) : option string := nth_error row i.

(** [appendSheetData]: one row is added after the last one. *)
Definition appendSheetData (sheet : Sheet) (values : Row) : Sheet :=
  sheet ++ [values].

(** [updateSheetData(sheet, `A1:L${lastRow}`, values)].  The update
    request of the storage service writes [values[i][j]] to row [i],
    column [j] of the range and leaves every other cell as it was; it
    is refused ([None]: the helper throws) when the values do not fit
    the rows 1..[lastRow] and the twelve columns A..L of the range. *)
Definition writeRow (vals old : Row) : Row := vals ++ skipn (List.length vals) old.

Fixpoint writeRows (values : list Row) (sheet : Sheet) : Sheet :=
  match values with
  | [] => sheet
  | v :: vs =>
      match sheet with
      | [] => v :: writeRows vs []
      | r :: rs => writeRow v r :: writeRows vs rs
      end
  end.

Definition columnsAtoL : nat := 12.

Definition updateSheetData (sheet : Sheet) (lastRow : nat)
    (values : list Row) : option Sheet :=
  if (List.length values <=? lastRow)
     && forallb (fun r => List.length r <=? columnsAtoL) values
  then Some (writeRows values sheet)
  else None.

(** [getUserData(username)]: the first row after the header whose handle
    (column 1, one [@] removed, lower case) is the sender's and whose
    status (column 3) is AKTIF. *)
Definition handleOf (s : string) : string := toLowerCase (removeFirst "@" s).

Definition isActiveUser (username : string) (row : Row) : bool :=
  String.eqb (handleOf (or_default (cell row 1) "")) (handleOf username)
  && String.eqb (toUpperCase (or_default (cell row 3) "")) "AKTIF".

Definition getUserData (users : Sheet) (username : string) : option Row :=
  find (isActiveUser username) (skipn 1 users).

(** [isAdmin(username)]. *)
Definition isAdmin (users : Sheet) (username : string) : bool :=
  match getUserData users username with
  | Some user => String.eqb (toUpperCase (or_default (cell user 2) "")) "ADMIN"
  | None => false
  end.

(* ================================================================== *)
(** * Part V. The stored date and the period filter *)
(* ================================================================== *)

Section Period.

Import JsDate.

Variable host : Host.

(** [months[key]] in [parseIndonesianDate]: the twelve month names, and
    the two properties that the object literal inherits under a
    lower-case name, as the template literal prints them. *)
Definition months (key : string) : option string :=
  if String.eqb key "januari" then Some "01"
  else if String.eqb key "februari" then Some "02"
  else if String.eqb key "maret" then Some "03"
  else if String.eqb key "april" then Some "04"
  else if String.eqb key "mei" then Some "05"
  else if String.eqb key "juni" then Some "06"
  else if String.eqb key "juli" then Some "07"
  else if String.eqb key "agustus" then Some "08"
  else if String.eqb key "september" then Some "09"
  else if String.eqb key "oktober" then Some "10"
  else if String.eqb key "november" then Some "11"
  else if String.eqb key "desember" then Some "12"
  else if String.eqb key "constructor"
       then Some "function Object() { [native code] }"
  else if String.eqb key "__proto__" then Some "[object Object]"
  else None.

(** [parseIndonesianDate(dateStr)]; [None] is [null]. *)
Definition parseIndonesianDate (dateStr : string) : option DateValue :=
  let parts := split " " (toLowerCase dateStr) in
  if 4 <=? List.length parts then
    let day := padStart 2 "0" (nth 1 parts "") in
    let month := months (nth 2 parts "") in
    let year := nth 3 parts "" in
    match month with
    | Some mm => Some (parseDate host (year ++ "-" ++ mm ++ "-" ++ day)%string)
    | None => None
    end
  else None.

(** [/(\d{1,2})[\/\-](\d{1,2})[\/\-](\d{4})/] *)
Definition datePattern : RegExp :=
  mkRegExp
    (seq [Group 1 (between 1 2 digit); slash_dash;
          Group 2 (between 1 2 digit); slash_dash;
          Group 3 (exactly 4 digit)])
    false false.

(** [dayOfWeek === 0 ? -6 : 1 - dayOfWeek] *)
Definition mondayOffset (dayOfWeek : Z) : Z :=
  if (dayOfWeek =? 0)%Z then (-6)%Z else (1 - dayOfWeek)%Z.

(** What the first part of [filterDataByPeriod] leaves to its loop:
    [startDate] and [endDate] (each may stay [undefined]), unless the
    function has returned all rows already. *)
Inductive Bounds : Type :=
| Window (startDate endDate : option Z)
| AllRows.

Definition groupInt (n : nat) (m : MatchResult) : Z :=
  parseInt (or_default (group n m) "").

Definition endOfDay (d : Z) : Z := setHours host d 23 59 59 999.

(** The window of lines 261 to 321; [now] is the value of [new Date()]
    and [customDate] is [None] for [null] (the default). *)
Definition periodBounds (now : Z) (period : string)
    (customDate : option string) : Bounds :=
  let today := setHours host now 0 0 0 0 in
  if truthy (or_default customDate "") then
    match exec datePattern (or_default customDate "") with
    | Some m =>
        let day := groupInt 1 m in
        let month := (groupInt 2 m - 1)%Z in
        let year := groupInt 3 m in
        let targetDate := newDate host year month day in
        if String.eqb period "daily" then
          Window (Some targetDate) (Some (endOfDay targetDate))
        else if String.eqb period "weekly" then
          let dayOfWeek := getDay host targetDate in
          let startDate :=
            setHours host
              (setDate host targetDate
                 (getDate host targetDate + mondayOffset dayOfWeek)%Z)
              0 0 0 0 in
          let endDate :=
            endOfDay (setDate host startDate (getDate host startDate + 6)%Z) in
          Window (Some startDate) (Some endDate)
        else if String.eqb period "monthly" then
          let startDate :=
            newDate host (getFullYear host targetDate)
              (getMonth host targetDate) 1 in
          let endDate :=
            endOfDay (newDate host (getFullYear host targetDate)
                        (getMonth host targetDate + 1)%Z 0) in
          Window (Some startDate) (Some endDate)
        else Window None None
    | None => Window None None
    end
  else
    if String.eqb period "daily" then
      Window (Some today) (Some (endOfDay today))
    else if String.eqb period "weekly" then
      let dayOfWeek := getDay host today in
      let startDate :=
        setDate host today (getDate host today + mondayOffset dayOfWeek)%Z in
      let endDate :=
        endOfDay (setDate host startDate (getDate host startDate + 6)%Z) in
      Window (Some startDate) (Some endDate)
    else if String.eqb period "monthly" then
      let startDate :=
        newDate host (getFullYear host today) (getMonth host today) 1 in
      let endDate :=
        endOfDay (newDate host (getFullYear host today)
                    (getMonth host today + 1)%Z 0) in
      Window (Some startDate) (Some endDate)
    else AllRows.

(** The test of the loop of lines 323 to 332 on one row. *)
Definition inWindow (startDate endDate : option Z) (row : Row) : bool :=
  match cell row 0 with
  | Some dateStr =>
      truthy dateStr &&
      match parseIndonesianDate dateStr with
      | Some rowDate => date_ge rowDate startDate && date_le rowDate endDate
      | None => false
      end
  | None => false
  end.

(** [filterDataByPeriod(data, period, customDate)]. *)
Definition filterDataByPeriod (now : Z) (data : Sheet) (period : string)
    (customDate : option string) : list Row :=
  match periodBounds now period customDate with
  | AllRows => skipn 1 data
  | Window startDate endDate =>
      filter (inWindow startDate endDate) (skipn 1 data)
  end.

End Period.

(* ================================================================== *)
(** * Part VI. The field extractor: [parseAktivasi] *)
(* ================================================================== *)

Module Pat.

(** Pattern literals of [parseAktivasi], in the order of the source.
    [icase r] is [/r/i], [plain r] is [/r/], [glob r] is [/r/g]. *)
Definition icase (r : regex) : RegExp := mkRegExp r true false.
Definition plain (r : regex) : RegExp := mkRegExp r false false.
Definition glob (r : regex) : RegExp := mkRegExp r false true.

(** [X\s*:\s*(g)] and [X[:\s]+(g)] *)
Definition field (label : list regex) (g : regex) : regex :=
  seq (label ++ [star space; Chr ":"; star space; Group 1 g]).
Definition loose (label : list regex) (g : regex) : regex :=
  seq (label ++ [plus colon_space; Group 1 g]).
(** [(BRAND[A-Z0-9]+)] *)
Definition brand (prefix : string) : RegExp :=
  icase (Group 1 (Seq (lit prefix) (plus upper_digit))).

(* TSEL *)
Definition tselAo1 := icase (field [lit "AO"] (plus alnum)).
Definition tselAo2 := icase (seq [lit "AO"; star space; Group 1 (plus alnum)]).
Definition tselWorkorder := icase (field [lit "WORKORDER"] (plus alnum)).
Definition tselServiceNo :=
  icase (field [lit "SERVICE"; star space; lit "NO"] (plus digit)).
Definition tselCustomerName :=
  icase (field [lit "CUSTOMER"; star space; lit "NAME"] (plus upper_digit_space)).
Definition tselWorkzone := icase (field [lit "WORKZONE"] (plus upper_digit)).
Definition tselSnOnt :=
  icase (field [lit "SN"; star space; lit "ONT"] (plus upper_digit)).
Definition tselNikOnt :=
  icase (field [lit "NIK"; star space; lit "ONT"] (plus digit)).
Definition stbPattern :=
  icase (field [lit "STB"; star space; lit "ID"] (plus upper_digit)).
Definition tselNikStb :=
  icase (field [lit "NIK"; star space; lit "STB"] (plus digit)).

(* BGES and WMS *)
(** [/AO\|.*?(SC\d{6,})/g] *)
Definition aoLine :=
  glob (seq [lit "AO|"; lazy_star AnyChar;
             Group 1 (Seq (lit "SC") (at_least 6 digit))]).
(** [/SC(\d{6,})/] *)
Definition scNumber := plain (Seq (lit "SC") (Group 1 (at_least 6 digit))).
(** [/\b\d{11,12}\b/g] *)
Definition serviceToken :=
  glob (seq [WordBoundary; between 11 12 digit; WordBoundary]).
(** [/\d{2}\/\d{2}\/\d{4}\s+\d{2}:\d{2}\s+\d+\s+([A-Z0-9\s]+?)\s{2,}/] *)
Definition customerLineRe : regex :=
  seq [exactly 2 digit; Chr "/"; exactly 2 digit; Chr "/"; exactly 4 digit;
       plus space; exactly 2 digit; Chr ":"; exactly 2 digit; plus space;
       plus digit; plus space; Group 1 (lazy_plus upper_digit_space);
       at_least 2 space].
Definition customerLines := glob customerLineRe.
Definition customerLine := plain customerLineRe.
(** [/AO\|\s+([A-Z]{2,})/] *)
Definition workzoneRe : regex :=
  seq [lit "AO|"; plus space; Group 1 (at_least 2 upper)].
Definition workzoneLines := glob workzoneRe.
Definition workzoneLine := plain workzoneRe.

(* shared by BGES/WMS and the label fallback *)
Definition snOntLoose :=
  icase (loose [lit "SN"; star space; lit "ONT"] (plus upper_digit)).
Definition nikOntLoose :=
  icase (loose [lit "NIK"; star space; lit "ONT"] (plus digit)).
Definition stbIdLoose :=
  icase (loose [lit "STB"; star space; lit "ID"] (plus upper_digit)).
Definition nikStbLoose :=
  icase (loose [lit "NIK"; star space; lit "STB"] (plus digit)).
Definition ontBrands : list RegExp :=
  [brand "ZTEG"; brand "HWTC"; brand "HUAW"; brand "FHTT"; brand "FIBR"].

(* label fallback *)
Definition aoLoose := icase (loose [lit "AO"] (plus upper_digit)).
Definition workorderLoose :=
  icase (loose [lit "WORKORDER"] (plus upper_digit_dash)).
Definition serviceNoLoose :=
  icase (loose [lit "SERVICE"; star space; lit "NO"] (plus digit)).
Definition customerNameLoose :=
  icase (loose [lit "CUSTOMER"; star space; lit "NAME"] (plus AnyChar)).
Definition ownerLoose := icase (loose [lit "OWNER"] (plus upper_digit)).
Definition workzoneLoose := icase (loose [lit "WORKZONE"] (plus upper_digit)).

(** [/^\/aktivasi\b/i] and [/^\/aktivasi\s*/i] *)
Definition aktivasiCommand := icase (seq [Bol; lit "/aktivasi"; WordBoundary]).
Definition aktivasiPrefix := icase (seq [Bol; lit "/aktivasi"; star space]).

End Pat.

(** The object that [parseAktivasi] returns. *)
Record Parsed : Type := mkParsed {
  ao : string;
  workorder : string;
  serviceNo : string;
  customerName : string;
  owner : string;
  workzone : string;
  snOnt : string;
  nikOnt : string;
  stbId : string;
  nikStb : string;
  teknisi : string
}.

(** [findValue(patterns)]: the first pattern that yields a value. *)
Fixpoint findValue (text : string) (patterns : list RegExp) : string :=
  match patterns with
  | [] => ""
  | pattern :: more =>
      if global pattern then
        match match_all pattern text with
        | [] => findValue text more
        | matches => last matches ""
        end
      else
        match exec pattern text with
        | Some matches =>
            match group 1 matches with
            | Some g => if truthy g then trim g else findValue text more
            | None => findValue text more
            end
        | None => findValue text more
        end
  end.

(** [detectOwner(text)] *)
Definition detectOwner (text : string) : string :=
  let upperText := toUpperCase text in
  if includes upperText "CHANNEL : DIGIPOS"
     || includes upperText "DATE CREATED"
     || includes upperText "WORKORDER : WO"
  then "TSEL"
  else if includes upperText "INDIBIZ" || includes upperText "HSI"
  then "BGES"
  else if includes upperText "WMS" || includes upperText "MWS"
  then "WMS"
  else "".

(** [lines]: the trimmed, non-empty lines of the text. *)
Definition linesOf (text : string) : list string :=
  filter truthy (List.map trim (split (String "010" "") text)).

(** [getValue(label)]: what follows the first colon of the first line
    that starts with the label and [" :"], ignoring case. *)
Definition afterColon (line : string) : string :=
  trim (join ":" (skipn 1 (split ":" line))).

Definition getValue (lines : list string) (label : string) : string :=
  match find (fun l => startsWith (toUpperCase label ++ " :")%string
                         (toUpperCase l)) lines with
  | Some line => afterColon line
  | None => ""
  end.

(** The last element of a non-empty match list, [None] for [null]. *)
Definition lastMatch (matches : list string) : option string :=
  match matches with
  | [] => None
  | _ => Some (last matches "")
  end.

(** [(userRow[1] || username).replace('@', '')] *)
Definition teknisiOf (userRow : Row) (username : string) : string :=
  removeFirst "@" (or_default (cell userRow 1) username).

Definition parseTsel (text tek : string) : Parsed :=
  let ao := findValue text [Pat.tselAo1; Pat.tselAo2] in
  let workorder := or_else (findValue text [Pat.tselWorkorder]) ao in
  let serviceNo := findValue text [Pat.tselServiceNo] in
  let customerName := findValue text [Pat.tselCustomerName] in
  let workzone := findValue text [Pat.tselWorkzone] in
  let snOnt :=
    findValue text
      [Pat.tselSnOnt; Pat.brand "ZTEGDA"; Pat.brand "HWTC"; Pat.brand "HUAW";
       Pat.brand "FHTT"; Pat.brand "FIBR"] in
  let nikOnt := findValue text [Pat.tselNikOnt] in
  let stb :=
    match exec Pat.stbPattern text with
    | Some stbMatch =>
        match group 1 stbMatch with
        | Some g =>
            if truthy g then (g, findValue text [Pat.tselNikStb]) else ("", "")
        | None => ("", "")
        end
    | None => ("", "")
    end in
  mkParsed ao workorder serviceNo customerName "TSEL" workzone snOnt nikOnt
    (fst stb) (snd stb) tek.

Definition parseBgesWms (text owner tek : string) : Parsed :=
  let ao :=
    match lastMatch (match_all Pat.aoLine text) with
    | Some lastM =>
        match exec Pat.scNumber lastM with
        | Some scMatch => ("SC" ++ or_default (group 1 scMatch) "")%string
        | None => ""
        end
    | None => ""
    end in
  let workorder := ao in
  let serviceNo :=
    match lastMatch (match_all Pat.serviceToken text) with
    | Some tok => tok
    | None => ""
    end in
  let customerName :=
    match match_all Pat.customerLines text with
    | first :: _ =>
        match exec Pat.customerLine first with
        | Some nameMatch =>
            match group 1 nameMatch with
            | Some g => if truthy g then trim g else ""
            | None => ""
            end
        | None => ""
        end
    | [] => ""
    end in
  let workzone :=
    match lastMatch (match_all Pat.workzoneLines text) with
    | Some lastWz =>
        match exec Pat.workzoneLine lastWz with
        | Some wzMatch =>
            match group 1 wzMatch with
            | Some g => if truthy g then g else ""
            | None => ""
            end
        | None => ""
        end
    | None => ""
    end in
  let snOnt := findValue text (Pat.snOntLoose :: Pat.ontBrands) in
  let nikOnt := findValue text [Pat.nikOntLoose] in
  let stbId := findValue text [Pat.stbIdLoose] in
  let nikStb := findValue text [Pat.nikStbLoose] in
  mkParsed ao workorder serviceNo customerName owner workzone snOnt nikOnt
    stbId nikStb tek.

Definition parseManual (text tek : string) : Parsed :=
  let lines := linesOf text in
  let get label patterns := or_else (getValue lines label) (findValue text patterns) in
  mkParsed
    (get "AO" [Pat.aoLoose])
    (get "WORKORDER" [Pat.workorderLoose])
    (get "SERVICE NO" [Pat.serviceNoLoose])
    (get "CUSTOMER NAME" [Pat.customerNameLoose])
    (get "OWNER" [Pat.ownerLoose])
    (get "WORKZONE" [Pat.workzoneLoose])
    (get "SN ONT" (Pat.snOntLoose :: Pat.ontBrands))
    (get "NIK ONT" [Pat.nikOntLoose])
    (get "STB ID" [Pat.stbIdLoose])
    (get "NIK STB" [Pat.nikStbLoose])
    tek.

(** [parseAktivasi(text, userRow)]; [username] is the sender's name,
    which the closure reads from the message. *)
Definition parseAktivasi (username text : string) (userRow : Row) : Parsed :=
  let tek := teknisiOf userRow username in
  let owner := detectOwner text in
  if String.eqb owner "TSEL" then parseTsel text tek
  else if String.eqb owner "BGES" || String.eqb owner "WMS"
  then parseBgesWms text owner tek
  else parseManual text tek.

(* ================================================================== *)
(** * Part VII. The write path: the [/aktivasi] handler *)
(* ================================================================== *)

(** The duplicate check of the handler: is the AO in column 1 of some
    row after the header? *)
Definition normalizeAo (s : string) : string := trim (toUpperCase s).

Definition isDuplicate (candidate : string) (data : Sheet) : bool :=
  existsb
    (fun row => String.eqb (normalizeAo (or_default (cell row 1) ""))
                  (normalizeAo candidate))
    (skipn 1 data).

(** What the handler answers; [Saved] is the only outcome that follows
    a call of [appendSheetData]. *)
Inductive Reply : Type :=
| NotACommand                  (* the branch is not taken *)
| NotRegistered                (* Anda tidak terdaftar sebagai user aktif *)
| NoPayload                    (* Silakan kirim data aktivasi *)
| Incomplete (missing : list string)   (* Data tidak lengkap *)
| Duplicate                    (* Data duplikat. AO sudah pernah diinput *)
| Saved                        (* Data berhasil disimpan *)
| SystemError.                 (* an exception caught by the handler *)

Definition rowOf (tanggal : string) (p : Parsed) : Row :=
  [tanggal; ao p; workorder p; serviceNo p; customerName p; owner p;
   workzone p; snOnt p; nikOnt p; stbId p; nikStb p; teknisi p].

(** The [/aktivasi] branch of the message handler.  [users] and
    [store] are the USER and REKAPAN QUALITY sheets, [text] the trimmed
    message text, [tanggal] the value of [getTodayDateString()]; the
    result is the reply and the REKAPAN QUALITY sheet afterwards. *)
Definition handleAktivasi (users store : Sheet) (username text tanggal : string)
    : Reply * Sheet :=
  if negb (test Pat.aktivasiCommand text) then (NotACommand, store) else
  match getUserData users username with
  | None => (NotRegistered, store)
  | Some user =>
      let inputText := trim (remove_match Pat.aktivasiPrefix text) in
      if negb (truthy inputText) then (NoPayload, store) else
      let parsed := parseAktivasi username inputText user in
      let missing := if truthy (ao parsed) then [] else ["AO"] in
      if 0 <? List.length missing then (Incomplete missing, store) else
      if isDuplicate (ao parsed) store then (Duplicate, store) else
      (Saved, appendSheetData store (rowOf tanggal parsed))
  end.

(* ================================================================== *)
(** * Part VIII. The read path: tallies and rankings of [/ps] *)
(* ================================================================== *)

(** A tally object such as [teknisiMap]: its own properties in the
    order of their creation.  [obj_get] is [map[key]] ([None] for
    [undefined]), [obj_set] is [map[key] = v]. *)
Definition JsObject : Type := list (string * nat).

Fixpoint obj_get (o : JsObject) (key : string) : option nat :=
  match o with
  | [] => None
  | (k, v) :: o' => if String.eqb k key then Some v else obj_get o' key
  end.

Fixpoint obj_set (o : JsObject) (key : string) (v : nat) : JsObject :=
  match o with
  | [] => [(key, v)]
  | (k, w) :: o' =>
      if String.eqb k key then (k, v) :: o' else (k, w) :: obj_set o' key v
  end.

(** [map[key] = (map[key] || 0) + 1] *)
Definition increment (o : JsObject) (key : string) : JsObject :=
  obj_set o key (match obj_get o key with Some n => n | None => 0 end + 1).

(** An array index (ECMA-262, 6.1.7): the canonical decimal form of an
    integer from 0 to 2^32 - 2. *)
Definition isArrayIndex (key : string) : bool :=
  match key with
  | EmptyString => false
  | String "0" EmptyString => true
  | String c _ =>
      negb (Ascii.eqb c "0") && allb isDigit key
      && (parseInt key <=? 4294967294)%Z
  end.

(** Insertion of an integer-keyed entry in ascending order of the key. *)
Fixpoint insertIndex (e : string * nat) (l : list (string * nat))
    : list (string * nat) :=
  match l with
  | [] => [e]
  | x :: l' =>
      if (parseInt (fst e) <=? parseInt (fst x))%Z
      then e :: l
      else x :: insertIndex e l'
  end.

(** [Object.entries(map)] (OrdinaryOwnPropertyKeys): the array-index keys
    in ascending numeric order, then the other keys in the order of their
    creation. *)
Definition entries (o : JsObject) : list (string * nat) :=
  fold_right insertIndex [] (filter (fun e => isArrayIndex (fst e)) o)
  ++ filter (fun e => negb (isArrayIndex (fst e))) o.

(** [Array.prototype.sort(compare)], which is stable: an element goes
    before the first element of the sorted rest that [compare] puts
    strictly after it or level with it. *)
Section Sort.
Context {A : Type} (compare : A -> A -> Z).

Fixpoint insertSorted (x : A) (l : list A) : list A :=
  match l with
  | [] => [x]
  | y :: l' =>
      if (compare x y <=? 0)%Z then x :: l else y :: insertSorted x l'
  end.

Definition sortBy (l : list A) : list A := fold_right insertSorted [] l.
End Sort.

(** [(a, b) => b[1] - a[1]] *)
Definition byCountDesc (a b : string * nat) : Z :=
  (Z.of_nat (snd b) - Z.of_nat (snd a))%Z.

(** [(row[i] || '-').toUpperCase()] *)
Definition groupKey (i : nat) (row : Row) : string :=
  toUpperCase (or_default (cell row i) "-").

(** The [forEach] that fills one tally from column [i]. *)
Definition tally (i : nat) (rows : list Row) : JsObject :=
  fold_left (fun o row => increment o (groupKey i row)) rows [].

(** [Object.entries(map).sort((a,b)=>b[1]-a[1])] *)
Definition ranking (o : JsObject) : list (string * nat) :=
  sortBy byCountDesc (entries o).

Definition teknisiColumn : nat := 11.
Definition workzoneColumn : nat := 6.
Definition ownerColumn : nat := 5.

(** The three rankings that the [/ps] report prints. *)
Record Rankings : Type := mkRankings {
  byTeknisi : list (string * nat);
  byWorkzone : list (string * nat);
  byOwner : list (string * nat)
}.

Definition psRankings (filteredData : list Row) : Rankings :=
  mkRankings (ranking (tally teknisiColumn filteredData))
             (ranking (tally workzoneColumn filteredData))
             (ranking (tally ownerColumn filteredData)).

(* ================================================================== *)
(** * Part IX. The [/clear] handler *)
(* ================================================================== *)

(** The loop that keeps the first row of every AO; [seen] is the set of
    AOs met so far.  The result is the kept rows and [duplicateCount]. *)
Fixpoint dedupe (seen : list string) (rows : list Row) : list Row * nat :=
  match rows with
  | [] => ([], 0)
  | row :: rows' =>
      let ao := normalizeAo (or_default (cell row 1) "") in
      if negb (existsb (String.eqb ao) seen) && truthy ao then
        let '(kept, n) := dedupe (ao :: seen) rows' in (row :: kept, n)
      else
        let '(kept, n) := dedupe seen rows' in (kept, S n)
  end.

Inductive ClearReply : Type :=
| AccessDenied                 (* Akses ditolak *)
| AlreadyClean                 (* Sheet sudah bersih *)
| Cleaned (duplicateCount : nat)
| ClearFailed.                 (* the update was refused *)

(** [uniqueData] and [duplicateCount] of the handler. *)
Definition uniqueDataOf (header : Row) (rows : list Row) : list Row :=
  header :: fst (dedupe [] rows).
Definition duplicateCountOf (rows : list Row) : nat := snd (dedupe [] rows).

(** The [/clear] branch: the reply and the REKAPAN QUALITY sheet
    afterwards. *)
Definition handleClear (users store : Sheet) (username : string)
    : ClearReply * Sheet :=
  if negb (isAdmin users username) then (AccessDenied, store) else
  match store with
  | [] | [_] => (AlreadyClean, store)
  | header :: rows =>
      let uniqueData := uniqueDataOf header rows in
      let duplicateCount := duplicateCountOf rows in
      if duplicateCount =? 0 then (AlreadyClean, store) else
      match updateSheetData store (List.length uniqueData) uniqueData with
      | Some store' => (Cleaned duplicateCount, store')
      | None => (ClearFailed, store)
      end
  end.

(* ================================================================== *)
(** * Part X. The older minimal bot: its [/aktivasi] handler *)
(* ================================================================== *)

Module Legacy.

(** [findByPattern(pattern)]: [pattern] is recompiled with the i flag. *)
Definition findByPattern (lines : list string) (pattern : regex) : string :=
  let regex := mkRegExp pattern true false in
  match find (test regex) lines with
  | Some line =>
      match exec regex line with
      | Some m => trim (or_default (group 1 m) "")
      | None => ""
      end
  | None => ""
  end.

(** [getField(label, fallbackPattern)] *)
Definition getField (lines : list string) (label : string) (fallbackPattern : regex)
    : string :=
  let val := getValue lines label in
  if negb (truthy val) then findByPattern lines fallbackPattern else val.

(** [/X[ :|]+(g)/] *)
Definition labelled (label : string) (g : regex) : regex :=
  seq [lit label; plus space_colon_bar; Group 1 g].

(** [/OWNER\s+\w+/i] *)
Definition ownerWord : RegExp :=
  mkRegExp (seq [lit "OWNER"; plus space; plus (Class [ItWord])]) true false.

(** The owner; [None] when [ownerLine.split('OWNER')[1]] is
    [undefined] and [.trim()] throws. *)
Definition ownerOf (inputText : string) (lines : list string) : option string :=
  let owner := getValue lines "OWNER" in
  if truthy owner then Some owner else
  match find (test ownerWord) lines with
  | Some ownerLine =>
      match nth_error (split "OWNER" ownerLine) 1 with
      | Some s => Some (trim s)
      | None => None
      end
  | None =>
      if includes (toUpperCase inputText) "BGES" then Some "BGES"
      else if includes (toUpperCase inputText) "WMS" then Some "WMS"
      else if includes (toUpperCase inputText) "TSEL" then Some "TSEL"
      else Some ""
  end.

(** The fields that the handler reads from the message. *)
Definition parseLegacy (inputText : string) : option Parsed :=
  let lines := linesOf inputText in
  match ownerOf inputText lines with
  | None => None
  | Some owner =>
      Some (mkParsed
        (getField lines "AO" (labelled "AO" (plus upper_digit)))
        (getField lines "WORKORDER" (labelled "WORKORDER" (plus upper_digit)))
        (getField lines "SERVICE NO" (labelled "SERVICE NO" (plus digit)))
        (getField lines "CUSTOMER NAME" (labelled "CUSTOMER NAME" (plus AnyChar)))
        owner
        (getField lines "WORKZONE" (labelled "WORKZONE" (plus upper_digit)))
        (getField lines "SN ONT" (labelled "SN ONT" (plus upper_digit)))
        (getField lines "NIK ONT" (labelled "NIK ONT" (plus digit)))
        (getField lines "STB ID" (labelled "STB ID" (plus upper_digit)))
        (getField lines "NIK STB" (labelled "NIK STB" (plus digit)))
        (getField lines "TEKNISI" (labelled "TEKNISI" (plus AnyChar))))
  end.

(** The [/aktivasi] branch of the older handler. *)
Definition handleAktivasi (users store : Sheet) (username text tanggal : string)
    : Reply * Sheet :=
  if negb (test Pat.aktivasiCommand text) then (NotACommand, store) else
  match getUserData users username with
  | None => (NotRegistered, store)
  | Some user =>
      let inputText := trim (remove_match Pat.aktivasiPrefix text) in
      if negb (truthy inputText) then (NoPayload, store) else
      match parseLegacy inputText with
      | None => (SystemError, store)
      | Some parsed =>
          if negb (truthy (snOnt parsed)) || negb (truthy (nikOnt parsed))
          then (Incomplete ["SN ONT"; "NIK ONT"], store)
          else (Saved, appendSheetData store (rowOf tanggal parsed))
      end
  end.

End Legacy.

(* ================================================================== *)
(** * Part X-a. Outgoing messages: [sendTelegram] *)
(* ================================================================== *)

Definition newline : string := String "010" "".

Definition maxLength : nat := 4000.
Definition maxRetries : nat := 3.

(** [sendWithRetry(message)].  [throws n] tells whether the call of
    [bot.sendMessage] made when [retries] is [n] throws.  [budget] is
    [maxRetries - retries], so that [retries < maxRetries] is
    [budget <> 0]; [waited] adds up the delays of [setTimeout], in
    milliseconds. *)
Inductive SendResult : Type :=
| Delivered (retries waited : nat)
| Thrown (retries waited : nat).

Fixpoint retryLoop (budget : nat) (throws : nat -> bool) (retries waited : nat)
    : SendResult :=
  if negb (throws retries) then Delivered retries waited
  else
    match budget with
    | S budget' =>
        retryLoop budget' throws (retries + 1) (waited + 1000 * (retries + 1))
    | O => Thrown retries waited
    end.

Definition sendWithRetry (throws : nat -> bool) : SendResult :=
  retryLoop maxRetries throws 0 0.

(** The loop of lines 166 to 172: the chunks pushed, in the order of the
    pushes, and the chunk left when the lines are used up. *)
Fixpoint chunkLoop (limit : nat) (lines : list string) (chunk : string)
    : list string * string :=
  match lines with
  | [] => ([], chunk)
  | line :: rest =>
      if limit <? String.length (chunk ++ line ++ newline)%string then
        let '(pushed, final) := chunkLoop limit rest (line ++ newline)%string in
        (chunk :: pushed, final)
      else chunkLoop limit rest (chunk ++ line ++ newline)%string
  end.

(** The messages handed to [sendWithRetry], in the order of the calls,
    for a limit of [limit] characters. *)
Definition messagesOf (limit : nat) (text : string) : list string :=
  if String.length text <=? limit then [text]
  else
    let '(pushed, chunk) := chunkLoop limit (split newline text) "" in
    if truthy (trim chunk) then pushed ++ [chunk] else pushed.

(** [sendTelegram(chatId, text)] *)
Definition sendTelegram (text : string) : list string :=
  messagesOf maxLength text.

(* ================================================================== *)
(** * Part X-b. The export: [generateCSV] and [/exportcari] *)
(* ================================================================== *)

(** The double quote, U+0022. *)
Definition dquoteChar : ascii := ascii_of_nat 34.
Definition dquote : string := String dquoteChar "".

(** The global [replace] of line 346: every double quote of the cell
    is doubled. *)
Fixpoint doubleQuotes (s : string) : string :=
  match s with
  | EmptyString => EmptyString
  | String c s' =>
      if Ascii.eqb c dquoteChar
      then String dquoteChar (String dquoteChar (doubleQuotes s'))
      else String c (doubleQuotes s')
  end.

(** The function mapped over the cells of a row. *)
Definition escapeCell (cell : string) : string :=
  let cellStr := or_else cell "" in
  if includes cellStr "," || includes cellStr dquote || includes cellStr newline
  then (dquote ++ doubleQuotes cellStr ++ dquote)%string
  else cellStr.

Definition csvRow (row : Row) : string :=
  (join "," (List.map escapeCell row) ++ newline)%string.

(** [generateCSV(data, headers)] *)
Definition generateCSV (data : list Row) (headers : Row) : string :=
  fold_left (fun csv row => (csv ++ csvRow row)%string) data
    (join "," headers ++ newline)%string.

(** The handle of the technician of a stored row:
    [(data[i][11] || '').replace('@', '').toLowerCase()]. *)
Definition teknisiHandle (row : Row) : string :=
  handleOf (or_default (cell row 11) "").

(** The rows after the header that belong to [target]. *)
Definition rowsOfTeknisi (target : string) (data : Sheet) : list Row :=
  filter (fun row => String.eqb (teknisiHandle row) target) (skipn 1 data).

(** [(user[1] || username).replace('@', '').toLowerCase()] *)
Definition userTeknisiOf (user : Row) (username : string) : string :=
  handleOf (or_default (cell user 1) username).

Definition exportHeaders : Row :=
  ["TANGGAL"; "AO"; "WORKORDER"; "SERVICE_NO"; "CUSTOMER_NAME"; "OWNER";
   "WORKZONE"; "SN_ONT"; "NIK_ONT"; "STB_ID"; "NIK_STB"; "TEKNISI"].

Inductive ExportReply : Type :=
| ExportNotRegistered          (* Anda tidak terdaftar sebagai user aktif *)
| NothingToExport              (* Tidak ada data aktivasi untuk diekspor *)
| CsvFile (teknisi csvContent : string).

(** The [/exportcari] branch; the file name is built from [teknisi] and
    the date of the day. *)
Definition handleExportCari (users data : Sheet) (username : string)
    : ExportReply :=
  match getUserData users username with
  | None => ExportNotRegistered
  | Some user =>
      let userTeknisi := userTeknisiOf user username in
      let userActivations := rowsOfTeknisi userTeknisi data in
      if List.length userActivations =? 0 then NothingToExport
      else CsvFile userTeknisi (generateCSV userActivations exportHeaders)
  end.

(* ================================================================== *)
(** * Part X-c. The other reports *)
(* ================================================================== *)

(** [text.split(' ').slice(1)] and [args.length > 0 ? args[0] : null]. *)
Definition argsOf (text : string) : list string := skipn 1 (split " " text).
Definition customDateOf (text : string) : option string :=
  nth_error (argsOf text) 0.

Section Reports.

Variable host : JsDate.Host.

(** What [/ps] prints: the total and the three rankings. *)
Definition psReport (now : Z) (data : Sheet) (text : string) : nat * Rankings :=
  let filteredData := filterDataByPeriod host now data "daily" (customDateOf text) in
  (List.length filteredData, psRankings filteredData).

(** What [/weekly] and [/monthly] print, the daily average of the
    latter apart: the total, the numbers of keys of the three tallies,
    the first technicians and the first work zones of the rankings.
    The two branches differ in the period and in the two lengths. *)
Record TopReport : Type := mkTopReport {
  total : nat;
  teknisiAktif : nat;
  workzoneTercover : nat;
  owners : nat;
  topTeknisi : list (string * nat);
  topWorkzone : list (string * nat)
}.

Definition topReport (period : string) (nTeknisi nWorkzone : nat)
    (now : Z) (data : Sheet) (text : string) : TopReport :=
  let filteredData := filterDataByPeriod host now data period (customDateOf text) in
  let teknisiMap := tally teknisiColumn filteredData in
  let workzoneMap := tally workzoneColumn filteredData in
  let ownerMap := tally ownerColumn filteredData in
  mkTopReport (List.length filteredData)
    (List.length teknisiMap) (List.length workzoneMap) (List.length ownerMap)
    (firstn nTeknisi (ranking teknisiMap))
    (firstn nWorkzone (ranking workzoneMap)).

Definition weeklyReport : Z -> Sheet -> string -> TopReport :=
  topReport "weekly" 10 5.
Definition monthlyReport : Z -> Sheet -> string -> TopReport :=
  topReport "monthly" 15 8.

(** [/topteknisi]: the tally leaves out the key ["-"]. *)
Definition tallyTeknisi (rows : list Row) : JsObject :=
  fold_left
    (fun o row =>
       let teknisi := groupKey teknisiColumn row in
       if negb (String.eqb teknisi "-") then increment o teknisi else o)
    rows [].

(** [args[1] || null] *)
Definition secondArg (args : list string) : option string :=
  match nth_error args 1 with
  | Some s => if truthy s then Some s else None
  | None => None
  end.

(** The rows that the [switch] of line 570 selects. *)
Definition topteknisiRows (now : Z) (data : Sheet) (text : string) : list Row :=
  let args := argsOf text in
  let period := or_default (nth_error args 0) "all" in
  let customDate := secondArg args in
  let p := toLowerCase period in
  if String.eqb p "daily" then filterDataByPeriod host now data "daily" customDate
  else if String.eqb p "weekly" then filterDataByPeriod host now data "weekly" customDate
  else if String.eqb p "monthly" then filterDataByPeriod host now data "monthly" customDate
  else skipn 1 data.

(** What [/topteknisi] prints: the number of technicians, the first
    twenty of the ranking and the number of the others. *)
Record TeknisiRanking : Type := mkTeknisiRanking {
  totalTeknisi : nat;
  top20 : list (string * nat);
  lainnya : nat
}.

Definition topteknisiReport (now : Z) (data : Sheet) (text : string)
    : TeknisiRanking :=
  let sortedTeknisi := ranking (tallyTeknisi (topteknisiRows now data text)) in
  mkTeknisiRanking (List.length sortedTeknisi) (firstn 20 sortedTeknisi)
    (if 20 <? List.length sortedTeknisi then List.length sortedTeknisi - 20 else 0).

End Reports.

(** What [/allps] prints: [Math.max(0, data.length - 1)], the rankings
    by owner and by work zone, and the first five technicians. *)
Record AllReport : Type := mkAllReport {
  totalKeseluruhan : Z;
  perOwner : list (string * nat);
  perSektor : list (string * nat);
  topFive : list (string * nat)
}.

Definition allpsReport (data : Sheet) : AllReport :=
  let rows := skipn 1 data in
  mkAllReport (Z.max 0 (Z.of_nat (List.length data) - 1))
    (ranking (tally ownerColumn rows))
    (ranking (tally workzoneColumn rows))
    (firstn 5 (ranking (tally teknisiColumn rows))).

(** What [/cari] and [/<username>] print: the number of rows of the
    technician and their rankings by owner and by work zone. *)
Record Stats : Type := mkStats {
  count : nat;
  detailOwner : list (string * nat);
  detailWorkzone : list (string * nat)
}.

Definition statsOf (rows : list Row) : Stats :=
  mkStats (List.length rows)
    (ranking (tally ownerColumn rows))
    (ranking (tally workzoneColumn rows)).

(** The [/cari] branch; [None] is the reply to a sender who is not an
    active user. *)
Definition handleCari (users data : Sheet) (username : string) : option Stats :=
  match getUserData users username with
  | None => None
  | Some user => Some (statsOf (rowsOfTeknisi (userTeknisiOf user username) data))
  end.



(* ================================================================== *)
(** * Part X-d. The message handler: which branch answers *)
(* ================================================================== *)

(** The branches of the [if] chain of lines 369 to 1083. *)
Inductive Branch : Type :=
| Ignored                      (* a group chat and not /aktivasi: return *)
| ExportCari
| Ps
| Weekly
| Monthly
| TopTeknisi
| AllPs
| Cari
| UserStats                    (* /<username> *)
| Clear
| Aktivasi
| Help                         (* /help and /start *)
| UnknownCommand               (* Command tidak dikenali *)
| Silent.                      (* no branch is taken: nothing is sent *)

(** [/^\/name\b/i], with [name] carrying its slash. *)
Definition commandRe (name : string) : RegExp :=
  Pat.icase (seq [Bol; lit name; WordBoundary]).

(** The alternatives [^\/name] of the pattern of line 711, which has
    the i flag; [text.match] of the alternation finds a match when one
    of the alternatives does. *)
Definition prefixRe (name : string) : RegExp :=
  Pat.icase (seq [Bol; lit name]).

Definition reservedPrefixes : list string :=
  ["/cari"; "/ps"; "/allps"; "/clean"; "/clear"; "/help"; "/start";
   "/aktivasi"; "/exportcari"; "/weekly"; "/monthly"; "/topteknisi"].

(** [/^\/[A-Za-z0-9_]+$/.test(text)]: the whole text is a slash
    followed by one or more letters, digits and underscores. *)
Definition isSlashWord (text : string) : bool :=
  match text with
  | String "/" w => truthy w && allb isWordChar w
  | _ => false
  end.

Definition route (chatType text : string) : Branch :=
  if (String.eqb chatType "group" || String.eqb chatType "supergroup")
     && negb (test Pat.aktivasiCommand text)
  then Ignored
  else if test (commandRe "/exportcari") text then ExportCari
  else if test (commandRe "/ps") text then Ps
  else if test (commandRe "/weekly") text then Weekly
  else if test (commandRe "/monthly") text then Monthly
  else if test (commandRe "/topteknisi") text then TopTeknisi
  else if test (commandRe "/allps") text then AllPs
  else if test (commandRe "/cari") text then Cari
  else if isSlashWord text
          && negb (existsb (fun p => test (prefixRe p) text) reservedPrefixes)
  then UserStats
  else if test (commandRe "/clear") text then Clear
  else if test Pat.aktivasiCommand text then Aktivasi
  else if test (commandRe "/help") text || test (commandRe "/start") text
  then Help
  else if startsWith "/" text then UnknownCommand
  else Silent.

(* ================================================================== *)
(** * Part X-e. The older minimal bot: its reports *)
(* ================================================================== *)

Module LegacyRead.

(** [(data[i][6] || '').toUpperCase() === 'SUKSES'] *)
Definition isSukses (row : Row) : bool :=
  String.eqb (toUpperCase (or_default (cell row 6) "")) "SUKSES".

(** What [/allps] prints: [data.length - 1] and the two counters of its
    loop. *)
Record AllPs : Type := mkAllPs {
  total : Z;
  sukses : nat;
  gagal : nat
}.

Definition countLoop (rows : list Row) : nat * nat :=
  fold_left
    (fun '(sukses, gagal) row =>
       if isSukses row then (sukses + 1, gagal) else (sukses, gagal + 1))
    rows (0, 0).

Definition allps (data : Sheet) : AllPs :=
  let '(sukses, gagal) := countLoop (skipn 1 data) in
  mkAllPs (Z.of_nat (List.length data) - 1) sukses gagal.

(** [text.split(' ')[1]] *)
Definition argOf (text : string) : option string := nth_error (split " " text) 1.

(** [/cari <SN>]: [None] is the reply that gives the format, the list
    is [found]. *)
Definition cari (data : Sheet) (text : string) : option (list Row) :=
  match argOf text with
  | Some sn =>
      if truthy sn then
        Some (filter
                (fun row => String.eqb (toUpperCase (or_default (cell row 2) ""))
                              (toUpperCase sn))
                (skipn 1 data))
      else None
  | None => None
  end.

(** [/nik <NIK>]: [None] is the reply that gives the format, the number
    is [count]. *)
Definition nik (data : Sheet) (text : string) : option nat :=
  match argOf text with
  | Some nik =>
      if truthy nik then
        Some (List.length
                (filter
                   (fun row => String.eqb (toUpperCase (or_default (cell row 3) ""))
                                 (toUpperCase nik))
                   (skipn 1 data)))
      else None
  | None => None
  end.

End LegacyRead.

(* ================================================================== *)
(** * Part X-f. The write path between its reads and its write *)
(* ================================================================== *)

(** The [/aktivasi] branch of [src/index.js] up to its last [await]:
    the reply and, for a message that is saved, the [row] that is
    handed to [appendSheetData].  [seen] is the sheet that
    [getSheetData] returned for the duplicate check; nothing is written
    before [row] is built. *)
Definition aktivasiRequest (users seen : Sheet) (username text tanggal : string)
    : Reply * option Row :=
  if negb (test Pat.aktivasiCommand text) then (NotACommand, None) else
  match getUserData users username with
  | None => (NotRegistered, None)
  | Some user =>
      let inputText := trim (remove_match Pat.aktivasiPrefix text) in
      if negb (truthy inputText) then (NoPayload, None) else
      let parsed := parseAktivasi username inputText user in
      let missing := if truthy (ao parsed) then [] else ["AO"] in
      if 0 <? List.length missing then (Incomplete missing, None) else
      if isDuplicate (ao parsed) seen then (Duplicate, None) else
      (Saved, Some (rowOf tanggal parsed))
  end.

Section Service.

(** The append request is sent with [valueInputOption: 'USER_ENTERED']:
    the storage service reads the cells as if they had been typed, and
    a later [getSheetData] returns the row as the service keeps it.
    [entered row] is that row. *)
Variable entered : Row -> Row.

Definition appendEntered (sheet : Sheet) (values : Row) : Sheet :=
  sheet ++ [entered values].

(** The handler awaits [getSheetData] before the duplicate check and
    [appendSheetData] after it, and holds no lock in between: the sheet
    [current] that receives the row need not be the sheet [seen] that
    was checked.  The result is the reply and the REKAPAN QUALITY sheet
    after the handler has returned. *)
Definition handleAktivasiAt (users seen current : Sheet)
    (username text tanggal : string) : Reply * Sheet :=
  match aktivasiRequest users seen username text tanggal with
  | (reply, Some row) => (reply, appendEntered current row)
  | (reply, None) => (reply, current)
  end.

End Service.

(* ================================================================== *)
(** * Part XI. Vocabulary of the statements *)
(* ================================================================== *)

(** ** Text up to the case of letters *)

(** [starts_ci p s]: [s] begins with [p], letters compared without
    regard to case.  [occurs_ci p s]: [p] stands somewhere in [s] in
    that sense.  [eq_ci a b]: [a] and [b] are equal in that sense. *)
Inductive starts_ci : string -> string -> Prop :=
| starts_ci_nil : forall s, starts_ci "" s
| starts_ci_cons : forall a b p s,
    toUpperChar a = toUpperChar b -> starts_ci p s ->
    starts_ci (String a p) (String b s).

Inductive occurs_ci (p : string) : string -> Prop :=
| occurs_ci_here : forall s, starts_ci p s -> occurs_ci p s
| occurs_ci_later : forall c s, occurs_ci p s -> occurs_ci p (String c s).

Inductive eq_ci : string -> string -> Prop :=
| eq_ci_nil : eq_ci "" ""
| eq_ci_cons : forall a b s t,
    toUpperChar a = toUpperChar b -> eq_ci s t ->
    eq_ci (String a s) (String b t).

(** The three groups of markers, as properties of the text. *)
Definition tselMarked (text : string) : Prop :=
  occurs_ci "CHANNEL : DIGIPOS" text \/ occurs_ci "DATE CREATED" text
  \/ occurs_ci "WORKORDER : WO" text.
Definition bgesMarked (text : string) : Prop :=
  occurs_ci "INDIBIZ" text \/ occurs_ci "HSI" text.
Definition wmsMarked (text : string) : Prop :=
  occurs_ci "WMS" text \/ occurs_ci "MWS" text.

(** ** Matches of a pattern, declaratively *)

Module ReSpec.

(** [Matches ic r st st1]: the pattern [r] can take the matcher from
    state [st] to state [st1]. *)
Inductive Matches (ic : bool) : regex -> MState -> MState -> Prop :=
| M_Empty : forall st, Matches ic Empty st st
| M_Chr : forall c a p s cs,
    chr_eqb ic c a = true ->
    Matches ic (Chr c) (mkMState p (String a s) cs) (mkMState (Some a) s cs)
| M_Any : forall a p s cs,
    isLineTerminator a = false ->
    Matches ic AnyChar (mkMState p (String a s) cs) (mkMState (Some a) s cs)
| M_Class : forall items a p s cs,
    class_has ic items a = true ->
    Matches ic (Class items) (mkMState p (String a s) cs)
      (mkMState (Some a) s cs)
| M_Seq : forall r1 r2 st st1 st2,
    Matches ic r1 st st1 -> Matches ic r2 st1 st2 ->
    Matches ic (Seq r1 r2) st st2
| M_RepStop : forall g lo hi r st,
    lo = 0 \/ hi = Some 0 ->
    Matches ic (Rep g lo hi r) st st
| M_RepStep : forall g lo hi r st st1 st2,
    hi <> Some 0 ->
    Matches ic r st st1 ->
    Matches ic (Rep g (pred lo) (dec_hi hi) r) st1 st2 ->
    Matches ic (Rep g lo hi r) st st2
| M_Group : forall n r st st1,
    Matches ic r st st1 ->
    Matches ic (Group n r) st (set_cap n (consumed st st1) st1)
| M_WordBoundary : forall st,
    xorb (is_word (prev st)) (is_word (next_char (rest st))) = true ->
    Matches ic WordBoundary st st
| M_Bol : forall st, prev st = None -> Matches ic Bol st st.

(** The character test of a one-character pattern. *)
Definition atom_test (ic : bool) (r : regex) : option (ascii -> bool) :=
  match r with
  | Chr c => Some (chr_eqb ic c)
  | AnyChar => Some (fun a => negb (isLineTerminator a))
  | Class items => Some (class_has ic items)
  | _ => None
  end.

(** Patterns whose quantifiers apply to one-character patterns (all
    patterns of the bot are such), and patterns without [\b] and [^]. *)
Definition bounds_ok (lo : nat) (hi : option nat) : bool :=
  match hi with
  | Some h => lo <=? h
  | None => true
  end.

Fixpoint simple (r : regex) : bool :=
  match r with
  | Seq a b => simple a && simple b
  | Group _ a => simple a
  | Rep _ lo hi a =>
      bounds_ok lo hi &&
      match a with
      | Chr _ | AnyChar | Class _ => true
      | _ => false
      end
  | _ => true
  end.

Fixpoint anchor_free (r : regex) : bool :=
  match r with
  | Seq a b => anchor_free a && anchor_free b
  | Group _ a => anchor_free a
  | Rep _ _ _ a => anchor_free a
  | WordBoundary | Bol => false
  | _ => true
  end.

(** [has_group n r]: a group numbered [n] stands in [r].
    [find_group n r]: the body of the group numbered [n] that sets the
    capture last, when that group is under no quantifier. *)
Fixpoint has_group (n : nat) (r : regex) : bool :=
  match r with
  | Seq a b => has_group n a || has_group n b
  | Group m a => (m =? n) || has_group n a
  | Rep _ _ _ a => has_group n a
  | _ => false
  end.

Fixpoint find_group (n : nat) (r : regex) : option regex :=
  match r with
  | Seq a b => if has_group n b then find_group n b else find_group n a
  | Group m a => if m =? n then Some a else find_group n a
  | _ => None
  end.

(** The character before the position reached after reading [w]. *)
Fixpoint prev_after (p : option ascii) (w : string) : option ascii :=
  match w with
  | EmptyString => p
  | String c w' => prev_after (Some c) w'
  end.

End ReSpec.

(** ** Windows, by their local calendar fields *)

Definition windowFields (host : JsDate.Host) (b : Bounds)
    : option ((Z * Z * Z * Z * Z * Z * Z) * (Z * Z * Z * Z * Z * Z * Z)) :=
  match b with
  | Window (Some s) (Some e) =>
      Some (JsDate.localFields host s, JsDate.localFields host e)
  | _ => None
  end.

(** ** Stored dates that do not parse *)

(** [unparseable host dateStr]: the stored date has fewer than four
    tokens, or its month token has no entry in the month table, or the
    date string built from it is an invalid date. *)
Definition unparseable (host : JsDate.Host) (dateStr : string) : Prop :=
  let parts := split " " (toLowerCase dateStr) in
  List.length parts < 4
  \/ months (nth 2 parts "") = None
  \/ parseIndonesianDate host dateStr = Some JsDate.InvalidDate.

(** A token: a word without a blank. *)
Definition noSpace (w : string) : Prop :=
  allb (fun c => negb (Ascii.eqb c " ")) w = true.

Definition reportPeriod (period : string) : Prop :=
  period = "daily" \/ period = "weekly" \/ period = "monthly".

(** ** Order of elements in a list *)

(** [precedes x y l]: an occurrence of [x] stands before an occurrence
    of [y] in [l]. *)
Definition precedes {A : Type} (x y : A) (l : list A) : Prop :=
  exists l1 l2 l3, l = l1 ++ x :: l2 ++ y :: l3.

(** [first_before x y l]: [x] and [y] are different, both occur in [l],
    and [x] is met first. *)
Definition first_before {A : Type} (x y : A) (l : list A) : Prop :=
  x <> y /\ exists l1 l2, l = l1 ++ x :: l2 /\ ~ In y l1 /\ In y l2.

(** The keys of a tally in their order, the count of a key, and the
    tally of a list of keys started from [o]. *)
Definition keysOf (o : JsObject) : list string := List.map fst o.
Definition countOf (o : JsObject) (k : string) : nat :=
  match obj_get o k with Some n => n | None => 0 end.

Definition tallyKeys (keys : list string) (o : JsObject) : JsObject :=
  fold_left increment keys o.

(** The counts of a ranking never increase from one place to the next. *)
Definition descending (r : list (string * nat)) : Prop :=
  StronglySorted (fun a b => snd b <= snd a) r.

(** The number of rows whose grouping key in column [i] is [key]. *)
Definition occurrences (i : nat) (rows : list Row) (key : string) : nat :=
  count_occ string_dec (List.map (groupKey i) rows) key.

(** ** Fixtures *)

Module Fixture.

Definition nl : string := String "010" "".

Definition header : Row :=
  ["TANGGAL"; "AO"; "WORKORDER"; "SERVICE NO"; "CUSTOMER NAME"; "OWNER";
   "WORKZONE"; "SN ONT"; "NIK ONT"; "STB ID"; "NIK STB"; "TEKNISI"].

Definition users : Sheet :=
  [["NO"; "USERNAME"; "ROLE"; "STATUS"];
   ["1"; "@budi_teknisi"; "USER"; "AKTIF"];
   ["2"; "@sari_admin"; "ADMIN"; "AKTIF"]].

Definition budi : Row := ["1"; "@budi_teknisi"; "USER"; "AKTIF"].

(** A host in the configured zone (UTC+7) and a host on UTC; neither
    accepts a date string outside the date-time string format. *)
Definition wib : JsDate.Host :=
  JsDate.mkHost 25200000 (fun _ => JsDate.InvalidDate).
Definition utc : JsDate.Host :=
  JsDate.mkHost 0 (fun _ => JsDate.InvalidDate).

(** 2025-09-15 03:00:00 UTC, 10 o'clock in the morning in Jakarta. *)
Definition monday_morning : Z := 1757905200000.

(** A BGES export with two AO lines and one customer line. *)
Definition bgesText : string :=
  ("AO| MEDAN SC123456 INDIBIZ" ++ nl ++
   "01/09/2025 10:30 12345 JOHN DOE  HSI" ++ nl ++
   "AO| BINJAI SC654321 12345678901")%string.

(** The TSEL submission of the end-to-end scenario. *)
Definition tselText : string :=
  ("CHANNEL : DIGIPOS" ++ nl ++
   "AO : SC000111" ++ nl ++
   "SERVICE NO : 12345678901" ++ nl ++
   "SN ONT : ZTEGDA00001" ++ nl ++
   "NIK ONT : 111222333")%string.

(** A TSEL submission with a WORKORDER field. *)
Definition tselWoText : string :=
  ("WORKORDER : WO998877" ++ nl ++
   "AO : SC000222" ++ nl ++
   "NIK ONT : 111222333")%string.

(** A labelled submission whose AO is a lower-case variant. *)
Definition manualText : string :=
  ("AO : sc123456" ++ nl ++
   "SERVICE NO : 12345678901" ++ nl ++
   "SN ONT : ZTEG12345678" ++ nl ++
   "NIK ONT : 987654321")%string.

(** A submission to the older bot that names a technician itself. *)
Definition legacyText : string :=
  ("SN ONT : ZTEG12345678" ++ nl ++
   "NIK ONT : 987654321" ++ nl ++
   "TEKNISI : orang_lain")%string.

Definition storedRow (tanggal ao teknisi : string) : Row :=
  [tanggal; ao; ao; "12345678901"; "JOHN DOE"; "BGES"; "MEDAN";
   "ZTEG12345678"; "987654321"; ""; ""; teknisi].

(** Rows dated 15 September 2025: one as the bot writes it, one whose
    weekday is no weekday, one whose month is no month. *)
Definition todayRow : Row :=
  storedRow "Senin, 15 September 2025" "SC777001" "budi_teknisi".
Definition oddWeekdayRow : Row :=
  storedRow "Xyzday, 15 September 2025" "SC777002" "budi_teknisi".
Definition badMonthRow : Row :=
  storedRow "Senin, 15 Septober 2025" "SC777003" "budi_teknisi".

(** Rows of one technician each, and the rows of the ranking example:
    B and C five times each, B met first, and A three times. *)
Definition rowOfTeknisi (teknisi : string) : Row :=
  storedRow "Senin, 15 September 2025" "SC777000" teknisi.
Definition rankingRows : list Row :=
  List.map rowOfTeknisi
    ["b"; "c"; "A"; "B"; "C"; "a"; "b"; "c"; "a"; "B"; "C"; "b"; "c"].

(** Two rows from two work zones, the second one named by a number. *)
Definition rowOfWorkzone (workzone : string) : Row :=
  ["Senin, 15 September 2025"; "SC777000"; "SC777000"; "12345678901";
   "JOHN DOE"; "TSEL"; workzone; "ZTEGDA00001"; "111222333"; ""; "";
   "budi_teknisi"].
Definition numberedZoneRows : list Row :=
  [rowOfWorkzone "medan"; rowOfWorkzone "7"].

(** A store of three rows of which the second repeats the AO of the
    first. *)
Definition rowA : Row := storedRow "Senin, 1 September 2025" "SC100001" "budi_teknisi".
Definition rowA' : Row := storedRow "Selasa, 2 September 2025" "sc100001 " "budi_teknisi".
Definition rowB : Row := storedRow "Rabu, 3 September 2025" "SC100002" "budi_teknisi".
Definition storeWithRepeat : Sheet := [header; rowA; rowA'; rowB].

(** A store that holds SC123456 with a trailing blank. *)
Definition storeWithSc : Sheet :=
  [header; storedRow "Senin, 1 September 2025" "SC123456 " "budi_teknisi"].

End Fixture.

(** ** Keys of the stored rows *)

(** The AO of a stored row as the duplicate checks compare it. *)
Definition aoKey (row : Row) : string :=
  normalizeAo (or_default (cell row 1) "").

(** The payload of an [/aktivasi] message: [inputText]. *)
Definition payloadOf (text : string) : string :=
  trim (remove_match Pat.aktivasiPrefix text).

(** The sum of the counts of a ranking. *)
Definition sumCounts (r : list (string * nat)) : nat :=
  list_sum (List.map snd r).

(** The pieces of a list of strings, one after the other. *)
Definition concatAll (l : list string) : string :=
  fold_right String.append "" l.

(** ** Rankings cut to their first places *)

(** [topOf n i rows top]: [top] lists the [n] most frequent keys of
    column [i] of [rows] (all of them when there are fewer), each with
    the number of its rows, in descending order of that number; a key
    that is left out has no more rows than any key listed. *)
Definition topOf (n i : nat) (rows : list Row) (top : list (string * nat)) : Prop :=
  List.length top = Nat.min n (List.length (tally i rows))
  /\ descending top
  /\ NoDup (keysOf top)
  /\ (forall k c, In (k, c) top -> c = occurrences i rows k /\ 0 < c)
  /\ (forall k k' c,
        In (k, c) top -> ~ In k' (keysOf top) -> occurrences i rows k' <= c).

(** The rows that [/topteknisi] counts. *)
Definition hasTeknisi (row : Row) : bool :=
  negb (String.eqb (groupKey teknisiColumn row) "-").

(** ** The calendar and the windows *)

(** The year of the era of a day of the era, as [civil_from_days]
    computes it. *)
Definition yoeOf (doe : Z) : Z :=
  ((doe - doe / 1460 + doe / 36524 - doe / 146096) / 365)%Z.

(** [dayAround host ref s e]: [s] is a local midnight, [e] is the last
    millisecond of the same local day, and [ref] lies between them. *)
Definition dayAround (host : JsDate.Host) (ref s e : Z) : Prop :=
  (JsDate.TimeWithinDay (JsDate.LocalTime host s) = 0
   /\ e = s + JsDate.msPerDay - 1
   /\ s <= ref <= e)%Z.

(** [weekAround host ref s e]: [s] is the midnight that begins a local
    Monday, [e] is the last millisecond of the Sunday after it, and
    [ref] lies between them. *)
Definition weekAround (host : JsDate.Host) (ref s e : Z) : Prop :=
  (JsDate.getDay host s = 1
   /\ JsDate.TimeWithinDay (JsDate.LocalTime host s) = 0
   /\ e = s + 7 * JsDate.msPerDay - 1
   /\ s <= ref <= e)%Z.

(** On a host whose local time is behind UTC, a window selects the
    stored days one day later. *)
Definition westShift (host : JsDate.Host) : Z :=
  if (JsDate.LocalTZA host <? 0)%Z then 1%Z else 0%Z.

(** ** Dates in the long Indonesian format *)

(** The decimal digit of a number below ten, the day of the month
    without a leading zero and the year in four digits. *)
Definition digitChar (n : nat) : ascii := ascii_of_nat (48 + n).

Definition dayText (d : nat) : string :=
  if d <? 10 then String (digitChar d) ""
  else String (digitChar (d / 10)) (String (digitChar (d mod 10)) "").

Definition yearText (y : nat) : string :=
  String (digitChar (y / 1000))
    (String (digitChar ((y / 100) mod 10))
       (String (digitChar ((y / 10) mod 10))
          (String (digitChar (y mod 10)) ""))).

Definition monthNames : list string :=
  ["Januari"; "Februari"; "Maret"; "April"; "Mei"; "Juni"; "Juli";
   "Agustus"; "September"; "Oktober"; "November"; "Desember"].

(** [longDate weekday month y d]: the date as the bot stores it, such
    as [Senin, 15 September 2025]; [weekday] carries its comma. *)
Definition longDate (weekday month : string) (y d : nat) : string :=
  (weekday ++ " " ++ dayText d ++ " " ++ month ++ " " ++ yearText y)%string.

(** ** Commands *)

(** [compatible a b]: some text begins with both [a] and [b], letters
    compared without regard to case. *)
Fixpoint compatible (a b : string) : bool :=
  match a, b with
  | String x a', String y b' =>
      Ascii.eqb (toUpperChar x) (toUpperChar y) && compatible a' b'
  | _, _ => true
  end.

(** [groupChat chatType]: the chat is a group or a supergroup. *)
Definition groupChat (chatType : string) : bool :=
  String.eqb chatType "group" || String.eqb chatType "supergroup".

(** ** Cells of the export *)

(** [special c]: the cell holds a comma, a double quote or a line
    feed. *)
Definition special (cell : string) : bool :=
  includes cell "," || includes cell dquote || includes cell newline.

(** ** Further fixtures *)

Module Sample.

(** A text of 450 lines of ten characters each, 4949 characters in all,
    and a single line of 4001 characters. *)
Definition longText : string := join newline (List.repeat "0123456789" 450).
Definition longLine : string := repeat_char "x" 4001.

(** What the older bot reads from [Fixture.legacyText]. *)
Definition legacyParsed : Parsed :=
  mkParsed "" "" "" "" "" "" "ZTEG12345678" "987654321" "" "" "orang_lain".

(** A service that takes a cell of digits for a number and returns it
    without its leading zeros, and a labelled message whose AO is such
    a cell. *)
Fixpoint dropZeros (s : string) : string :=
  match s with
  | String "0" ((String _ _) as s') => dropZeros s'
  | _ => s
  end.

Definition asNumber (c : string) : string :=
  if truthy c && allb isDigit c then dropZeros c else c.

Definition numberService (row : Row) : Row := List.map asNumber row.

Definition numberText : string :=
  ("AO : 000123" ++ Fixture.nl ++ "SN ONT : ZTEG12345678")%string.

End Sample.

(* ================================================================== *)
(** * Part XII. Facts about strings *)
(* ================================================================== *)

Ltac each_char c :=
  destruct c as [[] [] [] [] [] [] [] []]; try reflexivity; try discriminate.

Lemma toUpperChar_idem : forall c, toUpperChar (toUpperChar c) = toUpperChar c.
Proof. intro c. each_char c. Qed.

Lemma isSpace_toUpperChar : forall c, isSpace (toUpperChar c) = isSpace c.
Proof. intro c. each_char c. Qed.

Lemma ascii_eqb_true : forall a b, Ascii.eqb a b = true <-> a = b.
Proof. intros a b. apply Ascii.eqb_eq. Qed.

Lemma startsWith_upper : forall p s,
  startsWith (toUpperCase p) (toUpperCase s) = true <-> starts_ci p s.
Proof.
  induction p as [|a p IH]; intros s.
  - split; intros _; [constructor | reflexivity].
  - destruct s as [|b s]; simpl.
    + split; [discriminate | intro H; inversion H].
    + rewrite andb_true_iff, ascii_eqb_true, (IH s). split.
      * intros [Hc Hs]. now constructor.
      * intro H. inversion H; subst. now split.
Qed.

Lemma includes_upper : forall p s,
  includes (toUpperCase s) (toUpperCase p) = true <-> occurs_ci p s.
Proof.
  intros p s. induction s as [|c s IH].
  - simpl. rewrite orb_false_r.
    change EmptyString with (toUpperCase "") at 1.
    rewrite startsWith_upper. split.
    + intro H. now constructor.
    + intro H. inversion H; subst. assumption.
  - change (toUpperCase (String c s))
      with (String (toUpperChar c) (toUpperCase s)).
    cbn [includes]. rewrite orb_true_iff, IH.
    change (String (toUpperChar c) (toUpperCase s))
      with (toUpperCase (String c s)).
    rewrite startsWith_upper. split.
    + intros [H | H]; [now apply occurs_ci_here | now apply occurs_ci_later].
    + intro H. inversion H; subst; [now left | now right].
Qed.

(** A marker written in capitals is found by [includes] on the
    upper-cased text exactly when it occurs in the text up to case. *)
Lemma includes_marker : forall m s,
  toUpperCase m = m ->
  includes (toUpperCase s) m = true <-> occurs_ci m s.
Proof.
  intros m s Hm. rewrite <- Hm at 1. apply includes_upper.
Qed.

(* ================================================================== *)
(** * Part XIII. The format classifier *)
(* ================================================================== *)

Lemma tselMarked_iff : forall text,
  includes (toUpperCase text) "CHANNEL : DIGIPOS"
  || includes (toUpperCase text) "DATE CREATED"
  || includes (toUpperCase text) "WORKORDER : WO" = true <-> tselMarked text.
Proof.
  intro text. unfold tselMarked.
  rewrite !orb_true_iff, !includes_marker by reflexivity. tauto.
Qed.

Lemma bgesMarked_iff : forall text,
  includes (toUpperCase text) "INDIBIZ" || includes (toUpperCase text) "HSI"
  = true <-> bgesMarked text.
Proof.
  intro text. unfold bgesMarked.
  rewrite !orb_true_iff, !includes_marker by reflexivity. tauto.
Qed.

Lemma wmsMarked_iff : forall text,
  includes (toUpperCase text) "WMS" || includes (toUpperCase text) "MWS"
  = true <-> wmsMarked text.
Proof.
  intro text. unfold wmsMarked.
  rewrite !orb_true_iff, !includes_marker by reflexivity. tauto.
Qed.

(** C1. For every text [detectOwner] returns exactly one of the four
    tags, chosen by the first group of markers that the text contains
    (every marker is looked for without regard to case): TSEL for
    "CHANNEL : DIGIPOS", "DATE CREATED" or "WORKORDER : WO"; otherwise
    BGES for "INDIBIZ" or "HSI"; otherwise WMS for "WMS" or "MWS";
    otherwise the empty tag, on which [parseAktivasi] takes the
    label:value fallback. *)
Theorem detectOwner_first_match_wins : forall text,
  (tselMarked text -> detectOwner text = "TSEL")
  /\ (~ tselMarked text -> bgesMarked text -> detectOwner text = "BGES")
  /\ (~ tselMarked text -> ~ bgesMarked text -> wmsMarked text ->
      detectOwner text = "WMS")
  /\ (~ tselMarked text -> ~ bgesMarked text -> ~ wmsMarked text ->
      detectOwner text = ""
      /\ forall username userRow,
           parseAktivasi username text userRow
           = parseManual text (teknisiOf userRow username))
  /\ (detectOwner text = "TSEL" \/ detectOwner text = "BGES"
      \/ detectOwner text = "WMS" \/ detectOwner text = "").
Proof.
  intro text.
  pose proof (tselMarked_iff text) as Ht.
  pose proof (bgesMarked_iff text) as Hb.
  pose proof (wmsMarked_iff text) as Hw.
  assert (Hmanual : detectOwner text = "" ->
            forall username userRow,
              parseAktivasi username text userRow
              = parseManual text (teknisiOf userRow username)).
  { intros H username userRow. unfold parseAktivasi. rewrite H. reflexivity. }
  unfold detectOwner in *.
  destruct (includes (toUpperCase text) "CHANNEL : DIGIPOS"
            || includes (toUpperCase text) "DATE CREATED"
            || includes (toUpperCase text) "WORKORDER : WO").
  { assert (tselMarked text) by now apply Ht. intuition congruence. }
  assert (~ tselMarked text) by (intro H; apply Ht in H; discriminate).
  destruct (includes (toUpperCase text) "INDIBIZ"
            || includes (toUpperCase text) "HSI").
  { assert (bgesMarked text) by now apply Hb. intuition congruence. }
  assert (~ bgesMarked text) by (intro H1; apply Hb in H1; discriminate).
  destruct (includes (toUpperCase text) "WMS"
            || includes (toUpperCase text) "MWS").
  { assert (wmsMarked text) by now apply Hw. intuition congruence. }
  assert (~ wmsMarked text) by (intro H2; apply Hw in H2; discriminate).
  intuition congruence.
Qed.

(** The rule of C1 at the TSEL submission of the end-to-end scenario,
    which holds "CHANNEL : DIGIPOS", and at a labelled submission that
    holds no marker. *)
Lemma detectOwner_first_match_wins_witness :
  tselMarked Fixture.tselText
  /\ detectOwner Fixture.tselText = "TSEL"
  /\ ~ tselMarked Fixture.manualText
  /\ ~ bgesMarked Fixture.manualText
  /\ ~ wmsMarked Fixture.manualText
  /\ detectOwner Fixture.manualText = "".
Proof.
  assert (Ht : tselMarked Fixture.tselText)
    by (apply tselMarked_iff; vm_compute; reflexivity).
  assert (Hn1 : ~ tselMarked Fixture.manualText)
    by (intro H; apply tselMarked_iff in H; vm_compute in H; discriminate).
  assert (Hn2 : ~ bgesMarked Fixture.manualText)
    by (intro H; apply bgesMarked_iff in H; vm_compute in H; discriminate).
  assert (Hn3 : ~ wmsMarked Fixture.manualText)
    by (intro H; apply wmsMarked_iff in H; vm_compute in H; discriminate).
  split; [exact Ht|].
  split; [exact (proj1 (detectOwner_first_match_wins Fixture.tselText) Ht)|].
  split; [exact Hn1|]. split; [exact Hn2|]. split; [exact Hn3|].
  exact (proj1 (proj1 (proj2 (proj2 (proj2
           (detectOwner_first_match_wins Fixture.manualText)))) Hn1 Hn2 Hn3)).
Defined.

(* ================================================================== *)
(** * Part XIV. Facts about the matcher *)
(* ================================================================== *)

Module ReFacts.

Import ReSpec.

Lemma length_app : forall a b : string,
  String.length (a ++ b) = String.length a + String.length b.
Proof. induction a as [|c a IH]; intro b; simpl; [reflexivity | now rewrite IH]. Qed.

Lemma app_empty_r : forall a : string, (a ++ "")%string = a.
Proof. induction a as [|c a IH]; simpl; [reflexivity | now rewrite IH]. Qed.

Lemma app_assoc : forall a b c : string,
  ((a ++ b) ++ c)%string = (a ++ (b ++ c))%string.
Proof. induction a as [|x a IH]; intros; simpl; [reflexivity | now rewrite IH]. Qed.

Lemma substring_app : forall w s : string,
  substring 0 (String.length w) (w ++ s) = w.
Proof.
  induction w as [|c w IH]; intro s; simpl.
  - destruct s; reflexivity.
  - now rewrite IH.
Qed.

(** The text consumed between two states that a word separates. *)
Lemma consumed_word : forall st st1 w,
  rest st = (w ++ rest st1)%string -> consumed st st1 = w.
Proof.
  intros st st1 w H. unfold consumed. rewrite H, length_app.
  replace (String.length w + String.length (rest st1) - String.length (rest st1))
    with (String.length w) by lia.
  apply substring_app.
Qed.

(** ** One-character patterns *)

Lemma atom_step : forall ic r q,
  atom_test ic r = Some q -> rmatch ic r = step_char q.
Proof.
  intros ic r q H. destruct r; simpl in H; try discriminate;
    injection H as <-; reflexivity.
Qed.

Lemma Matches_atom_inv : forall ic r q st st1,
  atom_test ic r = Some q -> Matches ic r st st1 ->
  exists a s, rest st = String a s /\ q a = true
              /\ st1 = mkMState (Some a) s (caps st).
Proof.
  intros ic r q st st1 Hq HM.
  destruct r; simpl in Hq; try discriminate; injection Hq as <-;
    inversion HM; subst; simpl; exists a, s; repeat split; try assumption.
  match goal with H : isLineTerminator _ = false |- _ => now rewrite H end.
Qed.

Lemma Matches_atom_intro : forall ic r q a p s cs,
  atom_test ic r = Some q -> q a = true ->
  Matches ic r (mkMState p (String a s) cs) (mkMState (Some a) s cs).
Proof.
  intros ic r q a p s cs Hq Ha.
  destruct r; simpl in Hq; try discriminate; injection Hq as <-.
  - now constructor.
  - constructor. now destruct (isLineTerminator a).
  - now constructor.
Qed.

(** ** Soundness: a result of the matcher is a match *)

Lemma repeat_match_sound : forall ic g r,
  (forall st k res, rmatch ic r st k = Some res ->
     exists st1, Matches ic r st st1 /\ k st1 = Some res) ->
  forall fuel lo hi st k res,
    repeat_match (rmatch ic r) g lo hi fuel st k = Some res ->
    exists st1, Matches ic (Rep g lo hi r) st st1 /\ k st1 = Some res.
Proof.
  intros ic g r Hr. induction fuel as [|fuel IH]; intros lo hi st k res H.
  - discriminate.
  - cbn [repeat_match] in H.
    assert (Hstep : forall z,
      hi <> Some 0 ->
      rmatch ic r st
        (fun st1 =>
           if (lo =? 0) && (String.length (rest st1) =? String.length (rest st))
           then None
           else repeat_match (rmatch ic r) g (pred lo) (dec_hi hi) fuel st1 k)
      = Some z ->
      exists st1, Matches ic (Rep g lo hi r) st st1 /\ k st1 = Some z).
    { intros z Hhi E. apply Hr in E. destruct E as [st1 [HM Hd]].
      destruct ((lo =? 0) && (String.length (rest st1) =? String.length (rest st)));
        [discriminate|].
      apply IH in Hd. destruct Hd as [st2 [HM2 Hk]].
      exists st2. split; [|assumption]. eapply M_RepStep; eassumption. }
    destruct hi as [[|h]|].
    + exists st. split; [|assumption]. apply M_RepStop. now right.
    + destruct lo as [|lo].
      * destruct g.
        -- match type of H with
           | match ?e with _ => _ end = _ => destruct e as [z|] eqn:E
           end.
           ++ injection H as <-. apply Hstep; [discriminate | reflexivity].
           ++ exists st. split; [|assumption]. apply M_RepStop. now left.
        -- destruct (k st) as [z|] eqn:E.
           ++ injection H as <-. exists st. split; [|assumption].
              apply M_RepStop. now left.
           ++ apply Hstep; [discriminate | exact H].
      * apply Hstep; [discriminate | exact H].
    + destruct lo as [|lo].
      * destruct g.
        -- match type of H with
           | match ?e with _ => _ end = _ => destruct e as [z|] eqn:E
           end.
           ++ injection H as <-. apply Hstep; [discriminate | reflexivity].
           ++ exists st. split; [|assumption]. apply M_RepStop. now left.
        -- destruct (k st) as [z|] eqn:E.
           ++ injection H as <-. exists st. split; [|assumption].
              apply M_RepStop. now left.
           ++ apply Hstep; [discriminate | exact H].
      * apply Hstep; [discriminate | exact H].
Qed.

Lemma step_char_sound : forall q st k res,
  step_char q st k = Some res ->
  exists a s, rest st = String a s /\ q a = true
              /\ k (mkMState (Some a) s (caps st)) = Some res.
Proof.
  intros q st k res H. unfold step_char in H.
  destruct (rest st) as [|a s]; [discriminate|].
  destruct (q a) eqn:E; [|discriminate].
  exists a, s. auto.
Qed.

Theorem rmatch_sound : forall ic r st k res,
  rmatch ic r st k = Some res ->
  exists st1, Matches ic r st st1 /\ k st1 = Some res.
Proof.
  intros ic r. induction r; intros st k res H; cbn [rmatch] in H.
  - exists st. split; [constructor | assumption].
  - apply step_char_sound in H. destruct H as [a [s [Hr [Hq Hk]]]].
    destruct st as [p s0 cs]; simpl in *; subst s0.
    eexists. split; [|exact Hk]. now constructor.
  - apply step_char_sound in H. destruct H as [a [s [Hr [Hq Hk]]]].
    destruct st as [p s0 cs]; simpl in *; subst s0.
    eexists. split; [|exact Hk]. constructor.
    now destruct (isLineTerminator a).
  - apply step_char_sound in H. destruct H as [a [s [Hr [Hq Hk]]]].
    destruct st as [p s0 cs]; simpl in *; subst s0.
    eexists. split; [|exact Hk]. now constructor.
  - apply IHr1 in H. destruct H as [st1 [H1 H]].
    apply IHr2 in H. destruct H as [st2 [H2 H]].
    exists st2. split; [|assumption]. econstructor; eassumption.
  - eapply repeat_match_sound; eassumption.
  - apply IHr in H. destruct H as [st1 [H1 H]].
    eexists. split; [|exact H]. now constructor.
  - destruct (xorb (is_word (prev st)) (is_word (next_char (rest st)))) eqn:E;
      [|discriminate].
    exists st. split; [now constructor | assumption].
  - destruct (prev st) eqn:E; [discriminate|].
    exists st. split; [now constructor | assumption].
Qed.

(** ** The shape of a match *)

(** A match reads a word of the input: the input at its start is that
    word followed by the input at its end. *)
Lemma Matches_word : forall ic r st st1,
  Matches ic r st st1 ->
  rest st = (consumed st st1 ++ rest st1)%string.
Proof.
  assert (Hsuf : forall ic r st st1, Matches ic r st st1 ->
            exists w, rest st = (w ++ rest st1)%string).
  { intros ic r st st1 H. induction H; simpl.
    - now exists "".
    - now exists (String a "").
    - now exists (String a "").
    - now exists (String a "").
    - destruct IHMatches1 as [w1 E1], IHMatches2 as [w2 E2].
      exists (w1 ++ w2)%string. now rewrite E1, E2, app_assoc.
    - now exists "".
    - destruct IHMatches1 as [w1 E1], IHMatches2 as [w2 E2].
      exists (w1 ++ w2)%string. now rewrite E1, E2, app_assoc.
    - assumption.
    - now exists "".
    - now exists "". }
  intros ic r st st1 H. destruct (Hsuf _ _ _ _ H) as [w Hw].
  now rewrite (consumed_word _ _ _ Hw).
Qed.

Lemma consumed_seq : forall ic r1 r2 st st1 st2,
  Matches ic r1 st st1 -> Matches ic r2 st1 st2 ->
  consumed st st2 = (consumed st st1 ++ consumed st1 st2)%string.
Proof.
  intros ic r1 r2 st st1 st2 H1 H2. apply consumed_word.
  rewrite (Matches_word _ _ _ _ H1) at 1.
  rewrite (Matches_word _ _ _ _ H2) at 1.
  now rewrite app_assoc.
Qed.

Lemma consumed_refl : forall st, consumed st st = "".
Proof. intro st. now apply consumed_word. Qed.

Lemma consumed_set_cap : forall st n v st1,
  consumed st (set_cap n v st1) = consumed st st1.
Proof. reflexivity. Qed.

(** What a quantified one-character pattern reads: a word of accepted
    characters whose length respects the bounds. *)
Lemma Matches_rep_atom_inv : forall ic r q,
  atom_test ic r = Some q ->
  forall g lo hi st st1,
    Matches ic (Rep g lo hi r) st st1 ->
    bounds_ok lo hi = true ->
    exists w,
      rest st = (w ++ rest st1)%string
      /\ allb q w = true
      /\ lo <= String.length w
      /\ (forall h, hi = Some h -> String.length w <= h)
      /\ st1 = mkMState (prev_after (prev st) w) (rest st1) (caps st).
Proof.
  intros ic r q Hq g lo hi st st1 H.
  remember (Rep g lo hi r) as R eqn:ER.
  revert lo hi ER.
  induction H; intros lo0 hi0 ER Hb; try discriminate;
    injection ER as -> -> -> ->.
  - exists "". simpl. repeat split.
    + destruct H as [-> | ->]; [lia|].
      simpl in Hb. apply Nat.leb_le in Hb. lia.
    + intros h _. lia.
    + now destruct st.
  - clear IHMatches1.
    destruct (Matches_atom_inv _ _ _ _ _ Hq H0) as [a [s [Hs [Ha ->]]]].
    assert (Hb' : bounds_ok (pred lo0) (dec_hi hi0) = true).
    { destruct hi0 as [h|]; [|reflexivity]. simpl in *.
      apply Nat.leb_le in Hb. apply Nat.leb_le. lia. }
    destruct (IHMatches2 _ _ eq_refl Hb') as [w [Hw [Hall [Hlo [Hhi Hst]]]]].
    simpl in Hw, Hst.
    exists (String a w). simpl. repeat split.
    + now rewrite Hs, Hw.
    + now rewrite Ha, Hall.
    + lia.
    + intros h ->. destruct h as [|h]; [now elim H|].
      specialize (Hhi h eq_refl). lia.
    + exact Hst.
Qed.

(** Conversely, a word of accepted characters within the bounds is
    read by the quantified pattern. *)
Lemma Matches_rep_atom_intro : forall ic r q g,
  atom_test ic r = Some q ->
  forall w lo hi p s cs,
    allb q w = true ->
    lo <= String.length w ->
    (forall h, hi = Some h -> String.length w <= h) ->
    Matches ic (Rep g lo hi r) (mkMState p (w ++ s) cs)
      (mkMState (prev_after p w) s cs).
Proof.
  intros ic r q g Hq. induction w as [|a w IH]; intros lo hi p s cs Hall Hlo Hhi.
  - simpl. apply M_RepStop. left. simpl in Hlo. lia.
  - simpl in *. apply andb_true_iff in Hall. destruct Hall as [Ha Hall].
    eapply M_RepStep.
    + intros ->. specialize (Hhi 0 eq_refl). lia.
    + eapply Matches_atom_intro; eassumption.
    + apply IH; [assumption | lia |].
      intros h Hh. destruct hi as [h0|]; [|discriminate].
      simpl in Hh. injection Hh as <-. specialize (Hhi h0 eq_refl). lia.
Qed.

(** ** Completeness: the matcher finds a match when one exists *)

Lemma repeat_match_atom_complete : forall q g w fuel lo hi p s cs k,
  allb q w = true ->
  lo <= String.length w ->
  (forall h, hi = Some h -> String.length w <= h) ->
  String.length w < fuel ->
  k (mkMState (prev_after p w) s cs) <> None ->
  repeat_match (step_char q) g lo hi fuel (mkMState p (w ++ s) cs) k <> None.
Proof.
  intros q g. induction w as [|a w IH];
    intros fuel lo hi p s cs k Hall Hlo Hhi Hfuel Hk.
  - simpl in *. destruct fuel as [|fuel]; [lia|].
    assert (lo = 0) by lia. subst lo. cbn [repeat_match].
    destruct hi as [[|h]|]; [assumption| |].
    + destruct g.
      * match goal with |- match ?e with _ => _ end <> _ => destruct e end;
          [discriminate | assumption].
      * destruct (k (mkMState p s cs)); [discriminate | now elim Hk].
    + destruct g.
      * match goal with |- match ?e with _ => _ end <> _ => destruct e end;
          [discriminate | assumption].
      * destruct (k (mkMState p s cs)); [discriminate | now elim Hk].
  - simpl in Hall, Hlo, Hfuel, Hk, Hhi.
    apply andb_true_iff in Hall. destruct Hall as [Ha Hall].
    destruct fuel as [|fuel]; [lia|].
    assert (Hd :
      step_char q (mkMState p (String a (w ++ s)) cs)
        (fun st1 =>
           if (lo =? 0)
              && (String.length (rest st1)
                  =? String.length (rest (mkMState p (String a (w ++ s)) cs)))
           then None
           else repeat_match (step_char q) g (pred lo) (dec_hi hi) fuel st1 k)
      <> None).
    { unfold step_char. simpl. rewrite Ha.
      replace (String.length (w ++ s) =? S (String.length (w ++ s))) with false
        by (symmetry; apply Nat.eqb_neq; lia).
      rewrite andb_false_r.
      apply IH; [assumption | lia | | lia | assumption].
      intros h Hh. destruct hi as [h0|]; [|discriminate].
      simpl in Hh. injection Hh as <-. specialize (Hhi h0 eq_refl). lia. }
    change (String a w ++ s)%string with (String a (w ++ s)).
    cbn [repeat_match].
    destruct hi as [[|h]|].
    + specialize (Hhi 0 eq_refl). lia.
    + destruct lo as [|lo]; [|exact Hd].
      destruct g.
      * match goal with |- match ?e with _ => _ end <> _ =>
          destruct e eqn:E end; [discriminate | now elim Hd].
      * destruct (k (mkMState p (String a (w ++ s)) cs));
          [discriminate | exact Hd].
    + destruct lo as [|lo]; [|exact Hd].
      destruct g.
      * match goal with |- match ?e with _ => _ end <> _ =>
          destruct e eqn:E end; [discriminate | now elim Hd].
      * destruct (k (mkMState p (String a (w ++ s)) cs));
          [discriminate | exact Hd].
Qed.

Theorem rmatch_complete : forall ic r,
  simple r = true ->
  forall st st1 k,
    Matches ic r st st1 -> k st1 <> None -> rmatch ic r st k <> None.
Proof.
  intros ic r. induction r; intros Hs st st1 k HM Hk; cbn [rmatch].
  - inversion HM; subst. assumption.
  - inversion HM; subst. unfold step_char. simpl.
    match goal with H : chr_eqb _ _ _ = true |- _ => now rewrite H end.
  - inversion HM; subst. unfold step_char. simpl.
    match goal with H : isLineTerminator _ = false |- _ => now rewrite H end.
  - inversion HM; subst. unfold step_char. simpl.
    match goal with H : class_has _ _ _ = true |- _ => now rewrite H end.
  - simpl in Hs. apply andb_true_iff in Hs. destruct Hs as [Hs1 Hs2].
    inversion HM; subst.
    eapply IHr1; [assumption | eassumption |].
    eapply IHr2; eassumption.
  - simpl in Hs. apply andb_true_iff in Hs. destruct Hs as [Hb Ha].
    assert (Hq : exists q, atom_test ic r = Some q).
    { destruct r; try discriminate; simpl; eauto. }
    destruct Hq as [q Hq].
    destruct (Matches_rep_atom_inv _ _ _ Hq _ _ _ _ _ HM Hb)
      as [w [Hw [Hall [Hlo [Hhi Hst]]]]].
    rewrite (atom_step _ _ _ Hq).
    destruct st as [p s0 cs]. simpl in Hw, Hst. subst s0.
    apply repeat_match_atom_complete; try assumption.
    + simpl. rewrite length_app. lia.
    + now rewrite <- Hst.
  - simpl in Hs. inversion HM; subst.
    eapply IHr; [assumption | eassumption | assumption].
  - inversion HM; subst.
    match goal with H : xorb _ _ = true |- _ => now rewrite H end.
  - inversion HM; subst.
    match goal with H : prev _ = None |- _ => now rewrite H end.
Qed.

Lemma Matches_Seq_inv : forall ic r1 r2 st st2,
  Matches ic (Seq r1 r2) st st2 ->
  exists st1, Matches ic r1 st st1 /\ Matches ic r2 st1 st2.
Proof. intros ic r1 r2 st st2 H. inversion H; subst. eauto. Qed.

Lemma Matches_Group_inv : forall ic n r st st',
  Matches ic (Group n r) st st' ->
  exists st1, Matches ic r st st1 /\ st' = set_cap n (consumed st st1) st1.
Proof. intros ic n r st st' H. inversion H; subst. eauto. Qed.

(** ** Matches do not depend on what surrounds them *)

(** A pattern without [\b] and [^] that reads a word somewhere reads
    the same word wherever it stands. *)
Lemma Matches_relocate : forall ic r st st1,
  Matches ic r st st1 ->
  anchor_free r = true ->
  forall p' cs' tail,
  exists st1',
    Matches ic r (mkMState p' (consumed st st1 ++ tail) cs') st1'
    /\ rest st1' = tail.
Proof.
  intros ic r st st1 H.
  induction H; intros Haf p' cs' tail; simpl in Haf; try discriminate.
  - rewrite consumed_refl. eexists. split; [constructor | reflexivity].
  - rewrite (consumed_word _ (mkMState (Some a) s cs) (String a "")) by reflexivity.
    eexists. split; [now constructor | reflexivity].
  - rewrite (consumed_word _ (mkMState (Some a) s cs) (String a "")) by reflexivity.
    eexists. split; [now constructor | reflexivity].
  - rewrite (consumed_word _ (mkMState (Some a) s cs) (String a "")) by reflexivity.
    eexists. split; [now constructor | reflexivity].
  - apply andb_true_iff in Haf. destruct Haf as [Ha1 Ha2].
    rewrite (consumed_seq _ _ _ _ _ _ H H0), app_assoc.
    destruct (IHMatches1 Ha1 p' cs' (consumed st1 st2 ++ tail)%string)
      as [sa [HMa Hra]].
    destruct (IHMatches2 Ha2 (prev sa) (caps sa) tail) as [sb [HMb Hrb]].
    exists sb. split; [|assumption].
    econstructor; [exact HMa|].
    destruct sa as [pa ra ca]. simpl in *. now subst ra.
  - rewrite consumed_refl. eexists. split; [now apply M_RepStop | reflexivity].
  - rewrite (consumed_seq _ _ _ _ _ _ H0 H1), app_assoc.
    destruct (IHMatches1 Haf p' cs' (consumed st1 st2 ++ tail)%string)
      as [sa [HMa Hra]].
    destruct (IHMatches2 Haf (prev sa) (caps sa) tail) as [sb [HMb Hrb]].
    exists sb. split; [|assumption].
    eapply M_RepStep; [assumption | exact HMa |].
    destruct sa as [pa ra ca]. simpl in *. now subst ra.
  - rewrite consumed_set_cap.
    destruct (IHMatches Haf p' cs' tail) as [sa [HMa Hra]].
    eexists. split; [constructor; exact HMa | exact Hra].
Qed.

(** ** Captures *)

Lemma caps_preserved : forall ic r st st1 n,
  Matches ic r st st1 ->
  has_group n r = false ->
  get_cap n (caps st1) = get_cap n (caps st).
Proof.
  intros ic r st st1 n H. induction H; intro Hg; simpl in Hg; try reflexivity.
  - apply orb_false_iff in Hg. destruct Hg as [H1 H2].
    now rewrite IHMatches2, IHMatches1.
  - now rewrite IHMatches2, IHMatches1.
  - apply orb_false_iff in Hg. destruct Hg as [H1 H2].
    simpl. rewrite H1. now apply IHMatches.
Qed.

(** The capture numbered [n] at the end of a match is what the body of
    group [n] read. *)
Lemma group_content : forall ic r st st1 n body,
  Matches ic r st st1 ->
  find_group n r = Some body ->
  exists sa sb,
    Matches ic body sa sb /\ get_cap n (caps st1) = Some (consumed sa sb).
Proof.
  intros ic r st st1 n body H. revert body.
  induction H; intros body Hf; simpl in Hf; try discriminate.
  - destruct (has_group n r2) eqn:Hg.
    + now apply IHMatches2.
    + destruct (IHMatches1 _ Hf) as [sa [sb [HM Hc]]].
      exists sa, sb. split; [assumption|].
      now rewrite (caps_preserved _ _ _ _ _ H0 Hg).
  - destruct (n0 =? n) eqn:E.
    + injection Hf as <-. exists st, st1. split; [assumption|].
      simpl. now rewrite E.
    + destruct (IHMatches _ Hf) as [sa [sb [HM Hc]]].
      exists sa, sb. split; [assumption|]. simpl. now rewrite E.
Qed.

(** A group whose body is a quantified character class captures a
    word of characters of the class, at least [lo] of them. *)
Lemma group_of_class : forall ic r st st1 n g lo items,
  Matches ic r st st1 ->
  find_group n r = Some (Rep g lo None (Class items)) ->
  exists w,
    get_cap n (caps st1) = Some w
    /\ allb (class_has ic items) w = true
    /\ lo <= String.length w.
Proof.
  intros ic r st st1 n g lo items HM Hf.
  destruct (group_content _ _ _ _ _ _ HM Hf) as [sa [sb [Hb Hc]]].
  destruct (Matches_rep_atom_inv ic (Class items) _ eq_refl _ _ _ _ _ Hb eq_refl)
    as [w [Hw [Hall [Hlo _]]]].
  exists w. rewrite Hc, (consumed_word _ _ _ Hw). auto.
Qed.

(** ** Searching *)

Lemma exec_from_eq : forall ic r pre p s,
  exec_from ic r pre p s =
  match rmatch ic r (mkMState p s []) (fun st => Some st) with
  | Some st' =>
      Some (mkMatchResult (rev_string "" pre)
              (consumed (mkMState p s []) st') (rest st') (prev st') (caps st'))
  | None =>
      match s with
      | EmptyString => None
      | String c s' => exec_from ic r (String c pre) (Some c) s'
      end
  end.
Proof. intros. destruct s; reflexivity. Qed.

(** A result of the search is a match that starts at some index. *)
Lemma exec_from_sound : forall ic r s pre p m,
  exec_from ic r pre p s = Some m ->
  exists u v st1,
    s = (u ++ v)%string
    /\ Matches ic r (mkMState (prev_after p u) v []) st1
    /\ whole m = consumed (mkMState (prev_after p u) v []) st1
    /\ groups m = caps st1
    /\ after m = rest st1
    /\ end_prev m = prev st1.
Proof.
  intros ic r. induction s as [|c s IH]; intros pre p m H;
    rewrite exec_from_eq in H.
  - destruct (rmatch ic r (mkMState p "" []) (fun st => Some st)) as [st'|] eqn:E;
      [|discriminate].
    injection H as <-. apply rmatch_sound in E.
    destruct E as [st1 [HM Hst]]. injection Hst as ->.
    exists "", "", st'. simpl. repeat split; assumption.
  - destruct (rmatch ic r (mkMState p (String c s) []) (fun st => Some st))
      as [st'|] eqn:E.
    + injection H as <-. apply rmatch_sound in E.
      destruct E as [st1 [HM Hst]]. injection Hst as ->.
      exists "", (String c s), st'. simpl. repeat split; assumption.
    + apply IH in H. destruct H as [u [v [st1 [Hs H]]]].
      exists (String c u), v, st1. simpl. rewrite Hs. split; [reflexivity | exact H].
Qed.

(** The search succeeds when the pattern matches at some index. *)
Lemma exec_from_complete : forall ic r,
  simple r = true ->
  forall u v pre p st1,
    Matches ic r (mkMState (prev_after p u) v []) st1 ->
    exec_from ic r pre p (u ++ v) <> None.
Proof.
  intros ic r Hs. induction u as [|c u IH]; intros v pre p st1 HM;
    rewrite exec_from_eq.
  - simpl in *.
    destruct (rmatch ic r (mkMState p v []) (fun st => Some st)) eqn:E;
      [discriminate|].
    exfalso. revert E. eapply rmatch_complete; [assumption | exact HM | discriminate].
  - simpl in *.
    destruct (rmatch ic r (mkMState p (String c (u ++ v)) []) (fun st => Some st));
      [discriminate|].
    eapply IH. exact HM.
Qed.

(** Every element of the result of a global match is the text of a
    match. *)
Lemma match_all_from_In : forall ic r fuel p s x,
  In x (match_all_from fuel ic r p s) ->
  exists st st1,
    Matches ic r st st1 /\ caps st = [] /\ x = consumed st st1.
Proof.
  intros ic r. induction fuel as [|fuel IH]; intros p s x H; [now elim H|].
  cbn [match_all_from] in H.
  destruct (exec_from ic r "" p s) as [m|] eqn:E; [|now elim H].
  destruct H as [H | H].
  - apply exec_from_sound in E.
    destruct E as [u [v [st1 [_ [HM [Hw _]]]]]].
    eexists _, st1. split; [exact HM|]. split; [reflexivity|]. congruence.
  - destruct (whole m) as [|c w].
    + destruct (after m) as [|c' s']; [now elim H|]. eapply IH; eassumption.
    + eapply IH; eassumption.
Qed.

Lemma last_In : forall (A : Type) (l : list A) (d : A), l <> [] -> In (last l d) l.
Proof.
  intros A l d. induction l as [|x l IH]; intro H; [now elim H|].
  destruct l as [|y l]; [now left|]. right. apply IH. discriminate.
Qed.

Lemma hd_In : forall (A : Type) (l : list A) (d : A), l <> [] -> In (hd d l) l.
Proof. intros A [|x l] d H; [now elim H | now left]. Qed.

(** ** The fuel of the matcher is enough *)

Lemma step_char_ext : forall q st (d1 d2 : Cont),
  (forall a s', rest st = String a s' ->
     d1 (mkMState (Some a) s' (caps st)) = d2 (mkMState (Some a) s' (caps st))) ->
  step_char q st d1 = step_char q st d2.
Proof.
  intros q st d1 d2 H. unfold step_char.
  destruct (rest st) as [|a s']; [reflexivity|].
  destruct (q a); [|reflexivity]. now apply H.
Qed.

(** A quantified one-character pattern gives the same result with any
    fuel above the length of the input: the fuel that [rmatch] gives it
    never runs out. *)
Lemma repeat_match_fuel : forall q g fuel fuel' lo hi st k,
  String.length (rest st) < fuel ->
  String.length (rest st) < fuel' ->
  repeat_match (step_char q) g lo hi fuel st k
  = repeat_match (step_char q) g lo hi fuel' st k.
Proof.
  intros q g. induction fuel as [|fuel IH]; intros fuel' lo hi st k H H';
    [lia|].
  destruct fuel' as [|fuel']; [lia|]. cbn [repeat_match].
  assert (Hd :
    step_char q st
      (fun st1 =>
         if (lo =? 0) && (String.length (rest st1) =? String.length (rest st))
         then None
         else repeat_match (step_char q) g (pred lo) (dec_hi hi) fuel st1 k)
    = step_char q st
        (fun st1 =>
           if (lo =? 0) && (String.length (rest st1) =? String.length (rest st))
           then None
           else repeat_match (step_char q) g (pred lo) (dec_hi hi) fuel' st1 k)).
  { apply step_char_ext. intros a s' Hs. cbn [rest].
    destruct ((lo =? 0) && (String.length s' =? String.length (rest st)));
      [reflexivity|].
    apply IH; cbn [rest]; rewrite Hs in H, H'; simpl in H, H'; lia. }
  destruct hi as [[|h]|]; [reflexivity| |];
    (destruct lo as [|lo]; [destruct g|]); now rewrite Hd.
Qed.

(** A search result splits the input: what precedes the match, the
    match and what follows it. *)
Lemma exec_from_lengths : forall ic r s pre p m,
  exec_from ic r pre p s = Some m ->
  String.length (whole m) + String.length (after m) <= String.length s.
Proof.
  intros ic r s pre p m H. apply exec_from_sound in H.
  destruct H as [u [v [st1 [-> [HM [Hw [_ [Ha _]]]]]]]].
  apply Matches_word in HM. cbn [rest] in HM.
  pose proof (f_equal String.length HM) as HL.
  rewrite length_app in HL. rewrite Hw, Ha, length_app. lia.
Qed.

(** A global match gives the same list with any fuel above the length
    of the input. *)
Lemma match_all_fuel : forall ic r fuel fuel' p s,
  String.length s < fuel ->
  String.length s < fuel' ->
  match_all_from fuel ic r p s = match_all_from fuel' ic r p s.
Proof.
  intros ic r. induction fuel as [|fuel IH]; intros fuel' p s H H'; [lia|].
  destruct fuel' as [|fuel']; [lia|]. cbn [match_all_from].
  destruct (exec_from ic r "" p s) as [m|] eqn:E; [|reflexivity].
  apply exec_from_lengths in E. f_equal.
  destruct (whole m) as [|c w] eqn:Ew.
  - destruct (after m) as [|c' s'] eqn:Ea; [reflexivity|].
    simpl in E. apply IH; lia.
  - simpl in E. apply IH; lia.
Qed.

(** The text of a match of an anchor-free simple pattern is matched
    again when searched on its own, from its first character. *)
Lemma exec_on_match : forall re st st1,
  Matches (ignoreCase re) (source re) st st1 ->
  anchor_free (source re) = true ->
  simple (source re) = true ->
  exists m st1',
    exec re (consumed st st1) = Some m
    /\ Matches (ignoreCase re) (source re)
         (mkMState None (consumed st st1) []) st1'
    /\ groups m = caps st1'.
Proof.
  intros re st st1 HM Haf Hs.
  destruct (Matches_relocate _ _ _ _ HM Haf None [] "") as [sa [HMa Hra]].
  rewrite app_empty_r in HMa.
  unfold exec. rewrite exec_from_eq.
  destruct (rmatch (ignoreCase re) (source re)
              (mkMState None (consumed st st1) []) (fun s => Some s))
    as [st'|] eqn:E.
  - apply rmatch_sound in E. destruct E as [sb [HMb Hsb]].
    injection Hsb as ->. eexists _, st'. split; [reflexivity|]. auto.
  - exfalso. revert E.
    eapply rmatch_complete; [assumption | exact HMa | discriminate].
Qed.

End ReFacts.

(* ================================================================== *)
(** * Part XV. The field extractor *)
(* ================================================================== *)

Import ReSpec ReFacts.

Lemma allb_ext : forall (p q : ascii -> bool) w,
  (forall c, p c = true -> q c = true) -> allb p w = true -> allb q w = true.
Proof.
  intros p q w Hpq. induction w as [|c w IH]; simpl; [reflexivity|].
  intro H. apply andb_true_iff in H. destruct H as [Hc Hw].
  now rewrite (Hpq _ Hc), IH.
Qed.

Lemma truthy_length : forall w, 1 <= String.length w -> truthy w = true.
Proof. intros [|c w] H; [simpl in H; lia | reflexivity]. Qed.

Lemma trimStart_id : forall w,
  allb (fun c => negb (isSpace c)) w = true -> trimStart w = w.
Proof.
  intros [|c w] H; [reflexivity|]. simpl in *.
  apply andb_true_iff in H. destruct H as [Hc _].
  now destruct (isSpace c).
Qed.

Lemma trimEnd_id : forall w,
  allb (fun c => negb (isSpace c)) w = true -> trimEnd w = w.
Proof.
  induction w as [|c w IH]; intro H; [reflexivity|]. simpl in *.
  apply andb_true_iff in H. destruct H as [Hc Hw].
  rewrite (IH Hw). destruct w; [|reflexivity].
  now destruct (isSpace c).
Qed.

Lemma trim_id : forall w,
  allb (fun c => negb (isSpace c)) w = true -> trim w = w.
Proof. intros w H. unfold trim. now rewrite (trimStart_id w H), (trimEnd_id w H). Qed.

Lemma digit_class : forall ic c, class_has ic [ItDigit] c = isDigit c.
Proof. intros [] c; each_char c. Qed.

Lemma alnum_not_space : forall c,
  class_has true [ItRange "A" "Z"; ItRange "a" "z"; ItRange "0" "9"] c = true ->
  negb (isSpace c) = true.
Proof. intro c. each_char c. Qed.

(** [findValue] with one pattern that has no g flag. *)
Lemma findValue_one : forall text re,
  global re = false ->
  findValue text [re] =
  match exec re text with
  | Some m =>
      match group 1 m with
      | Some g => if truthy g then trim g else ""
      | None => ""
      end
  | None => ""
  end.
Proof.
  intros text re Hg. cbn [findValue]. rewrite Hg.
  destruct (exec re text) as [m|]; [|reflexivity].
  destruct (group 1 m) as [g|]; [|reflexivity].
  now destruct (truthy g).
Qed.

(** The capture of the WORKORDER pattern is a non-empty word of letters
    and digits. *)
Lemma tselWorkorder_capture : forall text m,
  exec Pat.tselWorkorder text = Some m ->
  exists wo,
    group 1 m = Some wo /\ truthy wo = true /\ trim wo = wo.
Proof.
  intros text m H. apply exec_from_sound in H.
  destruct H as [u [v [st1 [_ [HM [_ [Hg _]]]]]]].
  destruct (group_of_class _ _ _ _ 1 true 1
              [ItRange "A" "Z"; ItRange "a" "z"; ItRange "0" "9"] HM eq_refl)
    as [w [Hc [Hall Hlen]]].
  exists w. unfold group. rewrite Hg. split; [assumption|]. split.
  - now apply truthy_length.
  - apply trim_id. eapply allb_ext; [|exact Hall]. apply alnum_not_space.
Qed.

Lemma parseAktivasi_tsel : forall username text userRow,
  detectOwner text = "TSEL" ->
  parseAktivasi username text userRow
  = parseTsel text (teknisiOf userRow username).
Proof. intros. unfold parseAktivasi. now rewrite H. Qed.

Lemma parseAktivasi_bges_wms : forall username text userRow,
  detectOwner text = "BGES" \/ detectOwner text = "WMS" ->
  parseAktivasi username text userRow
  = parseBgesWms text (detectOwner text) (teknisiOf userRow username).
Proof. intros username text userRow [H | H]; unfold parseAktivasi; now rewrite H. Qed.

(** C5. For a text classified TSEL the extracted work order is the
    capture of the WORKORDER field when the text has one, and the
    extracted AO otherwise.  The submission of the end-to-end scenario
    (AO : SC000111, no WORKORDER field) is stored with SC000111 in the
    AO column and in the WORKORDER column. *)
Theorem tsel_workorder_falls_back_to_ao :
  (forall username text userRow,
     detectOwner text = "TSEL" ->
     match exec Pat.tselWorkorder text with
     | Some m =>
         exists wo, group 1 m = Some wo
                    /\ workorder (parseAktivasi username text userRow) = wo
     | None =>
         workorder (parseAktivasi username text userRow)
         = ao (parseAktivasi username text userRow)
     end)
  /\ (forall tanggal,
        detectOwner Fixture.tselText = "TSEL"
        /\ exec Pat.tselWorkorder Fixture.tselText = None
        /\ handleAktivasi Fixture.users [Fixture.header] "budi_teknisi"
             ("/aktivasi " ++ Fixture.tselText) tanggal
           = (Saved,
              [Fixture.header;
               [tanggal; "SC000111"; "SC000111"; "12345678901"; ""; "TSEL";
                ""; "ZTEGDA00001"; "111222333"; ""; ""; "budi_teknisi"]])).
Proof.
  split.
  - intros username text userRow Ht.
    rewrite (parseAktivasi_tsel _ _ _ Ht).
    unfold parseTsel. cbn [workorder ao].
    rewrite (findValue_one text Pat.tselWorkorder eq_refl).
    destruct (exec Pat.tselWorkorder text) as [m|] eqn:E.
    + destruct (tselWorkorder_capture _ _ E) as [wo [Hg [Ht1 Ht2]]].
      exists wo. split; [assumption|].
      rewrite Hg, Ht1, Ht2. unfold or_else. now rewrite Ht1.
    + reflexivity.
  - intro tanggal. repeat split; vm_compute; reflexivity.
Qed.

(** The rule of C5 at a TSEL text that has a WORKORDER field: the work
    order is that field, not the AO. *)
Lemma tsel_workorder_falls_back_to_ao_witness :
  detectOwner Fixture.tselWoText = "TSEL"
  /\ match exec Pat.tselWorkorder Fixture.tselWoText with
     | Some m =>
         exists wo,
           group 1 m = Some wo
           /\ workorder
                (parseAktivasi "budi_teknisi" Fixture.tselWoText Fixture.budi)
              = wo
     | None =>
         workorder (parseAktivasi "budi_teknisi" Fixture.tselWoText Fixture.budi)
         = ao (parseAktivasi "budi_teknisi" Fixture.tselWoText Fixture.budi)
     end
  /\ group 1 (match exec Pat.tselWorkorder Fixture.tselWoText with
              | Some m => m
              | None => mkMatchResult "" "" "" None []
              end) = Some "WO998877".
Proof.
  assert (Ht : detectOwner Fixture.tselWoText = "TSEL") by (vm_compute; reflexivity).
  split; [exact Ht|]. split.
  - exact (proj1 tsel_workorder_falls_back_to_ao
             "budi_teknisi" Fixture.tselWoText Fixture.budi Ht).
  - vm_compute. reflexivity.
Defined.

(** ** BGES and WMS: the last AO line and the first customer line *)

(** The text of a match of the AO-line pattern contains an SC number:
    the SC pattern matches it and captures at least six digits. *)
Lemma ao_line_has_sc : forall st st1,
  Matches false (source Pat.aoLine) st st1 ->
  exists sc digits,
    exec Pat.scNumber (consumed st st1) = Some sc
    /\ group 1 sc = Some digits
    /\ allb isDigit digits = true
    /\ 6 <= String.length digits.
Proof.
  intros st st1 HM.
  cbv [source Pat.aoLine Pat.glob seq lit lazy_star at_least digit] in HM.
  apply Matches_Seq_inv in HM. destruct HM as [s1 [HL HR]].
  apply Matches_Seq_inv in HR. destruct HR as [s2 [HS HG]].
  apply Matches_Group_inv in HG. destruct HG as [s3 [HB ->]].
  apply Matches_Seq_inv in HB. destruct HB as [s4 [HSC HD]].
  (* the same SC number, read by the pattern that captures its digits *)
  assert (HM2 : Matches false (source Pat.scNumber) s2
                  (set_cap 1 (consumed s4 s3) s3)).
  { cbv [source Pat.scNumber Pat.plain lit at_least digit].
    econstructor; [exact HSC|]. now constructor. }
  assert (Hx : consumed st (set_cap 1 (consumed s2 s3) s3)
               = (consumed st s2 ++ consumed s2 (set_cap 1 (consumed s4 s3) s3))%string).
  { rewrite !consumed_set_cap. apply consumed_word.
    rewrite (Matches_word _ _ _ _ HL) at 1.
    rewrite (Matches_word _ _ _ _ HS) at 1.
    rewrite (Matches_word _ _ _ _ HSC) at 1.
    rewrite (Matches_word _ _ _ _ HD) at 1.
    assert (E1 : consumed st s2 = (consumed st s1 ++ consumed s1 s2)%string)
      by (eapply consumed_seq; eassumption).
    assert (E2 : consumed s2 s3 = (consumed s2 s4 ++ consumed s4 s3)%string)
      by (eapply consumed_seq; eassumption).
    now rewrite E1, E2, !app_assoc. }
  rewrite Hx.
  destruct (Matches_relocate _ _ _ _ HM2 eq_refl
              (prev_after None (consumed st s2)) [] "") as [sa [HMa _]].
  rewrite app_empty_r in HMa. unfold exec.
  destruct (exec_from (ignoreCase Pat.scNumber) (source Pat.scNumber) "" None
              (consumed st s2 ++ consumed s2 (set_cap 1 (consumed s4 s3) s3)))
    as [sc|] eqn:E.
  - exists sc. apply exec_from_sound in E.
    destruct E as [u [v [se [_ [HMe [_ [Hg _]]]]]]].
    destruct (group_of_class _ _ _ _ 1 true 6 [ItDigit] HMe eq_refl)
      as [w [Hc [Hall Hlen]]].
    exists w. unfold group. rewrite Hg.
    split; [reflexivity|]. split; [assumption|]. split; [|assumption].
    eapply allb_ext; [|exact Hall]. intros c Hcd. now rewrite digit_class in Hcd.
  - exfalso. revert E. eapply exec_from_complete; [reflexivity | exact HMa].
Qed.

(** The text of a match of the customer-line pattern is matched again
    by the same pattern, which captures a non-empty name. *)
Lemma customer_line_has_name : forall st st1,
  Matches false Pat.customerLineRe st st1 ->
  exists m name,
    exec Pat.customerLine (consumed st st1) = Some m
    /\ group 1 m = Some name
    /\ truthy name = true.
Proof.
  intros st st1 HM.
  destruct (exec_on_match Pat.customerLine st st1 HM eq_refl eq_refl)
    as [m [se [He [HMe Hg]]]].
  destruct (group_of_class _ _ _ _ 1 false 1
              [ItRange "A" "Z"; ItRange "0" "9"; ItSpace] HMe eq_refl)
    as [w [Hc [_ Hlen]]].
  exists m, w. unfold group. rewrite Hg.
  repeat split; try assumption. now apply truthy_length.
Qed.

Lemma lastMatch_nonempty : forall ms,
  ms <> [] -> lastMatch ms = Some (last ms "").
Proof. intros [|x ms] H; [now elim H | reflexivity]. Qed.

(** C2. For a text classified BGES or WMS with at least one match of
    the AO-line pattern and at least one match of the customer-line
    pattern, the AO and the work order are "SC" followed by the digits
    that the SC pattern captures in the last AO-line match, and the
    customer name is the trimmed capture of the first customer-line
    match. *)
Theorem bges_wms_last_ao_first_customer : forall username text userRow,
  detectOwner text = "BGES" \/ detectOwner text = "WMS" ->
  match_all Pat.aoLine text <> [] ->
  match_all Pat.customerLines text <> [] ->
  let parsed := parseAktivasi username text userRow in
  (exists sc digits,
     exec Pat.scNumber (last (match_all Pat.aoLine text) "") = Some sc
     /\ group 1 sc = Some digits
     /\ allb isDigit digits = true /\ 6 <= String.length digits
     /\ ao parsed = ("SC" ++ digits)%string
     /\ workorder parsed = ao parsed)
  /\ (exists m name,
        exec Pat.customerLine (hd "" (match_all Pat.customerLines text)) = Some m
        /\ group 1 m = Some name
        /\ customerName parsed = trim name).
Proof.
  intros username text userRow Ho Hao Hcust parsed. subst parsed.
  rewrite (parseAktivasi_bges_wms _ _ _ Ho).
  unfold parseBgesWms. cbn [ao workorder customerName].
  split.
  - rewrite (lastMatch_nonempty _ Hao).
    pose proof (last_In _ _ "" Hao) as Hin.
    apply match_all_from_In in Hin.
    destruct Hin as [st [st1 [HM [_ Hx]]]].
    destruct (ao_line_has_sc _ _ HM) as [sc [digits [He [Hg [Hd Hl]]]]].
    rewrite <- Hx in He.
    exists sc, digits. rewrite He, Hg. simpl or_default.
    unfold or_else. rewrite (truthy_length digits) by lia.
    repeat split; assumption.
  - pose proof (hd_In _ _ "" Hcust) as Hin.
    apply match_all_from_In in Hin.
    destruct Hin as [st [st1 [HM [_ Hx]]]].
    destruct (customer_line_has_name _ _ HM) as [m [name [He [Hg Ht]]]].
    rewrite <- Hx in He.
    destruct (match_all Pat.customerLines text) as [|first rest'] eqn:E;
      [now elim Hcust|].
    cbn [hd] in *.
    exists m, name. rewrite He, Hg, Ht. auto.
Qed.

(** The fixture of C2: two AO lines and one customer line yield the
    second AO and the single customer name. *)
Lemma bges_wms_last_ao_first_customer_witness :
  detectOwner Fixture.bgesText = "BGES"
  /\ match_all Pat.aoLine Fixture.bgesText
     = ["AO| MEDAN SC123456"; "AO| BINJAI SC654321"]
  /\ match_all Pat.customerLines Fixture.bgesText
     = ["01/09/2025 10:30 12345 JOHN DOE  "]
  /\ ao (parseAktivasi "budi_teknisi" Fixture.bgesText Fixture.budi) = "SC654321"
  /\ workorder (parseAktivasi "budi_teknisi" Fixture.bgesText Fixture.budi)
     = "SC654321"
  /\ customerName (parseAktivasi "budi_teknisi" Fixture.bgesText Fixture.budi)
     = "JOHN DOE".
Proof.
  assert (Ho : detectOwner Fixture.bgesText = "BGES") by (vm_compute; reflexivity).
  assert (Ha : match_all Pat.aoLine Fixture.bgesText
               = ["AO| MEDAN SC123456"; "AO| BINJAI SC654321"])
    by (vm_compute; reflexivity).
  assert (Hc : match_all Pat.customerLines Fixture.bgesText
               = ["01/09/2025 10:30 12345 JOHN DOE  "])
    by (vm_compute; reflexivity).
  assert (Ha' : match_all Pat.aoLine Fixture.bgesText <> [])
    by (rewrite Ha; discriminate).
  assert (Hc' : match_all Pat.customerLines Fixture.bgesText <> [])
    by (rewrite Hc; discriminate).
  destruct (bges_wms_last_ao_first_customer
              "budi_teknisi" Fixture.bgesText Fixture.budi (or_introl Ho) Ha' Hc')
    as [[sc [digits [He [Hg [_ [_ [Hao Hwo]]]]]]] [m [name [Hm [Hn Hname]]]]].
  rewrite Ha in He. rewrite Hc in Hm.
  assert (Hd : digits = "654321").
  { vm_compute in He. injection He as <-. vm_compute in Hg. congruence. }
  assert (Hnm : name = "JOHN DOE").
  { vm_compute in Hm. injection Hm as <-. vm_compute in Hn. congruence. }
  subst digits name.
  split; [exact Ho|]. split; [exact Ha|]. split; [exact Hc|].
  split; [exact Hao|]. split; [now rewrite Hwo | exact Hname].
Defined.

(* ================================================================== *)
(** * Part XVI. The period filter *)
(* ================================================================== *)

Section PeriodFacts.

Import JsDate.

Variable host : Host.

Lemma LocalTime_UTC : forall t, LocalTime host (UTC host t) = t.
Proof. intro t. unfold LocalTime, UTC. lia. Qed.

Lemma setHours_UTC : forall t h m s ms,
  setHours host (UTC host t) h m s ms
  = UTC host (MakeDate (Day t) (MakeTime h m s ms)).
Proof. intros. unfold setHours. now rewrite LocalTime_UTC. Qed.

Lemma setDate_UTC : forall t dt,
  setDate host (UTC host t) dt
  = UTC host (MakeDate (MakeDay (YearFromTime t) (MonthFromTime t) dt)
                (TimeWithinDay t)).
Proof. intros. unfold setDate. now rewrite LocalTime_UTC. Qed.

Lemma getDate_UTC : forall t, getDate host (UTC host t) = DateFromTime t.
Proof. intros. unfold getDate. now rewrite LocalTime_UTC. Qed.

Lemma getDay_UTC : forall t, getDay host (UTC host t) = WeekDay t.
Proof. intros. unfold getDay. now rewrite LocalTime_UTC. Qed.

Lemma getFullYear_UTC : forall t, getFullYear host (UTC host t) = YearFromTime t.
Proof. intros. unfold getFullYear. now rewrite LocalTime_UTC. Qed.

Lemma getMonth_UTC : forall t, getMonth host (UTC host t) = MonthFromTime t.
Proof. intros. unfold getMonth. now rewrite LocalTime_UTC. Qed.

Lemma localFields_UTC : forall t, localFields host (UTC host t) = fieldsOf t.
Proof. intros. unfold localFields. now rewrite LocalTime_UTC. Qed.

Lemma newDate_UTC : forall y m d,
  newDate host y m d
  = UTC host (MakeDate
                (MakeDay (if (0 <=? y)%Z && (y <=? 99)%Z then (1900 + y)%Z else y)
                   m d)
                (MakeTime 0 0 0 0)).
Proof. reflexivity. Qed.

(** The window for an anchor in which the date pattern finds a match. *)
Lemma periodBounds_anchor : forall now period customDate m,
  truthy customDate = true ->
  exec datePattern customDate = Some m ->
  periodBounds host now period (Some customDate) =
  let targetDate :=
    newDate host (groupInt 3 m) (groupInt 2 m - 1)%Z (groupInt 1 m) in
  if String.eqb period "daily" then
    Window (Some targetDate) (Some (endOfDay host targetDate))
  else if String.eqb period "weekly" then
    let startDate :=
      setHours host
        (setDate host targetDate
           (getDate host targetDate + mondayOffset (getDay host targetDate))%Z)
        0 0 0 0 in
    Window (Some startDate)
      (Some (endOfDay host
               (setDate host startDate (getDate host startDate + 6)%Z)))
  else if String.eqb period "monthly" then
    Window
      (Some (newDate host (getFullYear host targetDate)
               (getMonth host targetDate) 1))
      (Some (endOfDay host
               (newDate host (getFullYear host targetDate)
                  (getMonth host targetDate + 1)%Z 0)))
  else Window None None.
Proof.
  intros now period customDate m Ht Hm. unfold periodBounds.
  cbn [or_default]. unfold or_else at 1. rewrite Ht.
  unfold or_else. rewrite Ht, Hm. reflexivity.
Qed.

(** The window for a non-empty anchor in which the date pattern finds
    no match: both bounds stay undefined. *)
Lemma periodBounds_no_match : forall now period customDate,
  truthy customDate = true ->
  exec datePattern customDate = None ->
  periodBounds host now period (Some customDate) = Window None None.
Proof.
  intros now period customDate Ht Hm. unfold periodBounds.
  cbn [or_default]. unfold or_else at 1. rewrite Ht.
  unfold or_else. rewrite Ht, Hm. reflexivity.
Qed.

End PeriodFacts.

Lemma mondayOffset_formula : forall dayOfWeek,
  (0 <= dayOfWeek <= 6)%Z ->
  mondayOffset dayOfWeek = (- ((dayOfWeek + 6) mod 7))%Z.
Proof.
  intros d Hd. unfold mondayOffset.
  assert (H : (d = 0 \/ d = 1 \/ d = 2 \/ d = 3 \/ d = 4 \/ d = 5 \/ d = 6)%Z) by lia.
  destruct H as [-> | [-> | [-> | [-> | [-> | [-> | ->]]]]]]; reflexivity.
Qed.

Ltac utc_normal host :=
  rewrite ?(newDate_UTC host);
  repeat first
    [ rewrite (setHours_UTC host) | rewrite (setDate_UTC host)
    | rewrite (getDate_UTC host) | rewrite (getDay_UTC host)
    | rewrite (getFullYear_UTC host) | rewrite (getMonth_UTC host)
    | rewrite (localFields_UTC host) ].

(** C3. For the anchor 15 September 2025 (a Monday), on every host and
    at every moment, the window of the period filter is: daily, that
    day from 00:00:00.000 to 23:59:59.999; weekly, Monday 15 September
    00:00:00.000 to Sunday 21 September 23:59:59.999; monthly,
    1 September 00:00:00.000 to 30 September 23:59:59.999 (local time).
    The Monday is the anchor minus ((dayOfWeek + 6) mod 7) days: that is
    the offset that the code adds, for every day of the week. *)
Theorem period_windows_for_15_september_2025 : forall host now anchor,
  (anchor = "15/09/2025" \/ anchor = "15-09-2025") ->
  let target := JsDate.newDate host 2025 8 15 in
  windowFields host (periodBounds host now "daily" (Some anchor))
  = Some ((2025, 9, 15, 0, 0, 0, 0), (2025, 9, 15, 23, 59, 59, 999))%Z
  /\ windowFields host (periodBounds host now "weekly" (Some anchor))
     = Some ((2025, 9, 15, 0, 0, 0, 0), (2025, 9, 21, 23, 59, 59, 999))%Z
  /\ windowFields host (periodBounds host now "monthly" (Some anchor))
     = Some ((2025, 9, 1, 0, 0, 0, 0), (2025, 9, 30, 23, 59, 59, 999))%Z
  /\ JsDate.getDay host target = 1%Z
  /\ (forall dayOfWeek,
        (0 <= dayOfWeek <= 6)%Z ->
        mondayOffset dayOfWeek = (- ((dayOfWeek + 6) mod 7))%Z).
Proof.
  intros host now anchor Ha target.
  assert (Hm : exists m,
            truthy anchor = true /\ exec datePattern anchor = Some m
            /\ groupInt 1 m = 15%Z /\ groupInt 2 m = 9%Z /\ groupInt 3 m = 2025%Z).
  { destruct Ha as [-> | ->]; eexists; repeat split; vm_compute; reflexivity. }
  destruct Hm as [m [Ht [Hm [H1 [H2 H3]]]]].
  assert (Hday : JsDate.getDay host target = 1%Z).
  { subst target. utc_normal host. vm_compute. reflexivity. }
  repeat split.
  - rewrite (periodBounds_anchor host now "daily" anchor m Ht Hm).
    rewrite H1, H2, H3. cbv zeta. change (String.eqb "daily" "daily") with true.
    cbv iota. unfold windowFields, endOfDay. utc_normal host.
    vm_compute. reflexivity.
  - rewrite (periodBounds_anchor host now "weekly" anchor m Ht Hm).
    rewrite H1, H2, H3. cbv zeta.
    change (String.eqb "weekly" "daily") with false.
    change (String.eqb "weekly" "weekly") with true.
    cbv iota. unfold windowFields, endOfDay. utc_normal host.
    vm_compute. reflexivity.
  - rewrite (periodBounds_anchor host now "monthly" anchor m Ht Hm).
    rewrite H1, H2, H3. cbv zeta.
    change (String.eqb "monthly" "daily") with false.
    change (String.eqb "monthly" "weekly") with false.
    change (String.eqb "monthly" "monthly") with true.
    cbv iota. unfold windowFields, endOfDay. utc_normal host.
    vm_compute. reflexivity.
  - exact Hday.
  - exact mondayOffset_formula.
Qed.

(** The windows of C3 on a host in the configured zone, asked while
    another week is running. *)
Lemma period_windows_for_15_september_2025_witness :
  windowFields Fixture.wib
    (periodBounds Fixture.wib 0 "weekly" (Some "15/09/2025"))
  = Some ((2025, 9, 15, 0, 0, 0, 0), (2025, 9, 21, 23, 59, 59, 999))%Z.
Proof.
  exact (proj1 (proj2 (period_windows_for_15_september_2025
                         Fixture.wib 0%Z "15/09/2025" (or_introl eq_refl)))).
Defined.

(** ** Rows that the filter keeps *)

Lemma filter_none : forall (A : Type) (f : A -> bool) (l : list A),
  (forall x, In x l -> f x = false) -> filter f l = [].
Proof.
  intros A f l. induction l as [|x l IH]; intro H; [reflexivity|].
  simpl. rewrite (H x (or_introl eq_refl)). apply IH.
  intros y Hy. apply H. now right.
Qed.

Lemma inWindow_undefined : forall host row, inWindow host None None row = false.
Proof.
  intros host row. unfold inWindow.
  destruct (cell row 0) as [d|]; [|reflexivity].
  destruct (truthy d); [|reflexivity].
  destruct (parseIndonesianDate host d) as [[t|]|]; reflexivity.
Qed.

(** A report period always has a window: only another period makes the
    function return all rows. *)
Lemma reportPeriod_window : forall host now period customDate,
  reportPeriod period ->
  exists s e, periodBounds host now period customDate = Window s e.
Proof.
  intros host now period customDate Hp. unfold periodBounds.
  destruct (truthy (or_default customDate "")).
  - destruct (exec datePattern (or_default customDate "")) as [m|];
      [|eauto].
    destruct Hp as [-> | [-> | ->]].
    + change (String.eqb "daily" "daily") with true. cbv iota. eauto.
    + change (String.eqb "weekly" "daily") with false.
      change (String.eqb "weekly" "weekly") with true. cbv iota. eauto.
    + change (String.eqb "monthly" "daily") with false.
      change (String.eqb "monthly" "weekly") with false.
      change (String.eqb "monthly" "monthly") with true. cbv iota. eauto.
  - destruct Hp as [-> | [-> | ->]].
    + change (String.eqb "daily" "daily") with true. cbv iota. eauto.
    + change (String.eqb "weekly" "daily") with false.
      change (String.eqb "weekly" "weekly") with true. cbv iota. eauto.
    + change (String.eqb "monthly" "daily") with false.
      change (String.eqb "monthly" "weekly") with false.
      change (String.eqb "monthly" "monthly") with true. cbv iota. eauto.
Qed.

(** A row that the filter keeps for a report period has a non-empty
    date that parses to a valid date within the bounds. *)
Lemma kept_row_has_valid_date : forall host now data period customDate row,
  reportPeriod period ->
  In row (filterDataByPeriod host now data period customDate) ->
  exists dateStr t,
    cell row 0 = Some dateStr /\ truthy dateStr = true
    /\ parseIndonesianDate host dateStr = Some (JsDate.ValidDate t).
Proof.
  intros host now data period customDate row Hp Hin.
  unfold filterDataByPeriod in Hin.
  destruct (reportPeriod_window host now period customDate Hp) as [s [e Hw]].
  rewrite Hw in Hin. apply filter_In in Hin. destruct Hin as [_ Hin].
  unfold inWindow in Hin.
  destruct (cell row 0) as [d|]; [|discriminate].
  apply andb_true_iff in Hin. destruct Hin as [Ht Hin].
  destruct (parseIndonesianDate host d) as [[t|]|] eqn:E; try discriminate.
  exists d, t. repeat split; assumption.
Qed.

Lemma unparseable_no_valid_date : forall host dateStr t,
  unparseable host dateStr ->
  parseIndonesianDate host dateStr <> Some (JsDate.ValidDate t).
Proof.
  intros host dateStr t Hu. unfold unparseable in Hu.
  destruct Hu as [Hlen | [Hmon | Hinv]].
  - unfold parseIndonesianDate.
    replace (4 <=? List.length (split " " (toLowerCase dateStr))) with false
      by (symmetry; apply Nat.leb_gt; exact Hlen).
    discriminate.
  - unfold parseIndonesianDate.
    destruct (4 <=? List.length (split " " (toLowerCase dateStr)));
      [|discriminate].
    rewrite Hmon. discriminate.
  - rewrite Hinv. discriminate.
Qed.

(** C7, as amended. When the anchor string is not empty and the date
    pattern finds no DD/MM/YYYY or DD-MM-YYYY in it, the period filter
    returns no row, whatever the period; an empty anchor string is
    treated as no anchor, so that "now" is the anchor. *)
Theorem unmatched_anchor_selects_nothing :
  forall host now data period customDate,
  exec datePattern customDate = None ->
  (customDate <> "" ->
   filterDataByPeriod host now data period (Some customDate) = [])
  /\ (customDate = "" ->
      filterDataByPeriod host now data period (Some customDate)
      = filterDataByPeriod host now data period None).
Proof.
  intros host now data period customDate Hm. split.
  - intro Hne. unfold filterDataByPeriod.
    rewrite (periodBounds_no_match host now period customDate);
      [| destruct customDate; [now elim Hne | reflexivity] | exact Hm].
    apply filter_none. intros row _. apply inWindow_undefined.
  - intros ->. reflexivity.
Qed.

(** The rule of C7 at the anchor "kemarin", a word without a date: the
    daily report of a store that holds a row of today is empty. *)
Lemma unmatched_anchor_selects_nothing_witness :
  exec datePattern "kemarin" = None
  /\ filterDataByPeriod Fixture.wib Fixture.monday_morning
       [Fixture.header; Fixture.todayRow] "daily" (Some "kemarin") = [].
Proof.
  assert (Hm : exec datePattern "kemarin" = None) by (vm_compute; reflexivity).
  split; [exact Hm|].
  apply (proj1 (unmatched_anchor_selects_nothing Fixture.wib
                  Fixture.monday_morning [Fixture.header; Fixture.todayRow]
                  "daily" "kemarin" Hm)).
  discriminate.
Defined.

(** C7 as stated fails: on the morning of 15 September 2025 a row of
    that day is in the daily report when no anchor is given, and is not
    when the anchor is a word without a date. *)
Lemma unmatched_anchor_is_not_now :
  exec datePattern "kemarin" = None
  /\ filterDataByPeriod Fixture.wib Fixture.monday_morning
       [Fixture.header; Fixture.todayRow] "daily" None = [Fixture.todayRow]
  /\ filterDataByPeriod Fixture.wib Fixture.monday_morning
       [Fixture.header; Fixture.todayRow] "daily" (Some "kemarin") = []
  /\ filterDataByPeriod Fixture.wib Fixture.monday_morning
       [Fixture.header; Fixture.todayRow] "daily" (Some "kemarin")
     <> filterDataByPeriod Fixture.wib Fixture.monday_morning
          [Fixture.header; Fixture.todayRow] "daily" None.
Proof.
  split; [vm_compute; reflexivity|].
  split; [vm_compute; reflexivity|].
  split; [vm_compute; reflexivity|].
  vm_compute. discriminate.
Qed.

(** ** The weekday token *)

(** The first piece of a split at blanks is the first token. *)
Lemma split_first_token : forall w tail cur,
  noSpace w ->
  split_aux " " (w ++ String " " tail) cur 0
  = rev_string "" (rev_string cur w) :: split " " tail.
Proof.
  unfold noSpace. induction w as [|c w IH]; intros tail cur Hw.
  - reflexivity.
  - simpl in Hw. apply andb_true_iff in Hw. destruct Hw as [Hc Hw].
    change (String c w ++ String " " tail)%string
      with (String c (w ++ String " " tail)).
    cbn [split_aux startsWith].
    rewrite Ascii.eqb_sym. apply negb_true_iff in Hc. rewrite Hc.
    cbn [andb]. now rewrite IH.
Qed.

Lemma toLowerCase_app : forall a b,
  toLowerCase (a ++ b) = (toLowerCase a ++ toLowerCase b)%string.
Proof.
  induction a as [|c a IH]; intro b; [reflexivity|].
  change (String (toLowerChar c) (toLowerCase (a ++ b))
          = String (toLowerChar c) (toLowerCase a ++ toLowerCase b)).
  now rewrite IH.
Qed.

Lemma toLowerChar_space : forall c,
  negb (Ascii.eqb c " ") = true -> negb (Ascii.eqb (toLowerChar c) " ") = true.
Proof. intro c. each_char c. Qed.

Lemma noSpace_toLowerCase : forall w, noSpace w -> noSpace (toLowerCase w).
Proof.
  unfold noSpace. induction w as [|c w IH]; intro H; [reflexivity|].
  simpl in H. apply andb_true_iff in H. destruct H as [Hc Hw].
  change (negb (Ascii.eqb (toLowerChar c) " ")
          && allb (fun c => negb (Ascii.eqb c " ")) (toLowerCase w) = true).
  now rewrite (toLowerChar_space c Hc), (IH Hw).
Qed.

(** The stored date is parsed from its second, third and fourth tokens:
    the first token, the weekday, plays no part. *)
Lemma parseIndonesianDate_ignores_weekday : forall host w1 w2 tail,
  noSpace w1 -> noSpace w2 ->
  parseIndonesianDate host (w1 ++ String " " tail)
  = parseIndonesianDate host (w2 ++ String " " tail).
Proof.
  intros host w1 w2 tail H1 H2.
  assert (Hs : forall w, noSpace w ->
            exists tok,
              split " " (toLowerCase (w ++ String " " tail))
              = tok :: split " " (toLowerCase tail)).
  { intros w Hw. rewrite toLowerCase_app.
    change (toLowerCase (String " " tail)) with (String " " (toLowerCase tail)).
    unfold split at 1.
    rewrite (split_first_token _ _ "" (noSpace_toLowerCase _ Hw)). eauto. }
  destruct (Hs w1 H1) as [t1 E1]. destruct (Hs w2 H2) as [t2 E2].
  unfold parseIndonesianDate. rewrite E1, E2. reflexivity.
Qed.

(** C8, as amended. A stored row whose date has fewer than four tokens,
    or a month token without an entry in the month table, or a date
    string that is an invalid date, is in no result of the period filter
    for the periods daily, weekly and monthly, whatever the anchor.  The
    weekday token is not looked at: two dates that differ in it only are
    parsed alike.  (The filter is a total function: it has no failing
    case.) *)
Theorem unparseable_date_is_excluded :
  (forall host now data period customDate row dateStr,
     reportPeriod period ->
     cell row 0 = Some dateStr ->
     unparseable host dateStr ->
     ~ In row (filterDataByPeriod host now data period customDate))
  /\ (forall host weekday weekday' tail,
        noSpace weekday -> noSpace weekday' ->
        parseIndonesianDate host (weekday ++ String " " tail)
        = parseIndonesianDate host (weekday' ++ String " " tail)).
Proof.
  split; [|exact parseIndonesianDate_ignores_weekday].
  intros host now data period customDate row dateStr Hp Hc Hu Hin.
  destruct (kept_row_has_valid_date _ _ _ _ _ _ Hp Hin)
    as [d [t [Hd [_ Hparse]]]].
  rewrite Hc in Hd. injection Hd as <-.
  exact (unparseable_no_valid_date _ _ _ Hu Hparse).
Qed.

(** The rule of C8 at a row whose month token is "septober": the daily
    filter anchored on its day does not keep it. *)
Lemma unparseable_date_is_excluded_witness :
  reportPeriod "daily"
  /\ cell Fixture.badMonthRow 0 = Some "Senin, 15 Septober 2025"
  /\ unparseable Fixture.wib "Senin, 15 Septober 2025"
  /\ ~ In Fixture.badMonthRow
         (filterDataByPeriod Fixture.wib Fixture.monday_morning
            [Fixture.header; Fixture.todayRow; Fixture.badMonthRow]
            "daily" (Some "15/09/2025")).
Proof.
  assert (Hp : reportPeriod "daily") by now left.
  assert (Hu : unparseable Fixture.wib "Senin, 15 Septober 2025")
    by (right; left; vm_compute; reflexivity).
  split; [exact Hp|]. split; [reflexivity|]. split; [exact Hu|].
  exact (proj1 unparseable_date_is_excluded Fixture.wib Fixture.monday_morning
           [Fixture.header; Fixture.todayRow; Fixture.badMonthRow]
           "daily" (Some "15/09/2025") Fixture.badMonthRow
           "Senin, 15 Septober 2025" Hp eq_refl Hu).
Defined.

(** C8 as stated fails: a row whose weekday token is no weekday is kept
    by the daily, the weekly and the monthly filter. *)
Lemma unrecognized_weekday_is_kept :
  cell Fixture.oddWeekdayRow 0 = Some "Xyzday, 15 September 2025"
  /\ In Fixture.oddWeekdayRow
       (filterDataByPeriod Fixture.wib Fixture.monday_morning
          [Fixture.header; Fixture.oddWeekdayRow] "daily" (Some "15/09/2025"))
  /\ filterDataByPeriod Fixture.wib Fixture.monday_morning
       [Fixture.header; Fixture.oddWeekdayRow] "daily" (Some "15/09/2025")
     = [Fixture.oddWeekdayRow]
  /\ filterDataByPeriod Fixture.wib Fixture.monday_morning
       [Fixture.header; Fixture.oddWeekdayRow] "weekly" None
     = [Fixture.oddWeekdayRow]
  /\ filterDataByPeriod Fixture.utc Fixture.monday_morning
       [Fixture.header; Fixture.oddWeekdayRow] "monthly" None
     = [Fixture.oddWeekdayRow].
Proof.
  split; [reflexivity|].
  split; [vm_compute; now left|].
  repeat split; vm_compute; reflexivity.
Qed.

(* ================================================================== *)
(** * Part XVII. The write path *)
(* ================================================================== *)

Lemma isSpace_map_trimStart : forall s,
  trimStart (toUpperCase s) = toUpperCase (trimStart s).
Proof.
  induction s as [|c s IH]; [reflexivity|].
  change (toUpperCase (String c s)) with (String (toUpperChar c) (toUpperCase s)).
  cbn [trimStart]. rewrite isSpace_toUpperChar.
  destruct (isSpace c); [exact IH | reflexivity].
Qed.

Lemma isSpace_map_trimEnd : forall s,
  trimEnd (toUpperCase s) = toUpperCase (trimEnd s).
Proof.
  induction s as [|c s IH]; [reflexivity|].
  change (toUpperCase (String c s)) with (String (toUpperChar c) (toUpperCase s)).
  cbn [trimEnd]. rewrite IH, isSpace_toUpperChar.
  destruct (trimEnd s) as [|d r]; [|reflexivity].
  cbn [toUpperCase map]. now destruct (isSpace c).
Qed.

(** Upper-casing and trimming commute. *)
Lemma normalizeAo_trim : forall s, normalizeAo s = toUpperCase (trim s).
Proof.
  intro s. unfold normalizeAo, trim.
  now rewrite isSpace_map_trimStart, isSpace_map_trimEnd.
Qed.

Lemma toUpperCase_eq_ci : forall a b,
  toUpperCase a = toUpperCase b <-> eq_ci a b.
Proof.
  induction a as [|x a IH]; intros [|y b]; split; intro H;
    try (inversion H; fail); try discriminate;
    try (constructor; fail); try reflexivity.
  - injection H as Hc Hs. constructor; [exact Hc | apply IH; exact Hs].
  - inversion H as [|? ? ? ? Hc Hs]; subst.
    change (String (toUpperChar x) (toUpperCase a)
            = String (toUpperChar y) (toUpperCase b)).
    apply IH in Hs. now rewrite Hc, Hs.
Qed.

(** Two AOs have the same normal form exactly when they are equal once
    trimmed, up to the case of letters. *)
Lemma normalizeAo_eq_ci : forall a b,
  normalizeAo a = normalizeAo b <-> eq_ci (trim a) (trim b).
Proof. intros a b. rewrite !normalizeAo_trim. apply toUpperCase_eq_ci. Qed.

Lemma isDuplicate_iff : forall candidate data,
  isDuplicate candidate data = true <->
  exists row,
    In row (skipn 1 data)
    /\ eq_ci (trim (or_default (cell row 1) "")) (trim candidate).
Proof.
  intros candidate data. unfold isDuplicate. rewrite existsb_exists.
  split; intros [row [Hin H]]; exists row; (split; [exact Hin|]).
  - apply String.eqb_eq in H. now apply normalizeAo_eq_ci.
  - apply String.eqb_eq. now apply normalizeAo_eq_ci.
Qed.

(** C4. The duplicate check answers yes exactly when some stored row
    (a row after the header) holds an AO equal to the candidate once
    both are trimmed, letters compared without regard to case.  A
    submission that passes validation and whose AO is such a duplicate
    is answered "duplicate" and leaves the store as it was.  So it is
    for the submission of sc123456 to a store that holds "SC123456 ". *)
Theorem duplicate_check_ignores_case_and_blanks :
  (forall candidate data,
     isDuplicate candidate data = true <->
     exists row,
       In row (skipn 1 data)
       /\ eq_ci (trim (or_default (cell row 1) "")) (trim candidate))
  /\ (forall users store username text tanggal user,
        test Pat.aktivasiCommand text = true ->
        getUserData users username = Some user ->
        let inputText := trim (remove_match Pat.aktivasiPrefix text) in
        let parsed := parseAktivasi username inputText user in
        truthy inputText = true ->
        truthy (ao parsed) = true ->
        isDuplicate (ao parsed) store = true ->
        handleAktivasi users store username text tanggal = (Duplicate, store))
  /\ (forall tanggal,
        eq_ci (trim "SC123456 ") (trim "sc123456")
        /\ handleAktivasi Fixture.users Fixture.storeWithSc "budi_teknisi"
             ("/aktivasi " ++ Fixture.manualText) tanggal
           = (Duplicate, Fixture.storeWithSc)).
Proof.
  split; [exact isDuplicate_iff|]. split.
  - intros users store username text tanggal user Hcmd Huser inputText parsed
      Hin Hao Hdup.
    unfold handleAktivasi. rewrite Hcmd, Huser. cbn [negb].
    fold inputText. rewrite Hin. cbn [negb]. fold parsed. rewrite Hao.
    cbn [List.length Nat.ltb Nat.leb]. now rewrite Hdup.
  - intro tanggal. split.
    + apply normalizeAo_eq_ci. vm_compute. reflexivity.
    + vm_compute. reflexivity.
Qed.

(** The rule of C4 at the candidate sc123456 and a store that holds
    "SC123456 ": the check answers yes, and the stored row is the one
    that matches. *)
Lemma duplicate_check_ignores_case_and_blanks_witness :
  isDuplicate "sc123456" Fixture.storeWithSc = true
  /\ exists row,
       In row (skipn 1 Fixture.storeWithSc)
       /\ eq_ci (trim (or_default (cell row 1) "")) (trim "sc123456").
Proof.
  assert (H : isDuplicate "sc123456" Fixture.storeWithSc = true)
    by (vm_compute; reflexivity).
  split; [exact H|].
  exact (proj1 (proj1 duplicate_check_ignores_case_and_blanks
                  "sc123456" Fixture.storeWithSc) H).
Defined.

(** ** Where the technician comes from *)

Lemma teknisi_parseAktivasi : forall username text userRow,
  teknisi (parseAktivasi username text userRow) = teknisiOf userRow username.
Proof.
  intros username text userRow. unfold parseAktivasi.
  destruct (String.eqb (detectOwner text) "TSEL"); [reflexivity|].
  destruct (String.eqb (detectOwner text) "BGES"
            || String.eqb (detectOwner text) "WMS"); reflexivity.
Qed.

(** [replace('@', '')] takes the first [@] away, wherever it stands:
    what is left begins with [@] exactly when the text began with two
    of them, and a text without [@] is not changed. *)
Lemma removeFirst_head : forall s,
  startsWith "@" (removeFirst "@" s) = startsWith "@@" s.
Proof.
  intros [|a s]; [reflexivity|].
  cbn [removeFirst startsWith].
  rewrite (Ascii.eqb_sym a "@").
  destruct (Ascii.eqb "@" a) eqn:E; cbn [andb].
  - reflexivity.
  - cbn [startsWith]. now rewrite E.
Qed.

Lemma removeFirst_absent : forall s,
  includes s "@" = false -> removeFirst "@" s = s.
Proof.
  induction s as [|a s IH]; [reflexivity|].
  cbn [includes startsWith removeFirst]. intro H.
  apply orb_false_iff in H. destruct H as [H1 H2].
  rewrite andb_true_r in H1. rewrite (Ascii.eqb_sym a "@"), H1.
  now rewrite IH.
Qed.

(** C6, as amended. In the enhanced flow the technician of the
    extracted record is the handle in the sender's row of the user sheet
    (the sender's own name when that cell is empty) with its first "@"
    removed, wherever that stands: a handle that begins with "@" loses
    that one, so the technician begins with "@" exactly when the handle
    begins with "@@", and a handle without "@" is taken as it is. The
    technician does not depend on the text, and it is what the handler
    stores in the TEKNISI column. *)
Theorem teknisi_is_the_resolved_handle :
  (forall username text userRow,
     teknisi (parseAktivasi username text userRow)
     = removeFirst "@" (or_default (cell userRow 1) username))
  /\ (forall username text text' userRow,
        teknisi (parseAktivasi username text userRow)
        = teknisi (parseAktivasi username text' userRow))
  /\ (forall username text userRow handle,
        cell userRow 1 = Some (String "@" handle) ->
        teknisi (parseAktivasi username text userRow) = handle)
  /\ (forall username text userRow,
        startsWith "@" (teknisi (parseAktivasi username text userRow))
        = startsWith "@@" (or_default (cell userRow 1) username))
  /\ (forall username text userRow,
        includes (or_default (cell userRow 1) username) "@" = false ->
        teknisi (parseAktivasi username text userRow)
        = or_default (cell userRow 1) username)
  /\ (forall users store username text tanggal store',
        handleAktivasi users store username text tanggal = (Saved, store') ->
        exists user row,
          getUserData users username = Some user
          /\ store' = store ++ [row]
          /\ cell row 11 = Some (teknisiOf user username)).
Proof.
  split; [|split; [|split; [|split; [|split]]]].
  - intros. apply teknisi_parseAktivasi.
  - intros. now rewrite !teknisi_parseAktivasi.
  - intros username text userRow handle H.
    rewrite teknisi_parseAktivasi. unfold teknisiOf. rewrite H.
    cbn [or_default or_else truthy]. cbn [removeFirst].
    now rewrite Ascii.eqb_refl.
  - intros username text userRow. rewrite teknisi_parseAktivasi.
    unfold teknisiOf. apply removeFirst_head.
  - intros username text userRow H. rewrite teknisi_parseAktivasi.
    unfold teknisiOf. now apply removeFirst_absent.
  - intros users store username text tanggal store' H.
    unfold handleAktivasi in H.
    destruct (negb (test Pat.aktivasiCommand text)); [discriminate|].
    destruct (getUserData users username) as [user|]; [|discriminate].
    destruct (negb (truthy (trim (remove_match Pat.aktivasiPrefix text))));
      [discriminate|].
    match type of H with
    | context [parseAktivasi ?u ?t ?r] => set (parsed := parseAktivasi u t r) in *
    end.
    destruct (0 <? List.length (if truthy (ao parsed) then [] else ["AO"]));
      [discriminate|].
    destruct (isDuplicate (ao parsed) store); [discriminate|].
    injection H as <-.
    exists user, (rowOf tanggal parsed). split; [reflexivity|].
    split; [reflexivity|].
    unfold rowOf, cell. cbn [nth_error]. subst parsed.
    now rewrite teknisi_parseAktivasi.
Qed.

(** The rule of C6 at a sender whose row holds "@budi_teknisi": the
    technician is "budi_teknisi", whatever the capitals of the sender's
    own name. *)
Lemma teknisi_is_the_resolved_handle_witness :
  cell Fixture.budi 1 = Some "@budi_teknisi"
  /\ teknisi (parseAktivasi "Budi_Teknisi" Fixture.manualText Fixture.budi)
     = "budi_teknisi".
Proof.
  split; [reflexivity|].
  exact (proj1 (proj2 (proj2 teknisi_is_the_resolved_handle))
           "Budi_Teknisi" Fixture.manualText Fixture.budi "budi_teknisi" eq_refl).
Defined.

(** Two handles that do not begin with a single "@": of a doubled one
    the second stays, and an inner one is taken out. *)
Example doubled_at_keeps_one :
  teknisi (parseAktivasi "dua" Fixture.manualText ["3"; "@@dua"; "USER"; "AKTIF"])
  = "@dua"
  /\ teknisi (parseAktivasi "dua" Fixture.manualText ["3"; "du@a"; "USER"; "AKTIF"])
     = "dua".
Proof. split; vm_compute; reflexivity. Qed.

(** C6 as stated fails in the older flow: a registered sender whose
    message names another technician stores that name, not the sender's
    handle. *)
Lemma legacy_teknisi_comes_from_the_text :
  getUserData Fixture.users "budi_teknisi" = Some Fixture.budi
  /\ teknisiOf Fixture.budi "budi_teknisi" = "budi_teknisi"
  /\ option_map teknisi (Legacy.parseLegacy Fixture.legacyText)
     = Some "orang_lain"
  /\ option_map teknisi (Legacy.parseLegacy Fixture.legacyText)
     <> Some (teknisiOf Fixture.budi "budi_teknisi")
  /\ Legacy.handleAktivasi Fixture.users [Fixture.header] "budi_teknisi"
       ("/aktivasi " ++ Fixture.legacyText) "Senin, 15 September 2025"
     = (Saved,
        [Fixture.header;
         ["Senin, 15 September 2025"; ""; ""; ""; ""; ""; "";
          "ZTEG12345678"; "987654321"; ""; ""; "orang_lain"]]).
Proof.
  split; [vm_compute; reflexivity|].
  split; [vm_compute; reflexivity|].
  split; [vm_compute; reflexivity|].
  split; [vm_compute; discriminate|].
  vm_compute. reflexivity.
Qed.

(* ================================================================== *)
(** * Part XVIII. Tallies and rankings *)
(* ================================================================== *)

Lemma obj_get_None : forall o k, obj_get o k = None <-> ~ In k (keysOf o).
Proof.
  induction o as [|[k0 v] o IH]; intro k; simpl.
  - split; [tauto | reflexivity].
  - destruct (String.eqb k0 k) eqn:E.
    + apply String.eqb_eq in E. subst. split; [discriminate | tauto].
    + apply String.eqb_neq in E. rewrite IH. tauto.
Qed.

Lemma obj_get_In : forall o k c,
  NoDup (keysOf o) -> (In (k, c) o <-> obj_get o k = Some c).
Proof.
  induction o as [|[k0 v] o IH]; intros k c Hnd; simpl.
  - split; [tauto | discriminate].
  - inversion Hnd as [|? ? Hnin Hnd']; subst.
    destruct (String.eqb k0 k) eqn:E.
    + apply String.eqb_eq in E. subst k0. split.
      * intros [H | H]; [congruence|].
        exfalso. apply Hnin. change k with (fst (k, c)). now apply in_map.
      * intro H. left. congruence.
    + apply String.eqb_neq in E. rewrite <- (IH k c Hnd'). split.
      * intros [H | H]; [congruence | assumption].
      * tauto.
Qed.

Lemma obj_get_set : forall o k v k',
  obj_get (obj_set o k v) k' = if String.eqb k k' then Some v else obj_get o k'.
Proof.
  induction o as [|[k0 w] o IH]; intros k v k'; simpl.
  - reflexivity.
  - destruct (String.eqb k0 k) eqn:E; simpl.
    + apply String.eqb_eq in E. subst k0.
      now destruct (String.eqb k k').
    + rewrite IH. destruct (String.eqb k0 k') eqn:E1; [|reflexivity].
      apply String.eqb_eq in E1. subst k0. now rewrite String.eqb_sym, E.
Qed.

Lemma keys_set : forall o k v,
  keysOf (obj_set o k v)
  = keysOf o ++ match obj_get o k with Some _ => [] | None => [k] end.
Proof.
  induction o as [|[k0 w] o IH]; intros k v; simpl.
  - reflexivity.
  - destruct (String.eqb k0 k) eqn:E; simpl.
    + now rewrite app_nil_r.
    + now rewrite IH.
Qed.

Lemma In_set : forall o k v k' c,
  In (k', c) (obj_set o k v) -> (k' = k /\ c = v) \/ In (k', c) o.
Proof.
  induction o as [|[k0 w] o IH]; intros k v k' c H; simpl in *.
  - destruct H as [H | []]. injection H as <- <-. now left.
  - destruct (String.eqb k0 k) eqn:E; simpl in H.
    + apply String.eqb_eq in E. subst k0.
      destruct H as [H | H]; [injection H as <- <-; now left | now right; right].
    + destruct H as [H | H]; [now right; left|].
      destruct (IH _ _ _ _ H); [now left | now right; right].
Qed.

Lemma countOf_increment : forall o k k',
  countOf (increment o k) k'
  = countOf o k' + (if String.eqb k k' then 1 else 0).
Proof.
  intros o k k'. unfold countOf, increment. rewrite obj_get_set.
  destruct (String.eqb k k') eqn:E.
  - apply String.eqb_eq in E. subst k'. reflexivity.
  - lia.
Qed.

Lemma keys_increment : forall o k,
  keysOf (increment o k)
  = keysOf o ++ match obj_get o k with Some _ => [] | None => [k] end.
Proof. intros. unfold increment. apply keys_set. Qed.

Lemma tally_as_keys : forall i rows,
  tally i rows = tallyKeys (List.map (groupKey i) rows) [].
Proof.
  intros i rows. unfold tally, tallyKeys. generalize (@nil (string * nat)).
  induction rows as [|row rows IH]; intro o; simpl; [reflexivity | apply IH].
Qed.

Lemma tallyKeys_prefix : forall keys o,
  exists ext, keysOf (tallyKeys keys o) = keysOf o ++ ext.
Proof.
  induction keys as [|k keys IH]; intro o; simpl.
  - exists []. now rewrite app_nil_r.
  - destruct (IH (increment o k)) as [ext H].
    rewrite keys_increment in H. rewrite <- List.app_assoc in H. eauto.
Qed.

Lemma tallyKeys_mem : forall keys o k,
  In k keys \/ In k (keysOf o) -> In k (keysOf (tallyKeys keys o)).
Proof.
  induction keys as [|k0 keys IH]; intros o k H; simpl.
  - destruct H as [[] | H]; assumption.
  - apply IH. destruct H as [[-> | H] | H].
    + right. rewrite keys_increment. apply in_or_app.
      destruct (obj_get o k) eqn:E; [left | right; now left].
      destruct (in_dec string_dec k (keysOf o)) as [Hi | Hn]; [assumption|].
      apply obj_get_None in Hn. congruence.
    + now left.
    + right. rewrite keys_increment. apply in_or_app. now left.
Qed.

Lemma tallyKeys_from : forall keys o k,
  In k (keysOf (tallyKeys keys o)) -> In k keys \/ In k (keysOf o).
Proof.
  induction keys as [|k0 keys IH]; intros o k H; simpl in *.
  - now right.
  - apply IH in H. destruct H as [H | H]; [now left; right|].
    rewrite keys_increment in H. apply in_app_or in H.
    destruct H as [H | H]; [now right|].
    destruct (obj_get o k0); [now elim H|].
    destruct H as [-> | []]. now left; left.
Qed.

Lemma tallyKeys_NoDup : forall keys o,
  NoDup (keysOf o) -> NoDup (keysOf (tallyKeys keys o)).
Proof.
  induction keys as [|k keys IH]; intros o H; simpl; [assumption|].
  apply IH. rewrite keys_increment.
  destruct (obj_get o k) eqn:E.
  - now rewrite app_nil_r.
  - apply obj_get_None in E.
    apply NoDup_app; [assumption | repeat constructor; auto | ].
    intros x Hx [<- | []]. now apply E.
Qed.

Lemma tallyKeys_count : forall keys o k,
  countOf (tallyKeys keys o) k = countOf o k + count_occ string_dec keys k.
Proof.
  induction keys as [|k0 keys IH]; intros o k; simpl; [lia|].
  rewrite IH, countOf_increment.
  destruct (string_dec k0 k) as [-> | Hne].
  - rewrite String.eqb_refl. lia.
  - apply String.eqb_neq in Hne. rewrite Hne. lia.
Qed.

Lemma tallyKeys_positive : forall keys o,
  (forall k c, In (k, c) o -> 0 < c) ->
  forall k c, In (k, c) (tallyKeys keys o) -> 0 < c.
Proof.
  induction keys as [|k0 keys IH]; intros o H k c Hin; simpl in *.
  - eauto.
  - eapply IH; [|exact Hin]. intros k' c' H'.
    unfold increment in H'. apply In_set in H'.
    destruct H' as [[_ ->] | H']; [lia | eauto].
Qed.

(** What a tally holds: every key met, once, with the number of times
    it was met. *)
Lemma tally_entries : forall i rows k c,
  In (k, c) (tally i rows) <-> c = occurrences i rows k /\ 0 < c.
Proof.
  intros i rows k c. rewrite tally_as_keys. unfold occurrences.
  set (keys := List.map (groupKey i) rows).
  assert (Hnd : NoDup (keysOf (tallyKeys keys []))).
  { apply tallyKeys_NoDup. constructor. }
  pose proof (tallyKeys_count keys [] k) as Hc. unfold countOf in Hc at 2.
  simpl obj_get in Hc. simpl in Hc.
  split.
  - intro H. split.
    + apply (obj_get_In _ _ _ Hnd) in H. unfold countOf in Hc.
      rewrite H in Hc. exact Hc.
    + eapply tallyKeys_positive; [|exact H]. intros ? ? [].
  - intros [-> Hpos].
    assert (Hin : In k (keysOf (tallyKeys keys []))).
    { apply tallyKeys_mem. left.
      apply (count_occ_In string_dec). exact Hpos. }
    apply (obj_get_In _ _ _ Hnd). unfold countOf in Hc.
    destruct (obj_get (tallyKeys keys []) k) as [n|] eqn:E.
    + now rewrite Hc.
    + apply obj_get_None in E. now elim E.
Qed.

Lemma tally_NoDup : forall i rows, NoDup (keysOf (tally i rows)).
Proof. intros. rewrite tally_as_keys. apply tallyKeys_NoDup. constructor. Qed.

(** Keys enter a tally in the order in which they are first met. *)
Lemma tally_first_met_order : forall i rows k1 k2,
  first_before k1 k2 (List.map (groupKey i) rows) ->
  precedes k1 k2 (keysOf (tally i rows)).
Proof.
  intros i rows k1 k2 [Hne [l1 [l2 [Hl [Hn2 Hin2]]]]].
  rewrite tally_as_keys, Hl. unfold tallyKeys.
  rewrite fold_left_app. cbn [fold_left].
  set (o1 := fold_left increment l1 []).
  set (o2 := increment o1 k1).
  assert (H1 : In k1 (keysOf o2)).
  { apply (tallyKeys_mem [k1] o1). left. now left. }
  assert (H2 : ~ In k2 (keysOf o2)).
  { intro H.
    assert (H' : In k2 (keysOf (tallyKeys (l1 ++ [k1]) [])))
      by (unfold tallyKeys; rewrite fold_left_app; exact H).
    apply tallyKeys_from in H'.
    destruct H' as [H' | []]. apply in_app_or in H'.
    destruct H' as [H' | [H' | []]]; [now apply Hn2 | now apply Hne]. }
  destruct (tallyKeys_prefix l2 o2) as [ext Hext].
  assert (H3 : In k2 ext).
  { assert (H : In k2 (keysOf (tallyKeys l2 o2)))
      by (apply tallyKeys_mem; now left).
    rewrite Hext in H. apply in_app_or in H. destruct H; [now elim H2 | assumption]. }
  apply in_split in H1. destruct H1 as [p1 [p2 Hp]].
  apply in_split in H3. destruct H3 as [e1 [e2 He]].
  exists p1, (p2 ++ e1), e2.
  change (fold_left increment l2 o2) with (tallyKeys l2 o2).
  rewrite Hext, Hp, He.
  now rewrite <- !List.app_assoc.
Qed.

Section Ranking.

Lemma precedes_cons : forall (A : Type) (a b x : A) l,
  precedes a b l -> precedes a b (x :: l).
Proof.
  intros A a b x l [l1 [l2 [l3 ->]]]. now exists (x :: l1), l2, l3.
Qed.

Lemma precedes_app_r : forall (A : Type) (a b : A) l0 l,
  precedes a b l -> precedes a b (l0 ++ l).
Proof.
  intros A a b l0 l H. induction l0 as [|x l0 IH]; [assumption|].
  simpl. now apply precedes_cons.
Qed.

Lemma precedes_head : forall (A : Type) (a b : A) l,
  In b l -> precedes a b (a :: l).
Proof.
  intros A a b l H. apply in_split in H. destruct H as [l2 [l3 ->]].
  now exists [], l2, l3.
Qed.

Lemma precedes_inv : forall (A : Type) (a b x : A) l,
  precedes a b (x :: l) -> (a = x /\ In b l) \/ precedes a b l.
Proof.
  intros A a b x l [l1 [l2 [l3 H]]]. destruct l1 as [|y l1]; simpl in H.
  - injection H as <- ->. left. split; [reflexivity|].
    apply in_or_app. right. now left.
  - injection H as <- ->. right. now exists l1, l2, l3.
Qed.

Lemma precedes_filter : forall (A : Type) (f : A -> bool) (a b : A) l,
  precedes a b l -> f a = true -> f b = true -> precedes a b (filter f l).
Proof.
  intros A f a b l [l1 [l2 [l3 ->]]] Ha Hb.
  exists (filter f l1), (filter f l2), (filter f l3).
  rewrite filter_app. cbn [filter]. rewrite Ha.
  rewrite filter_app. cbn [filter]. now rewrite Hb.
Qed.

Lemma precedes_pairs : forall (o : JsObject) k1 k2,
  precedes k1 k2 (keysOf o) ->
  exists c1 c2, precedes (k1, c1) (k2, c2) o.
Proof.
  intros o k1 k2 [l1 [l2 [l3 H]]]. unfold keysOf in H.
  apply map_eq_app in H. destruct H as [o1 [o' [-> [H1 H]]]].
  apply map_eq_cons in H. destruct H as [[k c1] [o'' [-> [Hk H]]]].
  apply map_eq_app in H. destruct H as [o2 [o''' [-> [H2 H]]]].
  apply map_eq_cons in H. destruct H as [[k' c2] [o3 [-> [Hk' H3]]]].
  simpl in Hk, Hk'. subst k k'.
  exists c1, c2. now exists o1, o2, o3.
Qed.

Context {A : Type} (compare : A -> A -> Z).

Lemma In_insertSorted : forall x z l,
  In z (insertSorted compare x l) <-> z = x \/ In z l.
Proof.
  intros x z. induction l as [|y l IH]; simpl.
  - split; intros [H | H]; auto.
  - destruct (compare x y <=? 0)%Z; simpl.
    + split; intros [H | H]; auto.
    + rewrite IH. split; intros [H | [H | H]]; auto.
Qed.

Lemma In_sortBy : forall z l, In z (sortBy compare l) <-> In z l.
Proof.
  intro z. induction l as [|x l IH]; simpl; [tauto|].
  rewrite In_insertSorted, IH. split; intros [H | H]; auto.
Qed.

Lemma insertSorted_perm : forall x l,
  Permutation (insertSorted compare x l) (x :: l).
Proof.
  intro x. induction l as [|y l IH]; simpl; [reflexivity|].
  destruct (compare x y <=? 0)%Z; [reflexivity|].
  rewrite IH. apply perm_swap.
Qed.

Lemma sortBy_perm : forall l, Permutation (sortBy compare l) l.
Proof.
  induction l as [|x l IH]; simpl; [reflexivity|].
  now rewrite insertSorted_perm, IH.
Qed.

(** Putting one more element in place keeps the order of those that
    are there. *)
Lemma insertSorted_keeps_order : forall a b x l,
  precedes a b l -> precedes a b (insertSorted compare x l).
Proof.
  intros a b x. induction l as [|y l IH]; intro H.
  - destruct H as [[|? ?] [? [? H]]]; discriminate.
  - simpl. destruct (compare x y <=? 0)%Z; [now apply precedes_cons|].
    apply precedes_inv in H. destruct H as [[-> Hin] | H].
    + apply precedes_head. apply In_insertSorted. now right.
    + apply precedes_cons. now apply IH.
Qed.

(** An element is put before every element that the comparison does
    not place before it. *)
Lemma insertSorted_before_ties : forall a b l,
  In b l -> (compare a b <= 0)%Z -> precedes a b (insertSorted compare a l).
Proof.
  intros a b. induction l as [|y l IH]; intros Hin Hc; [now elim Hin|].
  simpl. destruct (compare a y <=? 0)%Z eqn:E.
  - now apply precedes_head.
  - destruct Hin as [-> | Hin].
    + apply Z.leb_gt in E. lia.
    + apply precedes_cons. now apply IH.
Qed.

(** The sort is stable. *)
Lemma sortBy_stable : forall a b l,
  precedes a b l -> (compare a b <= 0)%Z -> precedes a b (sortBy compare l).
Proof.
  intros a b. induction l as [|x l IH]; intros H Hc.
  - destruct H as [[|? ?] [? [? H]]]; discriminate.
  - simpl. apply precedes_inv in H. destruct H as [[-> Hin] | H].
    + apply insertSorted_before_ties; [|assumption]. now apply In_sortBy.
    + apply insertSorted_keeps_order. now apply IH.
Qed.

End Ranking.

Lemma sortBy_descending : forall l, descending (sortBy byCountDesc l).
Proof.
  unfold descending. induction l as [|x l IH]; simpl; [constructor|].
  revert IH. generalize (sortBy byCountDesc l). clear l.
  induction l as [|y l IH]; intro Hs; simpl.
  - constructor; [constructor | constructor].
  - inversion Hs as [|? ? Hs' Hall]; subst.
    destruct (byCountDesc x y <=? 0)%Z eqn:E.
    + apply Z.leb_le in E. unfold byCountDesc in E.
      constructor; [assumption|]. constructor; [lia|].
      eapply Forall_impl; [|exact Hall]. simpl. intros z Hz. lia.
    + apply Z.leb_gt in E. unfold byCountDesc in E.
      constructor; [now apply IH|].
      apply Forall_forall. intros z Hz. apply In_insertSorted in Hz.
      destruct Hz as [-> | Hz]; [lia|].
      rewrite Forall_forall in Hall. now apply Hall.
Qed.

Lemma insertIndex_perm : forall e l, Permutation (insertIndex e l) (e :: l).
Proof.
  intro e. induction l as [|y l IH]; simpl; [reflexivity|].
  destruct (parseInt (fst e) <=? parseInt (fst y))%Z; [reflexivity|].
  rewrite IH. apply perm_swap.
Qed.

Lemma filter_split_perm : forall (A : Type) (f : A -> bool) l,
  Permutation (filter f l ++ filter (fun x => negb (f x)) l) l.
Proof.
  intros A f. induction l as [|x l IH]; simpl; [reflexivity|].
  destruct (f x); simpl.
  - now constructor.
  - rewrite <- Permutation_middle. now constructor.
Qed.

Lemma precedes_across : forall (A : Type) (a b : A) l1 l2,
  In a l1 -> In b l2 -> precedes a b (l1 ++ l2).
Proof.
  intros A a b l1 l2 Ha Hb.
  apply in_split in Ha. destruct Ha as [p1 [p2 ->]].
  apply in_split in Hb. destruct Hb as [q1 [q2 ->]].
  exists p1, (p2 ++ q1), q2. now rewrite <- !List.app_assoc.
Qed.

Lemma indexEntries_perm : forall l,
  Permutation (fold_right insertIndex [] l) l.
Proof.
  induction l as [|x l IH]; simpl; [reflexivity|].
  now rewrite insertIndex_perm, IH.
Qed.

Lemma entries_perm : forall o, Permutation (entries o) o.
Proof.
  intro o. unfold entries.
  rewrite <- (filter_split_perm _ (fun e => isArrayIndex (fst e)) o) at 3.
  apply Permutation_app_tail.
  induction (filter (fun e => isArrayIndex (fst e)) o) as [|x l IH];
    simpl; [reflexivity|].
  now rewrite insertIndex_perm, IH.
Qed.

Lemma ranking_perm : forall o, Permutation (ranking o) o.
Proof.
  intro o. unfold ranking. rewrite sortBy_perm. apply entries_perm.
Qed.

Lemma toUpperCase_idem : forall s, toUpperCase (toUpperCase s) = toUpperCase s.
Proof.
  induction s as [|c s IH]; [reflexivity|].
  change (String (toUpperChar (toUpperChar c)) (toUpperCase (toUpperCase s))
          = String (toUpperChar c) (toUpperCase s)).
  now rewrite toUpperChar_idem, IH.
Qed.

(** C9, as amended. The ranking of a tally is in descending order of
    count and holds every grouping key (upper case, "-" for a missing
    or empty cell) once, with the number of rows that have it.  Two keys
    with equal counts of which neither is an array index (the decimal
    form of an integer below 2^32 - 1) stand in the order in which they
    were first met; e.g. B (5), C (5), A (3) with B met before C are
    ranked B, C, A.  A key that is an array index stands before every
    key with the same count that is none. *)
Theorem ranking_is_descending_and_stable : forall i rows,
  descending (ranking (tally i rows))
  /\ NoDup (keysOf (ranking (tally i rows)))
  /\ (forall k c,
        In (k, c) (ranking (tally i rows))
        <-> c = occurrences i rows k /\ 0 < c)
  /\ (forall k1 k2 c,
        In (k1, c) (ranking (tally i rows)) ->
        In (k2, c) (ranking (tally i rows)) ->
        isArrayIndex k1 = false -> isArrayIndex k2 = false ->
        first_before k1 k2 (List.map (groupKey i) rows) ->
        precedes (k1, c) (k2, c) (ranking (tally i rows)))
  /\ (forall k1 k2 c,
        In (k1, c) (ranking (tally i rows)) ->
        In (k2, c) (ranking (tally i rows)) ->
        isArrayIndex k1 = true -> isArrayIndex k2 = false ->
        precedes (k1, c) (k2, c) (ranking (tally i rows)))
  /\ (forall row,
        groupKey i row = toUpperCase (groupKey i row)
        /\ (or_default (cell row i) "" = "" -> groupKey i row = "-"))
  /\ byTeknisi (psRankings Fixture.rankingRows) = [("B", 5); ("C", 5); ("A", 3)].
Proof.
  intros i rows.
  assert (Hperm : Permutation (ranking (tally i rows)) (tally i rows))
    by apply ranking_perm.
  assert (Hin : forall e, In e (ranking (tally i rows)) <-> In e (tally i rows)).
  { intro e. split; apply Permutation_in; [assumption | now symmetry]. }
  split; [apply sortBy_descending|].
  split.
  { unfold keysOf. eapply Permutation_NoDup.
    - symmetry. apply Permutation_map. exact Hperm.
    - apply tally_NoDup. }
  split.
  { intros k c. rewrite Hin. apply tally_entries. }
  split.
  { intros k1 k2 c H1 H2 Hn1 Hn2 Hfirst.
    apply Hin in H1. apply Hin in H2.
    pose proof (tally_NoDup i rows) as Hnd.
    destruct (precedes_pairs _ _ _ (tally_first_met_order _ _ _ _ Hfirst))
      as [c1 [c2 Hp]].
    assert (Hc1 : c1 = c).
    { destruct Hp as [l1 [l2 [l3 Hp]]].
      assert (Hi : In (k1, c1) (tally i rows))
        by (rewrite Hp; apply in_or_app; right; now left).
      apply (obj_get_In _ _ _ Hnd) in Hi. apply (obj_get_In _ _ _ Hnd) in H1.
      congruence. }
    assert (Hc2 : c2 = c).
    { destruct Hp as [l1 [l2 [l3 Hp]]].
      assert (Hi : In (k2, c2) (tally i rows)).
      { rewrite Hp. apply in_or_app. right. right.
        apply in_or_app. right. now left. }
      apply (obj_get_In _ _ _ Hnd) in Hi. apply (obj_get_In _ _ _ Hnd) in H2.
      congruence. }
    subst c1 c2. unfold ranking. apply sortBy_stable.
    - unfold entries. apply precedes_app_r.
      apply precedes_filter; [exact Hp | |]; simpl; now (rewrite Hn1 || rewrite Hn2).
    - unfold byCountDesc. simpl. lia. }
  split.
  { intros k1 k2 c H1 H2 Hi1 Hn2.
    apply Hin in H1. apply Hin in H2.
    unfold ranking. apply sortBy_stable.
    - unfold entries. apply precedes_across.
      + eapply Permutation_in; [symmetry; apply indexEntries_perm|].
        apply filter_In. split; [assumption | exact Hi1].
      + apply filter_In. split; [assumption|]. simpl. now rewrite Hn2.
    - unfold byCountDesc. simpl. lia. }
  split.
  { intro row. unfold groupKey. split.
    - now rewrite toUpperCase_idem.
    - intro H. destruct (cell row i) as [s|]; [|reflexivity].
      simpl in H. unfold or_else in *. destruct s; [reflexivity|].
      simpl in H. discriminate. }
  vm_compute. reflexivity.
Qed.

(** The rule of C9 at the rows of the ranking example: B is met before
    C, both five times, and B is ranked before C. *)
Lemma ranking_is_descending_and_stable_witness :
  first_before "B" "C" (List.map (groupKey teknisiColumn) Fixture.rankingRows)
  /\ precedes ("B", 5) ("C", 5) (ranking (tally teknisiColumn Fixture.rankingRows)).
Proof.
  assert (Hf : first_before "B" "C"
                 (List.map (groupKey teknisiColumn) Fixture.rankingRows)).
  { split; [discriminate|].
    exists [], ["C"; "A"; "B"; "C"; "A"; "B"; "C"; "A"; "B"; "C"; "B"; "C"].
    split; [vm_compute; reflexivity|]. split; [intros []|]. now left. }
  split; [exact Hf|].
  apply (proj1 (proj2 (proj2 (proj2
           (ranking_is_descending_and_stable teknisiColumn Fixture.rankingRows)))));
    try reflexivity; try exact Hf.
  - vm_compute. tauto.
  - vm_compute. tauto.
Defined.

(** C9 as stated fails: the work zone MEDAN is met before the work
    zone 7, both once, and 7 is ranked first. *)
Lemma numbered_key_is_ranked_first :
  List.map (groupKey workzoneColumn) Fixture.numberedZoneRows = ["MEDAN"; "7"]
  /\ first_before "MEDAN" "7"
       (List.map (groupKey workzoneColumn) Fixture.numberedZoneRows)
  /\ byWorkzone (psRankings Fixture.numberedZoneRows) = [("7", 1); ("MEDAN", 1)]
  /\ precedes ("7", 1) ("MEDAN", 1)
       (ranking (tally workzoneColumn Fixture.numberedZoneRows))
  /\ ~ precedes ("MEDAN", 1) ("7", 1)
         (ranking (tally workzoneColumn Fixture.numberedZoneRows)).
Proof.
  assert (Hr : ranking (tally workzoneColumn Fixture.numberedZoneRows)
               = [("7", 1); ("MEDAN", 1)]) by (vm_compute; reflexivity).
  split; [vm_compute; reflexivity|].
  split.
  { split; [discriminate|]. exists [], ["7"].
    split; [vm_compute; reflexivity|]. split; [intros [] | now left]. }
  split; [vm_compute; reflexivity|].
  rewrite Hr. split.
  - now exists [], [], [].
  - intros [l1 [l2 [l3 H]]].
    destruct l1 as [|x [|y l1]]; simpl in H.
    + discriminate.
    + injection H; intros; destruct l2; discriminate.
    + injection H; intros; destruct l1; discriminate.
Qed.

(* ================================================================== *)
(** * Part XIX. The cleanup of duplicates *)
(* ================================================================== *)

Lemma dedupe_length : forall rows seen,
  List.length (fst (dedupe seen rows)) + snd (dedupe seen rows)
  = List.length rows.
Proof.
  induction rows as [|row rows IH]; intro seen; [reflexivity|].
  cbn [dedupe].
  match goal with |- context [if ?c then _ else _] => destruct c end.
  - specialize (IH (normalizeAo (or_default (cell row 1) "") :: seen)).
    destruct (dedupe (normalizeAo (or_default (cell row 1) "") :: seen) rows).
    simpl in *. lia.
  - specialize (IH seen). destruct (dedupe seen rows). simpl in *. lia.
Qed.

Lemma dedupe_incl : forall rows seen row,
  In row (fst (dedupe seen rows)) -> In row rows.
Proof.
  induction rows as [|r rows IH]; intros seen row H; [assumption|].
  cbn [dedupe] in H.
  match type of H with context [if ?c then _ else _] => destruct c end.
  - specialize (IH (normalizeAo (or_default (cell r 1) "") :: seen) row).
    destruct (dedupe (normalizeAo (or_default (cell r 1) "") :: seen) rows).
    simpl in *. destruct H as [H | H]; [now left | right; now apply IH].
  - specialize (IH seen row). destruct (dedupe seen rows).
    simpl in *. right. now apply IH.
Qed.

Lemma writeRows_length : forall values sheet,
  List.length values <= List.length sheet ->
  List.length (writeRows values sheet) = List.length sheet.
Proof.
  induction values as [|v vs IH]; intros sheet H; simpl; [reflexivity|].
  destruct sheet as [|r rs]; simpl in *; [lia|].
  rewrite IH; [reflexivity | lia].
Qed.

(** The rows after the written ones are as they were. *)
Lemma writeRows_beyond : forall values sheet i,
  List.length values <= i ->
  nth_error (writeRows values sheet) i = nth_error sheet i.
Proof.
  induction values as [|v vs IH]; intros sheet i H; simpl; [reflexivity|].
  simpl in H. destruct i as [|i]; [lia|].
  destruct sheet as [|r rs]; simpl.
  - rewrite IH by lia. now destruct i.
  - apply IH. lia.
Qed.

Lemma writeRows_within : forall values sheet i v r,
  nth_error values i = Some v ->
  nth_error sheet i = Some r ->
  nth_error (writeRows values sheet) i = Some (writeRow v r).
Proof.
  induction values as [|v0 vs IH]; intros sheet i v r Hv Hr.
  - now destruct i.
  - destruct sheet as [|r0 rs]; [now destruct i|].
    destruct i as [|i]; simpl in *.
    + now injection Hv as <-; injection Hr as <-.
    + now apply IH.
Qed.

(** A written row holds the cells that were written. *)
Lemma writeRow_cell : forall v r j x,
  cell v j = Some x -> cell (writeRow v r) j = Some x.
Proof.
  intros v r j x H. unfold cell, writeRow in *.
  rewrite nth_error_app1; [assumption|].
  apply nth_error_Some. congruence.
Qed.

(** Whatever the cleanup answers, it leaves the rows after the header
    and the survivors as they were. *)
Lemma handleClear_frame : forall (users : Sheet) (username : string)
    (header : Row) (rows : list Row) i,
  S (List.length (fst (dedupe [] rows))) <= i ->
  nth_error (snd (handleClear users (header :: rows) username)) i
  = nth_error (header :: rows) i.
Proof.
  intros users username header rows i Hi. unfold handleClear.
  destruct (negb (isAdmin users username)); [reflexivity|].
  destruct rows as [|r rows']; [reflexivity|].
  destruct (duplicateCountOf (r :: rows') =? 0); [reflexivity|].
  destruct (updateSheetData (header :: r :: rows')
              (List.length (uniqueDataOf header (r :: rows')))
              (uniqueDataOf header (r :: rows'))) as [store'|] eqn:E;
    [|reflexivity].
  unfold updateSheetData in E.
  match type of E with (if ?c then _ else _) = _ => destruct c end;
    [|discriminate].
  assert (Hs : store' = writeRows (uniqueDataOf header (r :: rows'))
                          (header :: r :: rows')) by congruence.
  rewrite Hs. unfold snd. apply writeRows_beyond. exact Hi.
Qed.

(** C10. Let the store hold a header and n data rows of which k
    survive the cleanup.  Whatever the cleanup does, every row after the
    first k + 1 is afterwards what it was before.  When k < n (and the
    sender is an administrator, the sheet within the columns A to L),
    the cleanup writes the header and the k surviving rows over the
    first k + 1 rows of the store, and the store keeps its n + 1 rows. *)
Theorem clear_leaves_the_rows_after_the_survivors :
  forall (users store : Sheet) (username : string) (header : Row)
         (rows : list Row),
  store = header :: rows ->
  (forall i,
     List.length (fst (dedupe [] rows)) + 1 <= i ->
     nth_error (snd (handleClear users store username)) i = nth_error store i)
  /\ (isAdmin users username = true ->
      Forall (fun r => List.length r <= columnsAtoL) store ->
      List.length (fst (dedupe [] rows)) < List.length rows ->
      exists store',
        handleClear users store username
        = (Cleaned (List.length rows - List.length (fst (dedupe [] rows))),
           store')
        /\ List.length store' = List.length store
        /\ (forall i row old,
              nth_error (uniqueDataOf header rows) i = Some row ->
              nth_error store i = Some old ->
              nth_error store' i = Some (writeRow row old))
        /\ (forall i row j v,
              nth_error (uniqueDataOf header rows) i = Some row ->
              cell row j = Some v ->
              exists row',
                nth_error store' i = Some row' /\ cell row' j = Some v)).
Proof.
  intros users store username header rows ->. split.
  { intros i Hi. apply handleClear_frame. lia. }
  intros Hadmin Hwide Hk.
  pose proof (dedupe_length rows []) as Hlen.
  assert (Hu : List.length (uniqueDataOf header rows)
               = S (List.length (fst (dedupe [] rows))))
    by reflexivity.
  assert (Hfit : forallb (fun r => List.length r <=? columnsAtoL)
                   (uniqueDataOf header rows) = true).
  { apply forallb_forall. intros r Hr. apply Nat.leb_le.
    rewrite Forall_forall in Hwide. apply Hwide.
    destruct Hr as [<- | Hr]; [now left|]. right.
    eapply dedupe_incl. exact Hr. }
  exists (writeRows (uniqueDataOf header rows) (header :: rows)).
  split.
  { unfold handleClear. rewrite Hadmin. cbn [negb].
    destruct rows as [|r rows']; [simpl in Hk; lia|].
    unfold duplicateCountOf.
    replace (snd (dedupe [] (r :: rows')) =? 0) with false
      by (symmetry; apply Nat.eqb_neq; lia).
    unfold updateSheetData. rewrite Nat.leb_refl, Hfit. cbn [andb].
    f_equal. f_equal. lia. }
  split.
  { apply writeRows_length. rewrite Hu. cbn [List.length]. lia. }
  split.
  { intros i row old Hr Ho. now apply writeRows_within. }
  intros i row j v Hr Hc.
  assert (Hi : i < List.length (header :: rows)).
  { assert (H : i < List.length (uniqueDataOf header rows))
      by (apply nth_error_Some; congruence).
    rewrite Hu in H. cbn [List.length]. lia. }
  destruct (nth_error (header :: rows) i) as [old|] eqn:Eo.
  - exists (writeRow row old). split.
    + now apply writeRows_within.
    + now apply writeRow_cell.
  - apply nth_error_None in Eo. lia.
Qed.

(** The cleanup of a store of three rows whose second repeats the first:
    the header and the two surviving rows are written over rows 1 to 3,
    and row 4 still holds what it held. *)
Lemma clear_leaves_the_rows_after_the_survivors_witness :
  isAdmin Fixture.users "sari_admin" = true
  /\ Forall (fun r => List.length r <= columnsAtoL) Fixture.storeWithRepeat
  /\ fst (dedupe [] [Fixture.rowA; Fixture.rowA'; Fixture.rowB])
     = [Fixture.rowA; Fixture.rowB]
  /\ nth_error
       (snd (handleClear Fixture.users Fixture.storeWithRepeat "sari_admin")) 3
     = Some Fixture.rowB
  /\ (exists store',
        handleClear Fixture.users Fixture.storeWithRepeat "sari_admin"
        = (Cleaned 1, store')
        /\ List.length store' = 4)
  /\ handleClear Fixture.users Fixture.storeWithRepeat "sari_admin"
     = (Cleaned 1,
        [Fixture.header; Fixture.rowA; Fixture.rowB; Fixture.rowB]).
Proof.
  assert (Ha : isAdmin Fixture.users "sari_admin" = true) by (vm_compute; reflexivity).
  assert (Hw : Forall (fun r => List.length r <= columnsAtoL) Fixture.storeWithRepeat).
  { repeat constructor; vm_compute; intro H; discriminate. }
  assert (Hd : fst (dedupe [] [Fixture.rowA; Fixture.rowA'; Fixture.rowB])
               = [Fixture.rowA; Fixture.rowB]) by (vm_compute; reflexivity).
  assert (Hk : List.length (fst (dedupe [] [Fixture.rowA; Fixture.rowA'; Fixture.rowB]))
               < List.length [Fixture.rowA; Fixture.rowA'; Fixture.rowB])
    by (rewrite Hd; simpl; lia).
  destruct (clear_leaves_the_rows_after_the_survivors
              Fixture.users Fixture.storeWithRepeat "sari_admin"
              Fixture.header [Fixture.rowA; Fixture.rowA'; Fixture.rowB]
              eq_refl) as [Hframe Hwrite].
  split; [exact Ha|]. split; [exact Hw|]. split; [exact Hd|]. split.
  - rewrite (Hframe 3); [reflexivity | rewrite Hd; simpl; lia].
  - split.
    + destruct (Hwrite Ha Hw Hk) as [store' [He [Hl _]]].
      exists store'. split; [rewrite He, Hd; reflexivity | exact Hl].
    + vm_compute. reflexivity.
Defined.

(* ================================================================== *)
(** * Part XX. The cleanup, run again *)
(* ================================================================== *)

Lemma existsb_eqb_In : forall (k : string) seen,
  existsb (String.eqb k) seen = true <-> In k seen.
Proof.
  intros k seen. rewrite existsb_exists. split.
  - intros [x [Hx E]]. apply String.eqb_eq in E. now subst.
  - intro H. exists k. split; [assumption | apply String.eqb_refl].
Qed.

Lemma dedupe_cons : forall seen row rows,
  dedupe seen (row :: rows)
  = if negb (existsb (String.eqb (aoKey row)) seen) && truthy (aoKey row)
    then (row :: fst (dedupe (aoKey row :: seen) rows),
          snd (dedupe (aoKey row :: seen) rows))
    else (fst (dedupe seen rows), S (snd (dedupe seen rows))).
Proof.
  intros seen row rows. cbn [dedupe]. fold (aoKey row).
  destruct (negb (existsb (String.eqb (aoKey row)) seen) && truthy (aoKey row)).
  - now destruct (dedupe (aoKey row :: seen) rows).
  - now destruct (dedupe seen rows).
Qed.

Lemma dedupe_ext : forall rows s1 s2,
  (forall k, In k s1 <-> In k s2) -> dedupe s1 rows = dedupe s2 rows.
Proof.
  induction rows as [|row rows IH]; intros s1 s2 H; [reflexivity|].
  rewrite !dedupe_cons.
  assert (E : existsb (String.eqb (aoKey row)) s1
              = existsb (String.eqb (aoKey row)) s2).
  { apply eq_true_iff_eq. rewrite !existsb_eqb_In. apply H. }
  rewrite E.
  rewrite (IH (aoKey row :: s1) (aoKey row :: s2)), (IH s1 s2); auto.
  intro k. simpl. rewrite H. tauto.
Qed.

(** The rows kept have non-empty keys that are new and pairwise distinct. *)
Lemma dedupe_kept_keys : forall rows seen,
  NoDup (List.map aoKey (fst (dedupe seen rows)))
  /\ forall row, In row (fst (dedupe seen rows)) ->
       truthy (aoKey row) = true /\ ~ In (aoKey row) seen.
Proof.
  induction rows as [|row rows IH]; intro seen.
  - simpl. split; [constructor | tauto].
  - rewrite dedupe_cons.
    destruct (negb (existsb (String.eqb (aoKey row)) seen) && truthy (aoKey row)) eqn:E.
    + apply andb_true_iff in E. destruct E as [E1 E2].
      apply negb_true_iff in E1.
      destruct (IH (aoKey row :: seen)) as [Hn Hk]. simpl. split.
      * constructor; [|assumption]. intro Hin. apply in_map_iff in Hin.
        destruct Hin as [r [Er Hr]]. apply Hk in Hr. destruct Hr as [_ Hr].
        apply Hr. left. now symmetry.
      * intros r [<- | Hr].
        -- split; [assumption|]. intro Hin. apply existsb_eqb_In in Hin. congruence.
        -- apply Hk in Hr. destruct Hr as [Ht Hr]. split; [assumption|].
           intro Hin. apply Hr. now right.
    + simpl. apply IH.
Qed.

(** Every row with a non-empty key has its key among the seen ones or
    among the kept rows. *)
Lemma dedupe_covers : forall rows seen row,
  In row rows -> truthy (aoKey row) = true ->
  In (aoKey row) seen \/ In (aoKey row) (List.map aoKey (fst (dedupe seen rows))).
Proof.
  induction rows as [|r rows IH]; intros seen row Hin Ht; [contradiction|].
  rewrite dedupe_cons.
  destruct (negb (existsb (String.eqb (aoKey r)) seen) && truthy (aoKey r)) eqn:E.
  - simpl. destruct Hin as [<- | Hin]; [right; now left|].
    destruct (IH (aoKey r :: seen) row Hin Ht) as [[H | H] | H].
    + right. left. assumption.
    + now left.
    + right. now right.
  - simpl. destruct Hin as [<- | Hin]; [|now apply IH].
    rewrite Ht, andb_true_r in E. apply negb_false_iff in E.
    left. now apply existsb_eqb_In.
Qed.

Lemma dedupe_app : forall l1 l2 seen,
  dedupe seen (l1 ++ l2)
  = (fst (dedupe seen l1)
       ++ fst (dedupe (List.map aoKey (fst (dedupe seen l1)) ++ seen) l2),
     snd (dedupe seen l1)
       + snd (dedupe (List.map aoKey (fst (dedupe seen l1)) ++ seen) l2)).
Proof.
  induction l1 as [|row l1 IH]; intros l2 seen.
  - simpl. now destruct (dedupe seen l2).
  - rewrite <- List.app_comm_cons, !dedupe_cons.
    destruct (negb (existsb (String.eqb (aoKey row)) seen) && truthy (aoKey row)).
    + rewrite IH. cbn [fst snd List.map]. 
      rewrite (dedupe_ext l2
                 (List.map aoKey (fst (dedupe (aoKey row :: seen) l1)) ++ aoKey row :: seen)
                 ((aoKey row :: List.map aoKey (fst (dedupe (aoKey row :: seen) l1))) ++ seen)).
      * reflexivity.
      * intro k. simpl. rewrite !in_app_iff. simpl. tauto.
    + rewrite IH. reflexivity.
Qed.

Lemma dedupe_distinct : forall l seen,
  NoDup (List.map aoKey l) ->
  (forall row, In row l -> truthy (aoKey row) = true /\ ~ In (aoKey row) seen) ->
  dedupe seen l = (l, 0).
Proof.
  induction l as [|row l IH]; intros seen Hn Hk; [reflexivity|].
  rewrite dedupe_cons. simpl in Hn. inversion Hn as [|? ? Hnot Hn']; subst.
  destruct (Hk row (or_introl eq_refl)) as [Ht Hs].
  assert (E : existsb (String.eqb (aoKey row)) seen = false).
  { apply not_true_is_false. intro H. apply existsb_eqb_In in H. contradiction. }
  rewrite E, Ht. simpl.
  rewrite (IH (aoKey row :: seen)); [reflexivity | assumption |].
  intros r Hr. destruct (Hk r (or_intror Hr)) as [Ht' Hs'].
  split; [assumption|]. intros [H | H]; [|contradiction].
  apply Hnot. rewrite H. now apply in_map.
Qed.

Lemma dedupe_all_dropped : forall l seen,
  (forall row, In row l -> truthy (aoKey row) = false \/ In (aoKey row) seen) ->
  dedupe seen l = ([], List.length l).
Proof.
  induction l as [|row l IH]; intros seen H; [reflexivity|].
  rewrite dedupe_cons.
  assert (E : negb (existsb (String.eqb (aoKey row)) seen) && truthy (aoKey row) = false).
  { destruct (H row (or_introl eq_refl)) as [Ht | Hs].
    - rewrite Ht. apply andb_false_r.
    - apply existsb_eqb_In in Hs. now rewrite Hs. }
  rewrite E, IH; [reflexivity|]. intros r Hr. apply H. now right.
Qed.

Lemma writeRow_self : forall r : Row, writeRow r r = r.
Proof.
  intro r. unfold writeRow. rewrite skipn_all. apply app_nil_r.
Qed.

Lemma writeRows_self_app : forall (l b : list Row), writeRows l (l ++ b) = l ++ b.
Proof.
  induction l as [|r l IH]; intro b; simpl; [reflexivity|].
  now rewrite writeRow_self, IH.
Qed.

Lemma writeRows_app : forall (vs a b : list Row),
  List.length vs = List.length a ->
  writeRows vs (a ++ b) = writeRows vs a ++ b.
Proof.
  induction vs as [|v vs IH]; intros a b H; destruct a as [|r a];
    simpl in *; try discriminate; [reflexivity|].
  rewrite IH; [reflexivity | lia].
Qed.

Lemma aoKey_writeRow : forall v r : Row,
  truthy (aoKey v) = true -> aoKey (writeRow v r) = aoKey v.
Proof.
  intros v r H. unfold aoKey in *.
  destruct (cell v 1) as [x|] eqn:E.
  - now rewrite (writeRow_cell v r 1 x E).
  - discriminate H.
Qed.

Lemma writeRows_keys : forall (vs a : list Row),
  List.length vs = List.length a ->
  (forall v, In v vs -> truthy (aoKey v) = true) ->
  List.map aoKey (writeRows vs a) = List.map aoKey vs.
Proof.
  induction vs as [|v vs IH]; intros a H Hk; destruct a as [|r a];
    simpl in *; try discriminate; [reflexivity|].
  rewrite aoKey_writeRow by (apply Hk; now left).
  rewrite IH; [reflexivity | lia | auto].
Qed.

Lemma writeRows_same_length : forall (vs a : list Row),
  List.length vs = List.length a -> List.length (writeRows vs a) = List.length a.
Proof.
  intros. apply writeRows_length. lia.
Qed.

(** The rows of the sheet after a cleanup: the kept rows written over
    the first rows, then the rows that were beyond them. *)
Lemma dedupe_after_write : forall rows : list Row,
  let kept := fst (dedupe [] rows) in
  let rows' := writeRows kept rows in
  dedupe [] rows'
  = (writeRows kept (firstn (List.length kept) rows), snd (dedupe [] rows))
  /\ rows' = writeRows kept (firstn (List.length kept) rows)
             ++ skipn (List.length kept) rows.
Proof.
  intros rows kept rows'.
  pose proof (dedupe_length rows []) as Hlen. fold kept in Hlen.
  assert (Hk : List.length kept <= List.length rows) by lia.
  assert (Hf : List.length kept = List.length (firstn (List.length kept) rows)).
  { rewrite length_firstn. lia. }
  assert (Hr : rows' = writeRows kept (firstn (List.length kept) rows)
                       ++ skipn (List.length kept) rows).
  { unfold rows'. rewrite <- (firstn_skipn (List.length kept) rows) at 1.
    now apply writeRows_app. }
  split; [|exact Hr].
  destruct (dedupe_kept_keys rows []) as [Hnd Hkeys]. fold kept in Hnd, Hkeys.
  assert (Hmap : List.map aoKey (writeRows kept (firstn (List.length kept) rows))
                 = List.map aoKey kept).
  { apply writeRows_keys; [exact Hf|]. intros v Hv. now apply Hkeys. }
  rewrite Hr, dedupe_app.
  rewrite (dedupe_distinct (writeRows kept (firstn (List.length kept) rows)) []).
  - cbn [fst snd]. rewrite Hmap.
    rewrite dedupe_all_dropped.
    + cbn [fst snd]. rewrite app_nil_r, length_skipn. f_equal. lia.
    + intros row Hin.
      assert (Hin' : In row rows).
      { rewrite <- (firstn_skipn (List.length kept) rows). apply in_or_app. now right. }
      destruct (truthy (aoKey row)) eqn:Ht; [right | now left].
      rewrite app_nil_r.
      destruct (dedupe_covers rows [] row Hin' Ht) as [[] | H]. exact H.
  - now rewrite Hmap.
  - intros row Hin. split; [|tauto].
    (* the key of a written row is the key of the kept row it holds *)
    assert (Hkey : In (aoKey row) (List.map aoKey kept)).
    { rewrite <- Hmap. now apply in_map. }
    apply in_map_iff in Hkey. destruct Hkey as [v [Ev Hv]].
    rewrite <- Ev. now apply Hkeys.
Qed.

(** X1.  A cleanup that removed rows does not leave a clean sheet: the
    rows beyond the survivors stay where they were, so the next
    [/clear] finds as many duplicates as the one before and writes the
    same sheet again (or its update is refused, when a row is wider
    than the range A..L). *)
Theorem clear_does_not_converge :
  forall (users store store' : Sheet) (username : string) (d : nat),
  handleClear users store username = (Cleaned d, store') ->
  0 < d
  /\ duplicateCountOf (skipn 1 store') = d
  /\ (handleClear users store' username = (Cleaned d, store')
      \/ handleClear users store' username = (ClearFailed, store')).
Proof.
  intros users store store' username d H.
  unfold handleClear in H.
  destruct (negb (isAdmin users username)) eqn:Hadm; [discriminate|].
  destruct store as [|header [|r rows0]]; try discriminate.
  remember (r :: rows0) as rows eqn:Erows.
  destruct (duplicateCountOf rows =? 0) eqn:Hd; [discriminate|].
  apply Nat.eqb_neq in Hd.
  unfold updateSheetData in H.
  match type of H with
    (match (if ?c then _ else _) with _ => _ end) = _ => destruct c; [|discriminate]
  end.
  injection H as Ed Es.
  unfold uniqueDataOf in Es. cbn [writeRows] in Es. rewrite writeRow_self in Es.
  destruct (dedupe_after_write rows) as [Hdd Hrows].
  cbv zeta in Hdd, Hrows.
  set (kept := fst (dedupe [] rows)) in *.
  set (W := writeRows kept (firstn (List.length kept) rows)) in *.
  assert (Hcount : duplicateCountOf (writeRows kept rows) = d).
  { unfold duplicateCountOf. rewrite Hdd. exact Ed. }
  split; [unfold duplicateCountOf in *; lia|].
  split; [rewrite <- Es; exact Hcount|].
  rewrite <- Es. unfold handleClear. rewrite Hadm.
  pose proof (dedupe_length rows []) as Hlen. fold kept in Hlen.
  destruct (writeRows kept rows) as [|r' rows1] eqn:Ew.
  { exfalso. apply (f_equal (@List.length Row)) in Ew.
    rewrite writeRows_length in Ew by lia.
    rewrite Erows in Ew. discriminate Ew. }
  cbv beta iota zeta. rewrite Hcount.
  assert (Hd' : (d =? 0) = false) by (apply Nat.eqb_neq; lia).
  rewrite Hd'.
  unfold updateSheetData.
  match goal with
    |- context [if ?c then _ else _] => destruct c; [left | right; reflexivity]
  end.
  f_equal. f_equal.
  unfold uniqueDataOf. rewrite Hdd. cbn [fst writeRows].
  rewrite writeRow_self. f_equal.
  rewrite Hrows. apply writeRows_self_app.
Qed.

Lemma clear_does_not_converge_witness :
  handleClear Fixture.users Fixture.storeWithRepeat "sari_admin"
  = (Cleaned 1, [Fixture.header; Fixture.rowA; Fixture.rowB; Fixture.rowB])
  /\ handleClear Fixture.users
       [Fixture.header; Fixture.rowA; Fixture.rowB; Fixture.rowB] "sari_admin"
     = (Cleaned 1, [Fixture.header; Fixture.rowA; Fixture.rowB; Fixture.rowB]).
Proof.
  assert (H : handleClear Fixture.users Fixture.storeWithRepeat "sari_admin"
              = (Cleaned 1, [Fixture.header; Fixture.rowA; Fixture.rowB; Fixture.rowB]))
    by reflexivity.
  split; [exact H|].
  destruct (clear_does_not_converge _ _ _ _ _ H) as [_ [_ [H2 | H2]]].
  - exact H2.
  - vm_compute in H2. discriminate H2.
Defined.

Lemma dedupe_none_dropped : forall rows seen,
  snd (dedupe seen rows) = 0 -> fst (dedupe seen rows) = rows.
Proof.
  induction rows as [|row rows IH]; intros seen H; [reflexivity|].
  rewrite dedupe_cons in *.
  destruct (negb (existsb (String.eqb (aoKey row)) seen) && truthy (aoKey row)).
  - cbn [fst snd] in *. now rewrite IH.
  - discriminate H.
Qed.

Lemma dedupe_keeps_order : forall rows seen (a b : Row),
  precedes a b (fst (dedupe seen rows)) -> precedes a b rows.
Proof.
  induction rows as [|row rows IH]; intros seen a b H.
  - simpl in H. destruct H as [l1 [l2 [l3 H]]]. now destruct l1.
  - rewrite dedupe_cons in H.
    destruct (negb (existsb (String.eqb (aoKey row)) seen) && truthy (aoKey row)).
    + cbn [fst] in H. apply precedes_inv in H. destruct H as [[-> H] | H].
      * apply precedes_head. eapply dedupe_incl. exact H.
      * apply precedes_cons. eapply IH. exact H.
    + cbn [fst] in H. apply precedes_cons. eapply IH. exact H.
Qed.

(** X2.  The rows that [/clear] keeps: their AOs are not empty and
    pairwise different (up to case and outer blanks), every row that is
    the first one with its AO is kept, every AO of the sheet is
    represented, the kept rows stand in the order of the sheet, and the
    rows dropped, among them every row without an AO, are the ones
    counted as duplicates. *)
Theorem cleanup_keeps_the_first_row_of_each_ao : forall rows : list Row,
  NoDup (List.map aoKey (fst (dedupe [] rows)))
  /\ (forall row, In row (fst (dedupe [] rows)) ->
        In row rows /\ truthy (aoKey row) = true)
  /\ (forall l1 row l2,
        rows = l1 ++ row :: l2 -> truthy (aoKey row) = true ->
        ~ In (aoKey row) (List.map aoKey l1) ->
        In row (fst (dedupe [] rows)))
  /\ (forall row, In row rows -> truthy (aoKey row) = true ->
        In (aoKey row) (List.map aoKey (fst (dedupe [] rows))))
  /\ (forall a b, precedes a b (fst (dedupe [] rows)) -> precedes a b rows)
  /\ List.length (fst (dedupe [] rows)) + duplicateCountOf rows
     = List.length rows.
Proof.
  intro rows. destruct (dedupe_kept_keys rows []) as [Hn Hk].
  split; [exact Hn|].
  split.
  { intros row H. split; [eapply dedupe_incl; exact H | now apply Hk]. }
  split.
  { intros l1 row l2 -> Ht Hnew. rewrite dedupe_app. cbn [fst].
    apply in_or_app. right. rewrite dedupe_cons.
    assert (E : existsb (String.eqb (aoKey row))
                  (List.map aoKey (fst (dedupe [] l1)) ++ []) = false).
    { apply not_true_is_false. intro H. apply existsb_eqb_In in H.
      rewrite app_nil_r in H. apply in_map_iff in H.
      destruct H as [r [Er Hr]]. apply Hnew. rewrite <- Er.
      apply in_map. eapply dedupe_incl. exact Hr. }
    rewrite E, Ht. now left. }
  split.
  { intros row Hin Ht.
    destruct (dedupe_covers rows [] row Hin Ht) as [[] | H]. exact H. }
  split; [apply dedupe_keeps_order | apply dedupe_length].
Qed.

Lemma cleanup_keeps_the_first_row_of_each_ao_witness :
  In Fixture.rowB
    (fst (dedupe [] [Fixture.rowA; Fixture.rowA'; Fixture.rowB])).
Proof.
  destruct (cleanup_keeps_the_first_row_of_each_ao
              [Fixture.rowA; Fixture.rowA'; Fixture.rowB]) as [_ [_ [H _]]].
  apply (H [Fixture.rowA; Fixture.rowA'] Fixture.rowB []).
  - reflexivity.
  - reflexivity.
  - vm_compute. intros [H1 | [H1 | []]]; discriminate H1.
Defined.

(** The loop drops no row exactly when every row has an AO and no AO
    occurs twice. *)
Lemma duplicateCount_zero_iff : forall rows : list Row,
  duplicateCountOf rows = 0
  <-> NoDup (List.map aoKey rows)
      /\ forall row, In row rows -> truthy (aoKey row) = true.
Proof.
  intro rows. unfold duplicateCountOf. split.
  - intro Hd. apply dedupe_none_dropped in Hd.
    destruct (dedupe_kept_keys rows []) as [Hn Hk]. rewrite Hd in Hn, Hk.
    split; [exact Hn | intros row H; now apply Hk].
  - intros [Hn Hk]. rewrite dedupe_distinct; [reflexivity | exact Hn |].
    intros row H. split; [now apply Hk | tauto].
Qed.

(** X3.  To an administrator [/clear] answers that the sheet is clean,
    and writes nothing, exactly when every row after the header has an
    AO and no two of them have the same AO up to case and outer
    blanks. *)
Theorem clear_answers_clean_iff_no_duplicates :
  forall (users store : Sheet) (username : string),
  isAdmin users username = true ->
  (handleClear users store username = (AlreadyClean, store)
   <-> NoDup (List.map aoKey (skipn 1 store))
       /\ forall row, In row (skipn 1 store) -> truthy (aoKey row) = true).
Proof.
  intros users store username Hadm. unfold handleClear. rewrite Hadm.
  cbn [negb].
  destruct store as [|header [|r rows0]].
  - simpl. split; [intros _; split; [constructor | tauto] | reflexivity].
  - simpl. split; [intros _; split; [constructor | tauto] | reflexivity].
  - remember (r :: rows0) as rows eqn:Erows. cbn [skipn].
    cbv beta iota zeta. rewrite <- duplicateCount_zero_iff.
    destruct (duplicateCountOf rows =? 0) eqn:Hd.
    + apply Nat.eqb_eq in Hd. split; [intros _; exact Hd | reflexivity].
    + apply Nat.eqb_neq in Hd. split; [|intro H; contradiction].
      intro H. exfalso.
      destruct (updateSheetData (header :: rows)
                  (List.length (uniqueDataOf header rows))
                  (uniqueDataOf header rows)); discriminate H.
Qed.

Lemma clear_answers_clean_iff_no_duplicates_witness :
  handleClear Fixture.users [Fixture.header; Fixture.rowA; Fixture.rowB] "sari_admin"
  = (AlreadyClean, [Fixture.header; Fixture.rowA; Fixture.rowB]).
Proof.
  apply (clear_answers_clean_iff_no_duplicates Fixture.users
           [Fixture.header; Fixture.rowA; Fixture.rowB] "sari_admin");
    [reflexivity|].
  split.
  - vm_compute. repeat constructor; simpl; intuition discriminate.
  - intros row [<- | [<- | []]]; reflexivity.
Defined.

(* ================================================================== *)
(** * Part XXI. The write path, continued *)
(* ================================================================== *)


Lemma handleAktivasi_saved : forall users store username text tanggal store',
  handleAktivasi users store username text tanggal = (Saved, store') ->
  exists user,
    test Pat.aktivasiCommand text = true
    /\ getUserData users username = Some user
    /\ truthy (payloadOf text) = true
    /\ truthy (ao (parseAktivasi username (payloadOf text) user)) = true
    /\ isDuplicate (ao (parseAktivasi username (payloadOf text) user)) store = false
    /\ store' = store ++ [rowOf tanggal (parseAktivasi username (payloadOf text) user)].
Proof.
  intros users store username text tanggal store' H.
  unfold handleAktivasi in H. fold (payloadOf text) in H.
  destruct (test Pat.aktivasiCommand text); [|discriminate].
  cbn [negb] in H.
  destruct (getUserData users username) as [user|]; [|discriminate].
  exists user.
  destruct (truthy (payloadOf text)); [|discriminate].
  cbn [negb] in H.
  destruct (truthy (ao (parseAktivasi username (payloadOf text) user)));
    [|discriminate].
  cbn [List.length Nat.ltb Nat.leb] in H.
  destruct (isDuplicate (ao (parseAktivasi username (payloadOf text) user)) store);
    [discriminate|].
  injection H as <-. repeat split; reflexivity.
Qed.

Lemma handleAktivasi_unsaved : forall users store username text tanggal,
  fst (handleAktivasi users store username text tanggal) <> Saved ->
  snd (handleAktivasi users store username text tanggal) = store.
Proof.
  intros users store username text tanggal H.
  unfold handleAktivasi in *.
  destruct (negb (test Pat.aktivasiCommand text)); [reflexivity|].
  destruct (getUserData users username) as [user|]; [|reflexivity].
  destruct (negb (truthy (trim (remove_match Pat.aktivasiPrefix text))));
    [reflexivity|].
  match goal with |- context [if ?c then _ else _] => destruct c end;
    [reflexivity|].
  match goal with |- context [if ?c then _ else _] => destruct c end;
    [reflexivity|].
  exfalso. now apply H.
Qed.

Lemma aoKey_rowOf : forall tanggal p,
  aoKey (rowOf tanggal p) = normalizeAo (ao p).
Proof.
  intros tanggal p. unfold aoKey, rowOf, cell. simpl.
  unfold or_else. now destruct (ao p).
Qed.

Lemma isDuplicate_keys : forall candidate data,
  isDuplicate candidate data = true
  <-> In (normalizeAo candidate) (List.map aoKey (skipn 1 data)).
Proof.
  intros candidate data. unfold isDuplicate. rewrite existsb_exists, in_map_iff.
  split; intros [row [H1 H2]]; exists row.
  - apply String.eqb_eq in H2. now split.
  - split; [assumption|]. apply String.eqb_eq. exact H1.
Qed.

Lemma skipn1_append : forall (store : Sheet) (row : Row),
  skipn 1 (store ++ [row])
  = match store with [] => [] | _ => skipn 1 store ++ [row] end.
Proof.
  intros [|r store] row; reflexivity.
Qed.

(** Appending a row with a new AO keeps the AOs distinct. *)
Lemma append_keeps_NoDup : forall (store : Sheet) (row : Row),
  NoDup (List.map aoKey (skipn 1 store)) ->
  ~ In (aoKey row) (List.map aoKey (skipn 1 store)) ->
  NoDup (List.map aoKey (skipn 1 (store ++ [row]))).
Proof.
  intros store row Hn Hnew. rewrite skipn1_append.
  destruct store as [|header rows]; [constructor|].
  rewrite List.map_app. cbn [List.map].
  apply NoDup_app; [exact Hn | repeat constructor; simpl; tauto |].
  intros k Hk [<- | []]. contradiction.
Qed.

(** ** The write path with its reads and its write apart *)

Lemma aktivasiRequest_row : forall users seen username text tanggal reply row,
  aktivasiRequest users seen username text tanggal = (reply, Some row) ->
  exists user,
    reply = Saved
    /\ test Pat.aktivasiCommand text = true
    /\ getUserData users username = Some user
    /\ truthy (payloadOf text) = true
    /\ truthy (ao (parseAktivasi username (payloadOf text) user)) = true
    /\ isDuplicate (ao (parseAktivasi username (payloadOf text) user)) seen = false
    /\ row = rowOf tanggal (parseAktivasi username (payloadOf text) user).
Proof.
  intros users seen username text tanggal reply row H.
  unfold aktivasiRequest in H. fold (payloadOf text) in H.
  destruct (test Pat.aktivasiCommand text); [|discriminate].
  cbn [negb] in H.
  destruct (getUserData users username) as [user|]; [|discriminate].
  exists user.
  destruct (truthy (payloadOf text)); [|discriminate].
  cbn [negb] in H.
  destruct (truthy (ao (parseAktivasi username (payloadOf text) user)));
    [|discriminate].
  cbn [List.length Nat.ltb Nat.leb] in H.
  destruct (isDuplicate (ao (parseAktivasi username (payloadOf text) user)) seen);
    [discriminate|].
  injection H as <- <-. repeat split; reflexivity.
Qed.

Lemma aktivasiRequest_build : forall users seen username text tanggal user,
  test Pat.aktivasiCommand text = true ->
  getUserData users username = Some user ->
  truthy (payloadOf text) = true ->
  truthy (ao (parseAktivasi username (payloadOf text) user)) = true ->
  aktivasiRequest users seen username text tanggal
  = if isDuplicate (ao (parseAktivasi username (payloadOf text) user)) seen
    then (Duplicate, None)
    else (Saved, Some (rowOf tanggal (parseAktivasi username (payloadOf text) user))).
Proof.
  intros users seen username text tanggal user Hc Hu Hp Hao.
  unfold aktivasiRequest. fold (payloadOf text).
  rewrite Hc, Hu, Hp, Hao. reflexivity.
Qed.

Lemma handleAktivasiAt_saved :
  forall entered users seen current username text tanggal store',
  handleAktivasiAt entered users seen current username text tanggal = (Saved, store') ->
  exists row,
    aktivasiRequest users seen username text tanggal = (Saved, Some row)
    /\ store' = current ++ [entered row].
Proof.
  intros entered users seen current username text tanggal store' H.
  unfold handleAktivasiAt in H.
  destruct (aktivasiRequest users seen username text tanggal) as [reply [row|]] eqn:E.
  - injection H as -> <-. exists row. now split.
  - injection H as -> <-. exfalso.
    unfold aktivasiRequest in E.
    destruct (negb (test Pat.aktivasiCommand text)); [discriminate|].
    destruct (getUserData users username); [|discriminate].
    destruct (negb (truthy (trim (remove_match Pat.aktivasiPrefix text))));
      [discriminate|].
    match type of E with context [if ?c then _ else _] => destruct c end;
      [discriminate|].
    match type of E with context [if ?c then _ else _] => destruct c end;
      discriminate.
Qed.

(** Handled alone and with a service that stores what it is given, the
    handler is [handleAktivasi]. *)
Lemma handleAktivasi_alone : forall users store username text tanggal,
  handleAktivasi users store username text tanggal
  = handleAktivasiAt (fun row => row) users store store username text tanggal.
Proof.
  intros users store username text tanggal.
  unfold handleAktivasi, handleAktivasiAt, aktivasiRequest, appendEntered,
    appendSheetData.
  destruct (negb (test Pat.aktivasiCommand text)); [reflexivity|].
  destruct (getUserData users username); [|reflexivity].
  destruct (negb (truthy (trim (remove_match Pat.aktivasiPrefix text))));
    [reflexivity|].
  match goal with |- context [if ?c then _ else _] => destruct c end;
    [reflexivity|].
  match goal with |- context [if ?c then _ else _] => destruct c end;
    reflexivity.
Qed.

(** Appending a row whose AO is already there breaks the distinctness. *)
Lemma append_breaks_NoDup : forall (store : Sheet) (row : Row),
  In (aoKey row) (List.map aoKey (skipn 1 store)) ->
  ~ NoDup (List.map aoKey (skipn 1 (store ++ [row]))).
Proof.
  intros store row Hin Hn. rewrite skipn1_append in Hn.
  destruct store as [|header rows]; [destruct Hin|].
  cbn [skipn] in *. rewrite List.map_app in Hn. cbn [List.map] in Hn.
  apply NoDup_remove_2 in Hn. apply Hn. rewrite app_nil_r. exact Hin.
Qed.

(** X4.  When do the AOs of the stored rows stay pairwise different
    (up to case and outer blanks)?  Let no two rows after the header of
    the sheet share an AO, and let the service return the AO of the row
    it is given as it was written.  If every AO in the sheet at the
    time of the append was in the sheet that the duplicate check had
    read, none is shared afterwards, whatever the message and the
    reply.  If the handler saves although a row with its AO has come
    into the sheet since that read, two rows share the AO afterwards. *)
Theorem aktivasi_keeps_the_aos_distinct :
  forall (entered : Row -> Row) (users seen current : Sheet)
         (username text tanggal : string),
  NoDup (List.map aoKey (skipn 1 current)) ->
  (forall row,
     aktivasiRequest users seen username text tanggal = (Saved, Some row) ->
     aoKey (entered row) = aoKey row) ->
  (incl (List.map aoKey (skipn 1 current)) (List.map aoKey (skipn 1 seen)) ->
   NoDup (List.map aoKey
            (skipn 1 (snd (handleAktivasiAt entered users seen current
                             username text tanggal)))))
  /\ (forall row,
        aktivasiRequest users seen username text tanggal = (Saved, Some row) ->
        In (aoKey row) (List.map aoKey (skipn 1 current)) ->
        ~ NoDup (List.map aoKey
                   (skipn 1 (snd (handleAktivasiAt entered users seen current
                                    username text tanggal))))).
Proof.
  intros entered users seen current username text tanggal Hn Hkeep.
  unfold handleAktivasiAt, appendEntered.
  destruct (aktivasiRequest users seen username text tanggal)
    as [reply [row|]] eqn:E; cbn [snd].
  - destruct (aktivasiRequest_row _ _ _ _ _ _ _ E)
      as [user [-> [_ [_ [_ [_ [Hdup Hrow]]]]]]].
    specialize (Hkeep row eq_refl).
    split.
    + intro Hincl. apply append_keeps_NoDup; [exact Hn|].
      rewrite Hkeep. intro Hin. apply Hincl in Hin.
      rewrite Hrow, aoKey_rowOf in Hin.
      apply isDuplicate_keys in Hin. congruence.
    + intros row' Hrow' Hin. injection Hrow' as <-.
      apply append_breaks_NoDup. now rewrite Hkeep.
  - split; [intros _; exact Hn|]. intros row H. discriminate H.
Qed.

(** The rule of X4 at a service that keeps the text as typed: handled
    on the sheet it has read, the TSEL message leaves the AOs distinct;
    handled after an overlapping handler of the same message has
    appended its row, it leaves two rows with one AO. *)
Lemma aktivasi_keeps_the_aos_distinct_witness :
  NoDup (List.map aoKey
           (skipn 1 (snd (handleAktivasiAt (fun row => row) Fixture.users
                            Fixture.storeWithSc Fixture.storeWithSc
                            "budi_teknisi" ("/aktivasi " ++ Fixture.tselText)
                            "Senin, 15 September 2025"))))
  /\ ~ NoDup (List.map aoKey
                (skipn 1 (snd (handleAktivasiAt (fun row => row) Fixture.users
                                 Fixture.storeWithSc
                                 (Fixture.storeWithSc ++
                                    [rowOf "Senin, 15 September 2025"
                                       (parseAktivasi "budi_teknisi"
                                          Fixture.tselText Fixture.budi)])
                                 "budi_teknisi" ("/aktivasi " ++ Fixture.tselText)
                                 "Senin, 15 September 2025")))).
Proof.
  split.
  - apply (aktivasi_keeps_the_aos_distinct (fun row => row)).
    + vm_compute. repeat constructor; simpl; tauto.
    + reflexivity.
    + apply incl_refl.
  - apply (aktivasi_keeps_the_aos_distinct (fun row => row) Fixture.users
             Fixture.storeWithSc _ "budi_teknisi" ("/aktivasi " ++ Fixture.tselText)
             "Senin, 15 September 2025")
      with (row := rowOf "Senin, 15 September 2025"
                     (parseAktivasi "budi_teknisi" Fixture.tselText Fixture.budi)).
    + vm_compute. repeat constructor; simpl; intuition discriminate.
    + reflexivity.
    + vm_compute. reflexivity.
    + vm_compute. tauto.
Defined.

(** X5.  What has been saved is found again, under two conditions.  On
    a sheet that has its header row, let a message be answered with
    Saved.  The row that the service keeps is in the sheet.  If its AO
    is the one that was written, every later handling of the message
    whose read holds that row answers Duplicate and writes nothing.  If
    the service has made another AO of it, and no row had the written
    AO, the message is saved again when it is sent again.  A handling
    that still works on the sheet read before the append saves the
    message again, under the same AO, whatever the sheet holds by then.
    Every AO that was a duplicate before the save is one afterwards. *)
Theorem saved_ao_is_a_duplicate_afterwards :
  forall (entered : Row -> Row) (users seen current store' : Sheet)
         (username text tanggal : string),
  handleAktivasiAt entered users seen current username text tanggal
  = (Saved, store') ->
  current <> [] ->
  exists row,
    aktivasiRequest users seen username text tanggal = (Saved, Some row)
    /\ store' = current ++ [entered row]
    /\ In (entered row) (skipn 1 store')
    /\ (aoKey (entered row) = aoKey row ->
        forall (seen' current' : Sheet) (tanggal' : string),
          In (entered row) (skipn 1 seen') ->
          handleAktivasiAt entered users seen' current' username text tanggal'
          = (Duplicate, current'))
    /\ (aoKey (entered row) <> aoKey row ->
        ~ In (aoKey row) (List.map aoKey (skipn 1 current)) ->
        forall tanggal',
          fst (handleAktivasiAt entered users store' store' username text tanggal')
          = Saved)
    /\ (forall (current' : Sheet) (tanggal' : string),
          exists row',
            handleAktivasiAt entered users seen current' username text tanggal'
            = (Saved, current' ++ [entered row'])
            /\ aoKey row' = aoKey row)
    /\ (forall candidate,
          isDuplicate candidate current = true ->
          isDuplicate candidate store' = true).
Proof.
  intros entered users seen current store' username text tanggal H Hne.
  apply handleAktivasiAt_saved in H. destruct H as [row [E ->]].
  exists row. split; [exact E|]. split; [reflexivity|].
  destruct (aktivasiRequest_row _ _ _ _ _ _ _ E)
    as [user [_ [Hc [Hu [Hp [Hao [Hdup Hrow]]]]]]].
  assert (Hskip : skipn 1 (current ++ [entered row])
                  = skipn 1 current ++ [entered row]).
  { rewrite skipn1_append. destruct current; [contradiction | reflexivity]. }
  assert (Hkey : aoKey row
                 = normalizeAo (ao (parseAktivasi username (payloadOf text) user))).
  { rewrite Hrow. apply aoKey_rowOf. }
  split; [rewrite Hskip; apply in_or_app; right; now left|].
  split; [|split; [|split]].
  - intros Hkeep seen' current' tanggal' Hin.
    unfold handleAktivasiAt.
    rewrite (aktivasiRequest_build users seen' username text tanggal' user Hc Hu Hp Hao).
    assert (Hd : isDuplicate (ao (parseAktivasi username (payloadOf text) user)) seen'
                 = true).
    { apply isDuplicate_keys. rewrite <- Hkey, <- Hkeep. now apply in_map. }
    now rewrite Hd.
  - intros Hchg Hnew tanggal'. unfold handleAktivasiAt.
    rewrite (aktivasiRequest_build users _ username text tanggal' user Hc Hu Hp Hao).
    assert (Hd : isDuplicate (ao (parseAktivasi username (payloadOf text) user))
                   (current ++ [entered row]) = false).
    { destruct (isDuplicate _ (current ++ [entered row])) eqn:Hd; [|reflexivity].
      exfalso. apply isDuplicate_keys in Hd.
      rewrite <- Hkey, Hskip, List.map_app in Hd. apply in_app_or in Hd.
      destruct Hd as [Hd | [Hd | []]]; [now apply Hnew | now apply Hchg]. }
    now rewrite Hd.
  - intros current' tanggal'.
    exists (rowOf tanggal' (parseAktivasi username (payloadOf text) user)).
    split.
    + unfold handleAktivasiAt.
      rewrite (aktivasiRequest_build users seen username text tanggal' user Hc Hu Hp Hao).
      now rewrite Hdup.
    + now rewrite Hkey, aoKey_rowOf.
  - intros candidate Hcand. apply isDuplicate_keys.
    apply isDuplicate_keys in Hcand.
    rewrite Hskip, List.map_app. apply in_or_app. now left.
Qed.

(** The rule of X5 at the TSEL message, saved on 15 September and sent
    again the day after, with a service that keeps the text as typed;
    and at a message whose AO is 000123, with a service that returns
    123 for it: sent again, that message is saved again. *)
Lemma saved_ao_is_a_duplicate_afterwards_witness :
  handleAktivasiAt (fun row => row) Fixture.users
    (Fixture.storeWithSc ++
       [rowOf "Senin, 15 September 2025"
          (parseAktivasi "budi_teknisi" Fixture.tselText Fixture.budi)])
    (Fixture.storeWithSc ++
       [rowOf "Senin, 15 September 2025"
          (parseAktivasi "budi_teknisi" Fixture.tselText Fixture.budi)])
    "budi_teknisi" ("/aktivasi " ++ Fixture.tselText) "Selasa, 16 September 2025"
  = (Duplicate,
     Fixture.storeWithSc ++
       [rowOf "Senin, 15 September 2025"
          (parseAktivasi "budi_teknisi" Fixture.tselText Fixture.budi)])
  /\ fst (handleAktivasiAt Sample.numberService Fixture.users
            (Fixture.storeWithSc ++
               [Sample.numberService
                  (rowOf "Senin, 15 September 2025"
                     (parseAktivasi "budi_teknisi" Sample.numberText
                        Fixture.budi))])
            (Fixture.storeWithSc ++
               [Sample.numberService
                  (rowOf "Senin, 15 September 2025"
                     (parseAktivasi "budi_teknisi" Sample.numberText
                        Fixture.budi))])
            "budi_teknisi" ("/aktivasi " ++ Sample.numberText)
            "Selasa, 16 September 2025")
     = Saved.
Proof.
  split.
  - destruct (saved_ao_is_a_duplicate_afterwards (fun row => row) Fixture.users
                Fixture.storeWithSc Fixture.storeWithSc
                (Fixture.storeWithSc ++
                   [rowOf "Senin, 15 September 2025"
                      (parseAktivasi "budi_teknisi" Fixture.tselText Fixture.budi)])
                "budi_teknisi" ("/aktivasi " ++ Fixture.tselText)
                "Senin, 15 September 2025")
      as [row [E [Es [Hin [H _]]]]].
    + vm_compute. reflexivity.
    + discriminate.
    + apply app_inv_head in Es. injection Es as Es. rewrite Es.
      apply H; [reflexivity|]. rewrite <- Es. vm_compute. tauto.
  - destruct (saved_ao_is_a_duplicate_afterwards Sample.numberService
                Fixture.users Fixture.storeWithSc Fixture.storeWithSc
                (Fixture.storeWithSc ++
                   [Sample.numberService
                      (rowOf "Senin, 15 September 2025"
                         (parseAktivasi "budi_teknisi" Sample.numberText
                            Fixture.budi))])
                "budi_teknisi" ("/aktivasi " ++ Sample.numberText)
                "Senin, 15 September 2025")
      as [row [E [Es [Hin [_ [H _]]]]]].
    + vm_compute. reflexivity.
    + discriminate.
    + assert (Er : row = rowOf "Senin, 15 September 2025"
                           (parseAktivasi "budi_teknisi" Sample.numberText
                              Fixture.budi)).
      { vm_compute in E. injection E as E. rewrite <- E. vm_compute. reflexivity. }
      apply H.
      * rewrite Er. vm_compute. discriminate.
      * rewrite Er. vm_compute. intuition discriminate.
Defined.

(** X6.  On a sheet without a header row the first record lands in
    row 0, which the duplicate check skips: the same message is saved a
    second time, under the same AO. *)
Theorem headerless_sheet_takes_the_same_ao_twice :
  forall (users store' : Sheet) (username text tanggal : string),
  handleAktivasi users [] username text tanggal = (Saved, store') ->
  forall tanggal',
    exists row row',
      store' = [row]
      /\ handleAktivasi users store' username text tanggal' = (Saved, [row; row'])
      /\ aoKey row' = aoKey row.
Proof.
  intros users store' username text tanggal H tanggal'.
  apply handleAktivasi_saved in H.
  destruct H as [user [Hc [Hu [Hp [Hao [Hdup ->]]]]]].
  eexists. eexists. split; [reflexivity|]. split.
  - unfold handleAktivasi. fold (payloadOf text).
    rewrite Hc, Hu, Hp, Hao. cbn [negb List.length Nat.ltb Nat.leb]. reflexivity.
  - now rewrite !aoKey_rowOf.
Qed.

Lemma headerless_sheet_takes_the_same_ao_twice_witness :
  exists row row',
    handleAktivasi Fixture.users [] "budi_teknisi"
      ("/aktivasi " ++ Fixture.tselText) "Senin, 15 September 2025"
    = (Saved, [row])
    /\ handleAktivasi Fixture.users [row] "budi_teknisi"
         ("/aktivasi " ++ Fixture.tselText) "Senin, 15 September 2025"
       = (Saved, [row; row'])
    /\ aoKey row' = aoKey row.
Proof.
  assert (H : handleAktivasi Fixture.users [] "budi_teknisi"
                ("/aktivasi " ++ Fixture.tselText) "Senin, 15 September 2025"
              = (Saved, [rowOf "Senin, 15 September 2025"
                           (parseAktivasi "budi_teknisi" Fixture.tselText Fixture.budi)]))
    by (vm_compute; reflexivity).
  destruct (headerless_sheet_takes_the_same_ao_twice _ _ _ _ _ H
              "Senin, 15 September 2025") as [row [row' [E [H2 H3]]]].
  exists row, row'. rewrite <- E. split; [exact H|]. now split.
Defined.

Lemma trimStart_idem : forall s, trimStart (trimStart s) = trimStart s.
Proof.
  induction s as [|c s IH]; [reflexivity|]. simpl.
  destruct (isSpace c) eqn:E; [exact IH|]. simpl. now rewrite E.
Qed.

Lemma trimEnd_idem : forall s, trimEnd (trimEnd s) = trimEnd s.
Proof.
  induction s as [|c s IH]; [reflexivity|]. simpl.
  destruct (trimEnd s) as [|a r] eqn:E.
  - destruct (isSpace c) eqn:Ec; [reflexivity|]. simpl. now rewrite Ec.
  - change (trimEnd (String c (String a r)))
      with (match trimEnd (String a r) with
            | EmptyString => if isSpace c then EmptyString else String c EmptyString
            | r' => String c r'
            end).
    now rewrite IH.
Qed.

Lemma trimStart_trimEnd_head : forall c s,
  isSpace c = false -> trimStart (trimEnd (String c s)) = trimEnd (String c s).
Proof.
  intros c s Hc. simpl. destruct (trimEnd s); rewrite ?Hc; simpl; now rewrite Hc.
Qed.

Lemma trim_idem : forall s, trim (trim s) = trim s.
Proof.
  intro s. unfold trim.
  assert (H : trimStart (trimEnd (trimStart s)) = trimEnd (trimStart s)).
  { pose proof (trimStart_idem s) as Hi.
    destruct (trimStart s) as [|c t] eqn:E; [reflexivity|].
    apply trimStart_trimEnd_head.
    simpl in Hi. destruct (isSpace c) eqn:Ec; [|reflexivity].
    (* a leading blank cannot survive [trimStart] *)
    exfalso. clear E.
    assert (Hlen : forall u, String.length (trimStart u) <= String.length u).
    { induction u as [|a u IHu]; simpl; [lia|].
      destruct (isSpace a); simpl; lia. }
    specialize (Hlen t). rewrite Hi in Hlen. simpl in Hlen. lia. }
  rewrite H. apply trimEnd_idem.
Qed.

Lemma truthy_map : forall f s, truthy (Str.map f s) = truthy s.
Proof. now intros f [|c s]. Qed.

Lemma truthy_normalizeAo_trimmed : forall s,
  trim s = s -> truthy (normalizeAo s) = truthy s.
Proof.
  intros s H. rewrite normalizeAo_trim, H. apply truthy_map.
Qed.

Lemma findValue_trimmed : forall text patterns,
  Forall (fun re => global re = false) patterns ->
  trim (findValue text patterns) = findValue text patterns.
Proof.
  intros text patterns H. induction H as [|re more Hg _ IH]; [reflexivity|].
  cbn [findValue]. rewrite Hg.
  destruct (exec re text) as [m|]; [|exact IH].
  destruct (group 1 m) as [g|]; [|exact IH].
  destruct (truthy g); [apply trim_idem | exact IH].
Qed.

Lemma afterColon_trimmed : forall line, trim (afterColon line) = afterColon line.
Proof. intro line. apply trim_idem. Qed.

Lemma getValue_trimmed : forall lines label,
  trim (getValue lines label) = getValue lines label.
Proof.
  intros lines label. unfold getValue.
  destruct (find _ lines); [apply afterColon_trimmed | reflexivity].
Qed.

Lemma truthy_normalizeAo_SC : forall g,
  truthy (normalizeAo ("SC" ++ g)) = true.
Proof.
  intro g. unfold normalizeAo, trim. simpl.
  destruct (trimEnd (Str.map toUpperChar g)); reflexivity.
Qed.

(** An AO that passes the validation has a non-empty key. *)
Lemma parsed_ao_key : forall username text userRow,
  truthy (ao (parseAktivasi username text userRow)) = true ->
  truthy (normalizeAo (ao (parseAktivasi username text userRow))) = true.
Proof.
  intros username text userRow. unfold parseAktivasi.
  destruct (String.eqb (detectOwner text) "TSEL").
  - unfold parseTsel. cbn [ao]. intro H.
    rewrite truthy_normalizeAo_trimmed; [exact H|].
    apply findValue_trimmed. repeat constructor.
  - destruct (String.eqb (detectOwner text) "BGES"
              || String.eqb (detectOwner text) "WMS").
    + unfold parseBgesWms. cbn [ao].
      destruct (lastMatch (match_all Pat.aoLine text)) as [lastM|]; [|discriminate].
      destruct (exec Pat.scNumber lastM) as [sc|]; [|discriminate].
      intros _. apply truthy_normalizeAo_SC.
    + unfold parseManual. cbn [ao]. intro H.
      rewrite truthy_normalizeAo_trimmed; [exact H|].
      unfold or_else.
      destruct (truthy (getValue (linesOf text) "AO"));
        [apply getValue_trimmed | apply findValue_trimmed; repeat constructor].
Qed.



Lemma handleClear_clean : forall users store admin,
  handleClear users store admin = (AlreadyClean, store) ->
  isAdmin users admin = true /\ duplicateCountOf (skipn 1 store) = 0.
Proof.
  intros users store admin H.
  assert (Hadm : isAdmin users admin = true).
  { unfold handleClear in H. destruct (isAdmin users admin); [reflexivity|].
    discriminate H. }
  split; [exact Hadm|].
  unfold handleClear in H. rewrite Hadm in H. cbn [negb] in H.
  destruct store as [|header [|r rows0]]; try reflexivity.
  cbn [skipn]. remember (r :: rows0) as rows eqn:Erows.
  cbv beta iota zeta in H.
  destruct (duplicateCountOf rows =? 0) eqn:Hd; [now apply Nat.eqb_eq|].
  destruct (updateSheetData (header :: rows)
              (List.length (uniqueDataOf header rows))
              (uniqueDataOf header rows)); discriminate H.
Qed.

Lemma handleClear_admin : forall users (header r : Row) (rows : list Row) admin,
  isAdmin users admin = true ->
  fst (handleClear users (header :: r :: rows) admin)
  = if duplicateCountOf (r :: rows) =? 0 then AlreadyClean
    else match updateSheetData (header :: r :: rows)
                 (List.length (uniqueDataOf header (r :: rows)))
                 (uniqueDataOf header (r :: rows)) with
         | Some _ => Cleaned (duplicateCountOf (r :: rows))
         | None => ClearFailed
         end.
Proof.
  intros users header r rows admin Hadm.
  unfold handleClear. rewrite Hadm. cbn [negb]. cbv beta iota zeta.
  destruct (duplicateCountOf (r :: rows) =? 0); [reflexivity|].
  destruct (updateSheetData (header :: r :: rows)
              (List.length (uniqueDataOf header (r :: rows)))
              (uniqueDataOf header (r :: rows))); reflexivity.
Qed.

(** One more row whose AO is already there is one more duplicate. *)
Lemma duplicateCount_repeat : forall (rows : list Row) (row : Row),
  duplicateCountOf rows = 0 ->
  In (aoKey row) (List.map aoKey rows) ->
  duplicateCountOf (rows ++ [row]) = 1.
Proof.
  intros rows row Hd Hin. unfold duplicateCountOf in *.
  rewrite dedupe_app. cbn [snd]. rewrite Hd.
  rewrite (dedupe_none_dropped rows [] Hd).
  rewrite (dedupe_all_dropped [row]); [reflexivity|].
  intros r [<- | []]. right. apply in_or_app. now left.
Qed.

(** X8.  The write path and the cleanup.  Let [/clear] answer an
    administrator that the sheet is clean, and let the service return
    the AO of an appended row as it was written.  If every AO in the
    sheet at the time of the append was in the sheet that the duplicate
    check had read, [/clear] answers the same after the [/aktivasi]
    message has been handled.  If the handler saves although a row with
    its AO has come into the sheet since that read, the next [/clear]
    counts one duplicate: it rewrites the sheet, or its update is
    refused. *)
Theorem aktivasi_keeps_a_clean_sheet_clean :
  forall (entered : Row -> Row) (users seen current : Sheet)
         (username text tanggal admin : string),
  handleClear users current admin = (AlreadyClean, current) ->
  (forall row,
     aktivasiRequest users seen username text tanggal = (Saved, Some row) ->
     aoKey (entered row) = aoKey row) ->
  (incl (List.map aoKey (skipn 1 current)) (List.map aoKey (skipn 1 seen)) ->
   handleClear users
     (snd (handleAktivasiAt entered users seen current username text tanggal))
     admin
   = (AlreadyClean,
      snd (handleAktivasiAt entered users seen current username text tanggal)))
  /\ (forall row,
        aktivasiRequest users seen username text tanggal = (Saved, Some row) ->
        In (aoKey row) (List.map aoKey (skipn 1 current)) ->
        fst (handleClear users
               (snd (handleAktivasiAt entered users seen current
                       username text tanggal))
               admin) = Cleaned 1
        \/ fst (handleClear users
                  (snd (handleAktivasiAt entered users seen current
                          username text tanggal))
                  admin) = ClearFailed).
Proof.
  intros entered users seen current username text tanggal admin H Hkeep.
  destruct (handleClear_clean _ _ _ H) as [Hadm Hclean].
  unfold handleAktivasiAt, appendEntered.
  destruct (aktivasiRequest users seen username text tanggal)
    as [reply [row|]] eqn:E; cbn [snd].
  - destruct (aktivasiRequest_row _ _ _ _ _ _ _ E)
      as [user [-> [_ [_ [_ [Hao [Hdup Hrow]]]]]]].
    specialize (Hkeep row eq_refl).
    assert (Hkey : aoKey row
                   = normalizeAo (ao (parseAktivasi username (payloadOf text) user))).
    { rewrite Hrow. apply aoKey_rowOf. }
    split.
    + intro Hincl.
      assert (Hclean' : duplicateCountOf (skipn 1 (current ++ [entered row])) = 0).
      { apply duplicateCount_zero_iff.
        apply duplicateCount_zero_iff in Hclean. destruct Hclean as [Hn Hk].
        split.
        - apply append_keeps_NoDup; [exact Hn|].
          rewrite Hkeep. intro Hin. apply Hincl in Hin. rewrite Hkey in Hin.
          apply isDuplicate_keys in Hin. congruence.
        - rewrite skipn1_append.
          destruct current as [|header rows]; [intros r []|].
          intros r Hin. apply in_app_or in Hin.
          destruct Hin as [Hin | [<- | []]]; [now apply Hk|].
          rewrite Hkeep, Hkey. now apply parsed_ao_key. }
      unfold handleClear. rewrite Hadm. cbn [negb].
      destruct (current ++ [entered row]) as [|header [|r rows0]];
        try reflexivity.
      cbn [skipn] in Hclean'. remember (r :: rows0) as rows eqn:Erows.
      cbv beta iota zeta. now rewrite Hclean'.
    + intros row' Hrow' Hin. injection Hrow' as <-.
      destruct current as [|header rows]; [destruct Hin|].
      cbn [skipn] in Hin, Hclean.
      assert (Hone : duplicateCountOf (rows ++ [entered row]) = 1).
      { apply duplicateCount_repeat; [exact Hclean | now rewrite Hkeep]. }
      rewrite <- List.app_comm_cons.
      destruct (rows ++ [entered row]) as [|r rows'] eqn:Er.
      { destruct rows; discriminate Er. }
      rewrite (handleClear_admin users header r rows' admin Hadm), Hone.
      cbn [Nat.eqb].
      destruct (updateSheetData (header :: r :: rows')
                  (List.length (uniqueDataOf header (r :: rows')))
                  (uniqueDataOf header (r :: rows'))); [now left | now right].
  - split; [intros _; exact H|]. intros row Hrow. discriminate Hrow.
Qed.

(** The rule of X8 at the TSEL message, the administrator of the
    fixture and a service that keeps the text as typed: handled on the
    sheet it has read, the message leaves the sheet clean; handled after
    an overlapping handler of the same message has appended its row, it
    leaves one duplicate for [/clear]. *)
Lemma aktivasi_keeps_a_clean_sheet_clean_witness :
  handleClear Fixture.users
    (snd (handleAktivasiAt (fun row => row) Fixture.users
            Fixture.storeWithSc Fixture.storeWithSc "budi_teknisi"
            ("/aktivasi " ++ Fixture.tselText) "Senin, 15 September 2025"))
    "sari_admin"
  = (AlreadyClean,
     snd (handleAktivasiAt (fun row => row) Fixture.users
            Fixture.storeWithSc Fixture.storeWithSc "budi_teknisi"
            ("/aktivasi " ++ Fixture.tselText) "Senin, 15 September 2025"))
  /\ fst (handleClear Fixture.users
            (snd (handleAktivasiAt (fun row => row) Fixture.users
                    Fixture.storeWithSc
                    (Fixture.storeWithSc ++
                       [rowOf "Senin, 15 September 2025"
                          (parseAktivasi "budi_teknisi" Fixture.tselText
                             Fixture.budi)])
                    "budi_teknisi" ("/aktivasi " ++ Fixture.tselText)
                    "Senin, 15 September 2025"))
            "sari_admin")
     = Cleaned 1.
Proof.
  split.
  - apply (aktivasi_keeps_a_clean_sheet_clean (fun row => row)).
    + reflexivity.
    + reflexivity.
    + apply incl_refl.
  - destruct (proj2 (aktivasi_keeps_a_clean_sheet_clean (fun row => row)
                       Fixture.users Fixture.storeWithSc
                       (Fixture.storeWithSc ++
                          [rowOf "Senin, 15 September 2025"
                             (parseAktivasi "budi_teknisi" Fixture.tselText
                                Fixture.budi)])
                       "budi_teknisi" ("/aktivasi " ++ Fixture.tselText)
                       "Senin, 15 September 2025" "sari_admin"
                       eq_refl (fun row _ => eq_refl))
                (rowOf "Senin, 15 September 2025"
                   (parseAktivasi "budi_teknisi" Fixture.tselText Fixture.budi)))
      as [H | H].
    + vm_compute. reflexivity.
    + vm_compute. tauto.
    + exact H.
    + vm_compute in H. discriminate H.
Defined.

(* ================================================================== *)
(** * Part XXII. The reports *)
(* ================================================================== *)


Lemma or_default_Some : forall s d, or_default (Some s) d = or_else s d.
Proof. reflexivity. Qed.

Lemma or_else_empty : forall s, or_else s "" = s.
Proof. now intros [|c s]. Qed.

(** The handle under which [/cari] looks is the sender's. *)
Lemma userTeknisiOf_sender : forall users username user,
  getUserData users username = Some user ->
  userTeknisiOf user username = handleOf username.
Proof.
  intros users username user H. unfold getUserData in H.
  apply find_some in H. destruct H as [_ H]. unfold isActiveUser in H.
  apply andb_true_iff in H. destruct H as [H _]. apply String.eqb_eq in H.
  unfold userTeknisiOf. destruct (cell user 1) as [s|]; [|reflexivity].
  simpl in *. unfold or_else in *. destruct (truthy s); [exact H | reflexivity].
Qed.

Lemma includes_char : forall c s,
  includes s (String c "") = false -> removeFirst c s = s.
Proof.
  intros c s. induction s as [|a s IH]; [reflexivity|].
  simpl. rewrite (Ascii.eqb_sym c a).
  destruct (Ascii.eqb a c); simpl; [discriminate|].
  intro H. now rewrite IH.
Qed.

Lemma removeFirst_shorter : forall c s,
  includes s (String c "") = true ->
  S (String.length (removeFirst c s)) = String.length s.
Proof.
  intros c s. induction s as [|a s IH]; [discriminate|].
  simpl. rewrite (Ascii.eqb_sym c a).
  destruct (Ascii.eqb a c); simpl; [reflexivity|].
  intro H. now rewrite IH.
Qed.

Lemma length_str_map : forall f s, String.length (Str.map f s) = String.length s.
Proof. induction s as [|c s IH]; simpl; congruence. Qed.

Lemma teknisiHandle_rowOf : forall tanggal p,
  teknisiHandle (rowOf tanggal p) = handleOf (teknisi p).
Proof.
  intros tanggal p. unfold teknisiHandle, rowOf, cell. simpl.
  now rewrite or_else_empty.
Qed.

Lemma rowsOfTeknisi_append : forall target (store : Sheet) (row : Row),
  store <> [] ->
  rowsOfTeknisi target (store ++ [row])
  = rowsOfTeknisi target store
    ++ (if String.eqb (teknisiHandle row) target then [row] else []).
Proof.
  intros target store row Hne. unfold rowsOfTeknisi.
  rewrite skipn1_append. destruct store as [|h rows]; [contradiction|].
  now rewrite filter_app.
Qed.

(** X9.  After a Saved reply on a sheet with its header row, [/cari]
    of the same sender counts one row more than before, provided that
    the handle written to the TEKNISI cell holds no further [@]; if it
    does, the count stays as it was, because the reader removes one
    more [@] from the cell than from the sender's handle. *)
Theorem cari_counts_the_saved_activation :
  forall (users store store' : Sheet) (username text tanggal : string) (user : Row),
  handleAktivasi users store username text tanggal = (Saved, store') ->
  store <> [] ->
  getUserData users username = Some user ->
  exists before after,
    handleCari users store username = Some before
    /\ handleCari users store' username = Some after
    /\ count after
       = count before
         + (if includes (teknisiOf user username) "@" then 0 else 1).
Proof.
  intros users store store' username text tanggal user H Hne Hu.
  apply handleAktivasi_saved in H.
  destruct H as [user' [_ [Hu' [_ [_ [_ ->]]]]]].
  assert (user' = user) by congruence. subst user'.
  unfold handleCari. rewrite Hu.
  eexists. eexists. split; [reflexivity|]. split; [reflexivity|].
  unfold statsOf. cbn [count].
  rewrite rowsOfTeknisi_append by assumption.
  rewrite List.length_app. f_equal.
  rewrite teknisiHandle_rowOf, teknisi_parseAktivasi.
  unfold userTeknisiOf, teknisiOf.
  set (x := or_default (cell user 1) username).
  destruct (includes (removeFirst "@" x) "@") eqn:E.
  - assert (Hneq : handleOf (removeFirst "@" x) <> handleOf x).
    { intro Heq. apply (f_equal String.length) in Heq.
      unfold handleOf, toLowerCase in Heq. rewrite !length_str_map in Heq.
      apply removeFirst_shorter in E. lia. }
    apply String.eqb_neq in Hneq. now rewrite Hneq.
  - assert (Heq : handleOf (removeFirst "@" x) = handleOf x).
    { unfold handleOf. now rewrite (includes_char _ _ E). }
    rewrite Heq, String.eqb_refl. reflexivity.
Qed.

Lemma cari_counts_the_saved_activation_witness :
  exists before after,
    handleCari Fixture.users Fixture.storeWithSc "budi_teknisi" = Some before
    /\ handleCari Fixture.users
         (Fixture.storeWithSc ++
            [rowOf "Senin, 15 September 2025"
               (parseAktivasi "budi_teknisi" Fixture.tselText Fixture.budi)])
         "budi_teknisi" = Some after
    /\ count after = count before + 1.
Proof.
  apply (cari_counts_the_saved_activation Fixture.users Fixture.storeWithSc _
           "budi_teknisi" ("/aktivasi " ++ Fixture.tselText)
           "Senin, 15 September 2025" Fixture.budi).
  - vm_compute. reflexivity.
  - discriminate.
  - reflexivity.
Defined.

Lemma sumCounts_set : forall o k v,
  sumCounts (obj_set o k v) + countOf o k = sumCounts o + v.
Proof.
  unfold sumCounts, countOf.
  induction o as [|[k0 w] o IH]; intros k v; simpl; [lia|].
  destruct (String.eqb k0 k); simpl; [lia|].
  specialize (IH k v). lia.
Qed.

Lemma sumCounts_increment : forall o k,
  sumCounts (increment o k) = S (sumCounts o).
Proof.
  intros o k. unfold increment.
  pose proof (sumCounts_set o k
                (match obj_get o k with Some n => n | None => 0 end + 1)) as H.
  unfold countOf in H. lia.
Qed.

Lemma sumCounts_tallyKeys : forall keys o,
  sumCounts (tallyKeys keys o) = sumCounts o + List.length keys.
Proof.
  unfold tallyKeys.
  induction keys as [|k keys IH]; intro o; simpl; [lia|].
  rewrite IH, sumCounts_increment. lia.
Qed.

Lemma sumCounts_tally : forall i rows,
  sumCounts (tally i rows) = List.length rows.
Proof.
  intros i rows. rewrite tally_as_keys, sumCounts_tallyKeys, List.length_map.
  reflexivity.
Qed.

Lemma sumCounts_perm : forall l l' : list (string * nat),
  Permutation l l' -> sumCounts l = sumCounts l'.
Proof.
  unfold sumCounts. induction 1; simpl; lia.
Qed.

Lemma sumCounts_ranking : forall o, sumCounts (ranking o) = sumCounts o.
Proof. intro o. apply sumCounts_perm, ranking_perm. Qed.

Lemma length_ranking : forall o, List.length (ranking o) = List.length o.
Proof. intro o. apply Permutation_length, ranking_perm. Qed.

Lemma length_tally : forall i rows, List.length (tally i rows) <= List.length rows.
Proof.
  intros i rows. rewrite <- (sumCounts_tally i rows).
  assert (H : forall k c, In (k, c) (tally i rows) -> 0 < c).
  { intros k c Hin. now apply tally_entries in Hin. }
  revert H. generalize (tally i rows). unfold sumCounts.
  induction j as [|[k c] j IH]; intro H; simpl; [lia|].
  assert (0 < c) by (apply (H k); now left).
  assert (List.length j <= list_sum (List.map snd j)).
  { apply IH. intros k' c' Hin. apply (H k'). now right. }
  lia.
Qed.

(** X10.  In the [/ps] report each of the three breakdowns, by
    technician, by work zone and by owner, adds up to the total of the
    report; there are no more technicians than rows, and no more rows
    than the sheet has after its header. *)
Theorem ps_breakdowns_add_up :
  forall (host : JsDate.Host) (now : Z) (data : Sheet) (text : string),
  let total := fst (psReport host now data text) in
  let r := snd (psReport host now data text) in
  sumCounts (byTeknisi r) = total
  /\ sumCounts (byWorkzone r) = total
  /\ sumCounts (byOwner r) = total
  /\ List.length (byTeknisi r) <= total
  /\ total <= List.length data - 1.
Proof.
  intros host now data text. unfold psReport, psRankings.
  cbn [fst snd byTeknisi byWorkzone byOwner].
  rewrite !sumCounts_ranking, !sumCounts_tally, length_ranking.
  repeat split; try reflexivity; [apply length_tally|].
  unfold filterDataByPeriod.
  destruct (periodBounds host now "daily" (customDateOf text)).
  - etransitivity; [apply filter_length_le|]. rewrite length_skipn. lia.
  - rewrite length_skipn. lia.
Qed.

Lemma sorted_app_le : forall (l1 l2 : list (string * nat)) a b,
  descending (l1 ++ l2) -> In a l1 -> In b l2 -> snd b <= snd a.
Proof.
  unfold descending. induction l1 as [|x l1 IH]; intros l2 a b H Ha Hb;
    [contradiction|].
  simpl in H. inversion H as [|? ? Hs Hall]; subst.
  destruct Ha as [<- | Ha].
  - rewrite Forall_forall in Hall. apply Hall. apply in_or_app. now right.
  - eapply IH; eassumption.
Qed.

Lemma sorted_app_l : forall (l1 l2 : list (string * nat)),
  descending (l1 ++ l2) -> descending l1.
Proof.
  unfold descending. induction l1 as [|x l1 IH]; intros l2 H; [constructor|].
  simpl in H. inversion H as [|? ? Hs Hall]; subst. constructor.
  - eapply IH. eassumption.
  - rewrite Forall_forall in *. intros y Hy. apply Hall. apply in_or_app. now left.
Qed.

Lemma NoDup_app_l : forall (A : Type) (l1 l2 : list A), NoDup (l1 ++ l2) -> NoDup l1.
Proof.
  induction l1 as [|x l1 IH]; intros l2 H; [constructor|].
  simpl in H. inversion H as [|? ? Hnot Hn]; subst. constructor.
  - intro Hin. apply Hnot. apply in_or_app. now left.
  - eapply IH. eassumption.
Qed.

Lemma ranking_entries : forall i rows k c,
  In (k, c) (ranking (tally i rows)) <-> c = occurrences i rows k /\ 0 < c.
Proof.
  intros i rows k c. rewrite <- tally_entries. split; intro H.
  - eapply Permutation_in; [apply ranking_perm | exact H].
  - eapply Permutation_in; [apply Permutation_sym, ranking_perm | exact H].
Qed.

Lemma ranking_NoDup : forall i rows, NoDup (keysOf (ranking (tally i rows))).
Proof.
  intros i rows. unfold keysOf.
  eapply Permutation_NoDup; [|apply (tally_NoDup i rows)].
  apply Permutation_map, Permutation_sym, ranking_perm.
Qed.

Lemma firstn_topOf : forall n i rows,
  topOf n i rows (firstn n (ranking (tally i rows))).
Proof.
  intros n i rows. unfold topOf.
  set (r := ranking (tally i rows)).
  assert (Hd : descending (firstn n r ++ skipn n r)).
  { rewrite firstn_skipn. apply sortBy_descending. }
  split; [rewrite length_firstn; unfold r; now rewrite length_ranking|].
  split; [eapply sorted_app_l; exact Hd|].
  split.
  { pose proof (ranking_NoDup i rows) as Hn. fold r in Hn.
    rewrite <- (firstn_skipn n r) in Hn. unfold keysOf in *.
    rewrite List.map_app in Hn. eapply NoDup_app_l. exact Hn. }
  split.
  { intros k c Hin. apply ranking_entries. fold r.
    rewrite <- (firstn_skipn n r). apply in_or_app. now left. }
  intros k k' c Hin Hout.
  destruct (Nat.eq_dec (occurrences i rows k') 0) as [-> | Hpos]; [lia|].
  assert (Hk' : In (k', occurrences i rows k') r).
  { apply ranking_entries. split; [reflexivity | lia]. }
  rewrite <- (firstn_skipn n r) in Hk'. apply in_app_or in Hk'.
  destruct Hk' as [Hk' | Hk'].
  - exfalso. apply Hout. unfold keysOf. apply in_map_iff.
    exists (k', occurrences i rows k'). now split.
  - apply (sorted_app_le _ _ (k, c) (k', occurrences i rows k') Hd Hin Hk').
Qed.

(** X11.  The lists of [/weekly] (ten technicians, five work zones)
    and of [/monthly] (fifteen and eight) are the first places of the
    rankings of the rows of the period: each entry carries the number
    of its rows, the counts descend, and no key that is left out has
    more rows than a key that is listed. *)
Theorem weekly_and_monthly_list_the_top_keys :
  forall (host : JsDate.Host) (now : Z) (data : Sheet) (text : string),
  (let rows := filterDataByPeriod host now data "weekly" (customDateOf text) in
   let r := weeklyReport host now data text in
   total r = List.length rows
   /\ topOf 10 teknisiColumn rows (topTeknisi r)
   /\ topOf 5 workzoneColumn rows (topWorkzone r))
  /\ (let rows := filterDataByPeriod host now data "monthly" (customDateOf text) in
      let r := monthlyReport host now data text in
      total r = List.length rows
      /\ topOf 15 teknisiColumn rows (topTeknisi r)
      /\ topOf 8 workzoneColumn rows (topWorkzone r)).
Proof.
  intros host now data text.
  split; cbv zeta; unfold weeklyReport, monthlyReport, topReport;
    cbn [total topTeknisi topWorkzone];
    (split; [reflexivity | split; apply firstn_topOf]).
Qed.

Lemma tallyTeknisi_as_tally : forall rows,
  tallyTeknisi rows = tally teknisiColumn (filter hasTeknisi rows).
Proof.
  intro rows. unfold tallyTeknisi, tally. generalize (@nil (string * nat)).
  induction rows as [|row rows IH]; intro o; [reflexivity|].
  cbn [fold_left filter].
  change (negb (String.eqb (groupKey teknisiColumn row) "-"))
    with (hasTeknisi row).
  destruct (hasTeknisi row); cbn [fold_left]; apply IH.
Qed.

Lemma topteknisiRows_data : forall host now data text row,
  In row (topteknisiRows host now data text) -> In row (skipn 1 data).
Proof.
  intros host now data text row. unfold topteknisiRows.
  assert (H : forall period customDate,
            In row (filterDataByPeriod host now data period customDate) ->
            In row (skipn 1 data)).
  { intros period customDate. unfold filterDataByPeriod.
    destruct (periodBounds host now period customDate); [|tauto].
    intro Hin. apply filter_In in Hin. tauto. }
  cbv zeta.
  destruct (String.eqb _ "daily"); [apply H|].
  destruct (String.eqb _ "weekly"); [apply H|].
  destruct (String.eqb _ "monthly"); [apply H | tauto].
Qed.

(** X12.  [/topteknisi] ranks the rows that name a technician: a row
    whose TEKNISI cell is missing, empty or a dash is not counted and
    the dash is never listed; the first twenty places are listed, the
    number announced for the others is the number of the technicians
    beyond them, and every row counted is a row after the header. *)
Theorem topteknisi_ranks_the_named_technicians :
  forall (host : JsDate.Host) (now : Z) (data : Sheet) (text : string),
  let rows := filter hasTeknisi (topteknisiRows host now data text) in
  let r := topteknisiReport host now data text in
  ~ In "-" (keysOf (top20 r))
  /\ topOf 20 teknisiColumn rows (top20 r)
  /\ totalTeknisi r = List.length (tally teknisiColumn rows)
  /\ List.length (top20 r) + lainnya r = totalTeknisi r
  /\ (forall row, In row rows -> In row (skipn 1 data))
  /\ (forall row, In row rows ->
        exists t, cell row 11 = Some t /\ truthy t = true /\ t <> "-").
Proof.
  intros host now data text rows r. unfold r, topteknisiReport.
  rewrite tallyTeknisi_as_tally. fold rows.
  cbn [top20 totalTeknisi lainnya].
  pose proof (firstn_topOf 20 teknisiColumn rows) as Htop.
  split.
  { intro Hin. unfold keysOf in Hin. apply in_map_iff in Hin.
    destruct Hin as [[k c] [Ek Hin]]. simpl in Ek. subst k.
    destruct Htop as [_ [_ [_ [Hent _]]]]. apply Hent in Hin.
    destruct Hin as [-> Hpos]. unfold occurrences in Hpos.
    apply (count_occ_In string_dec) in Hpos. apply in_map_iff in Hpos.
    destruct Hpos as [row [Ek Hrow]]. unfold rows in Hrow.
    apply filter_In in Hrow. destruct Hrow as [_ Hrow].
    unfold hasTeknisi in Hrow. rewrite Ek in Hrow. discriminate Hrow. }
  split; [exact Htop|].
  split; [apply length_ranking|].
  split.
  { rewrite length_firstn.
    destruct (20 <? List.length (ranking (tally teknisiColumn rows))) eqn:E.
    - apply Nat.ltb_lt in E. lia.
    - apply Nat.ltb_ge in E. lia. }
  split.
  { intros row Hin. unfold rows in Hin. apply filter_In in Hin.
    eapply topteknisiRows_data. apply Hin. }
  intros row Hin. unfold rows in Hin. apply filter_In in Hin.
  destruct Hin as [_ Hin]. unfold hasTeknisi, groupKey, teknisiColumn in Hin.
  destruct (cell row 11) as [t|] eqn:Ec; [|discriminate Hin].
  exists t. split; [reflexivity|].
  simpl in Hin. unfold or_else in Hin.
  destruct (truthy t) eqn:Et; [|discriminate Hin].
  split; [reflexivity|]. intros ->. discriminate Hin.
Qed.

(** X13.  In the [/allps] report the total is the number of rows after
    the header, the breakdowns by owner and by work zone add up to it,
    and the technicians listed are the first five of the ranking; on a
    sheet with at most its header the total is 0 and the lists are
    empty. *)
Theorem allps_breakdowns_add_up : forall data : Sheet,
  let rows := skipn 1 data in
  let r := allpsReport data in
  totalKeseluruhan r = Z.of_nat (List.length rows)
  /\ sumCounts (perOwner r) = List.length rows
  /\ sumCounts (perSektor r) = List.length rows
  /\ topOf 5 teknisiColumn rows (topFive r)
  /\ (List.length data <= 1 ->
      totalKeseluruhan r = 0%Z /\ perOwner r = [] /\ perSektor r = []
      /\ topFive r = []).
Proof.
  intros data rows r. unfold r, allpsReport. fold rows.
  cbn [totalKeseluruhan perOwner perSektor topFive].
  rewrite !sumCounts_ranking, !sumCounts_tally.
  assert (Hlen : List.length rows = List.length data - 1).
  { unfold rows. apply length_skipn. }
  split; [lia|]. split; [reflexivity|]. split; [reflexivity|].
  split; [apply firstn_topOf|].
  intro Hdata. assert (Hrows : rows = []).
  { destruct rows; [reflexivity | simpl in Hlen; lia]. }
  rewrite Hrows. split; [lia|]. repeat split; reflexivity.
Qed.

Lemma allps_breakdowns_add_up_witness :
  totalKeseluruhan (allpsReport [Fixture.header]) = 0%Z
  /\ topFive (allpsReport [Fixture.header]) = [].
Proof.
  destruct (allps_breakdowns_add_up [Fixture.header]) as [_ [_ [_ [_ H]]]].
  destruct H as [H1 [_ [_ H2]]]; [simpl; lia|]. now split.
Defined.

Lemma countLoop_counts : forall rows s g,
  fold_left
    (fun '(sukses, gagal) row =>
       if LegacyRead.isSukses row then (sukses + 1, gagal) else (sukses, gagal + 1))
    rows (s, g)
  = (s + List.length (filter LegacyRead.isSukses rows),
     g + List.length (filter (fun row => negb (LegacyRead.isSukses row)) rows)).
Proof.
  induction rows as [|row rows IH]; intros s g; simpl.
  - f_equal; lia.
  - destruct (LegacyRead.isSukses row); simpl; rewrite IH; f_equal; lia.
Qed.

Lemma filter_partition_length : forall (A : Type) (f : A -> bool) l,
  List.length (filter f l) + List.length (filter (fun x => negb (f x)) l)
  = List.length l.
Proof.
  induction l as [|x l IH]; simpl; [reflexivity|].
  destruct (f x); simpl; lia.
Qed.

(** X14.  [/allps] of the older bot: its two counters add up to the
    number of rows after the header, the first counting the rows whose
    seventh cell reads SUKSES in any case; the total it prints is that
    sum, except on a sheet without any row, where it prints -1 (the
    enhanced bot prints the sum in every case). *)
Theorem legacy_allps_total_is_off_on_an_empty_sheet : forall data : Sheet,
  let rows := skipn 1 data in
  let r := LegacyRead.allps data in
  LegacyRead.sukses r = List.length (filter LegacyRead.isSukses rows)
  /\ LegacyRead.sukses r + LegacyRead.gagal r = List.length rows
  /\ LegacyRead.total r
     = (Z.of_nat (LegacyRead.sukses r + LegacyRead.gagal r)
        - match data with [] => 1 | _ => 0 end)%Z
  /\ totalKeseluruhan (allpsReport data)
     = Z.of_nat (LegacyRead.sukses r + LegacyRead.gagal r).
Proof.
  intros data rows r. unfold r, LegacyRead.allps, LegacyRead.countLoop.
  fold rows. rewrite countLoop_counts.
  cbn [LegacyRead.sukses LegacyRead.gagal LegacyRead.total totalKeseluruhan allpsReport].
  rewrite !Nat.add_0_l.
  pose proof (filter_partition_length Row LegacyRead.isSukses rows) as Hp.
  assert (Hlen : List.length rows = List.length data - 1).
  { unfold rows. apply length_skipn. }
  split; [reflexivity|]. split; [exact Hp|].
  rewrite Hp. split; destruct data; cbn [List.length] in *; lia.
Qed.

Lemma rowsOfTeknisi_data : forall target data row,
  In row (rowsOfTeknisi target data)
  <-> In row (skipn 1 data) /\ teknisiHandle row = target.
Proof.
  intros target data row. unfold rowsOfTeknisi. rewrite filter_In.
  now rewrite String.eqb_eq.
Qed.

(** X15.  [/cari] and [/exportcari] of a registered sender work on the
    rows after the header whose TEKNISI cell, with one [@] removed and
    in lower case, is the sender's handle: [/cari] counts them and its
    two breakdowns add up to that count, [/exportcari] answers that
    there is nothing to export exactly when the count is 0 and
    otherwise exports those rows under the sender's handle. *)
Theorem cari_reports_the_senders_rows :
  forall (users data : Sheet) (username : string) (user : Row),
  getUserData users username = Some user ->
  exists stats,
    handleCari users data username = Some stats
    /\ count stats = List.length (rowsOfTeknisi (handleOf username) data)
    /\ sumCounts (detailOwner stats) = count stats
    /\ sumCounts (detailWorkzone stats) = count stats
    /\ (forall row,
          In row (rowsOfTeknisi (handleOf username) data)
          <-> In row (skipn 1 data)
              /\ handleOf (or_default (cell row 11) "") = handleOf username)
    /\ (handleExportCari users data username = NothingToExport
        <-> count stats = 0)
    /\ (forall teknisi csvContent,
          handleExportCari users data username = CsvFile teknisi csvContent ->
          teknisi = handleOf username
          /\ csvContent
             = generateCSV (rowsOfTeknisi (handleOf username) data) exportHeaders).
Proof.
  intros users data username user Hu.
  unfold handleCari, handleExportCari. rewrite Hu.
  rewrite (userTeknisiOf_sender users username user Hu).
  eexists. split; [reflexivity|].
  unfold statsOf. cbn [count detailOwner detailWorkzone].
  rewrite !sumCounts_ranking, !sumCounts_tally.
  split; [reflexivity|]. split; [reflexivity|]. split; [reflexivity|].
  split; [intro row; apply rowsOfTeknisi_data|].
  destruct (List.length (rowsOfTeknisi (handleOf username) data)) eqn:E; cbn [Nat.eqb].
  - split; [tauto|]. intros teknisi csvContent H. discriminate H.
  - split; [split; discriminate|].
    intros teknisi csvContent H. injection H as <- <-. now split.
Qed.

Lemma cari_reports_the_senders_rows_witness :
  exists stats,
    handleCari Fixture.users Fixture.storeWithRepeat "@Budi_Teknisi" = Some stats
    /\ count stats = 3.
Proof.
  destruct (cari_reports_the_senders_rows Fixture.users Fixture.storeWithRepeat
              "@Budi_Teknisi" Fixture.budi eq_refl)
    as [stats [H1 [H2 _]]].
  exists stats. split; [exact H1 | exact H2].
Defined.

(* ================================================================== *)
(** * Part XXIII. Messages and exports *)
(* ================================================================== *)


(** ** [split] and [join] with a separator of one character *)

Lemma rev_string_app : forall s acc,
  rev_string acc s = (rev_string "" s ++ acc)%string.
Proof.
  induction s as [|c s IH]; intro acc; [reflexivity|].
  simpl. rewrite (IH (String c acc)), (IH (String c "")).
  now rewrite app_assoc.
Qed.

Lemma split_aux_nonempty : forall sep s cur skip, split_aux sep s cur skip <> [].
Proof.
  intros sep s. induction s as [|c s IH]; intros cur skip; simpl; [discriminate|].
  destruct skip; [|apply IH].
  destruct (startsWith sep (String c s)); [discriminate | apply IH].
Qed.

Lemma join_cons : forall sep x l,
  l <> [] -> join sep (x :: l) = (x ++ sep ++ join sep l)%string.
Proof. intros sep x [|y l] H; [contradiction | reflexivity]. Qed.

Lemma join_split_aux : forall c s cur,
  join (String c "") (split_aux (String c "") s cur 0)
  = (rev_string "" cur ++ s)%string.
Proof.
  intros c s. induction s as [|a s IH]; intro cur.
  - simpl. now rewrite app_empty_r.
  - cbn [split_aux]. cbn [startsWith String.length Nat.sub].
    destruct (Ascii.eqb c a) eqn:E; cbn [andb].
    + apply ascii_eqb_true in E. subst a.
      rewrite join_cons by apply split_aux_nonempty.
      rewrite IH. reflexivity.
    + rewrite IH. cbn [rev_string]. rewrite (rev_string_app cur).
      now rewrite app_assoc.
Qed.

(** Joining the pieces of a split gives the text back. *)
Lemma join_split : forall c s, join (String c "") (split (String c "") s) = s.
Proof. intros c s. unfold split. now rewrite join_split_aux. Qed.

Lemma split_nonempty : forall sep s, split sep s <> [].
Proof. intros sep s. apply split_aux_nonempty. Qed.

Lemma concatAll_cons : forall x l,
  concatAll (x :: l) = (x ++ concatAll l)%string.
Proof. reflexivity. Qed.

Lemma concat_lines : forall sep lines,
  lines <> [] ->
  concatAll (List.map (fun l => (l ++ sep)%string) lines)
  = (join sep lines ++ sep)%string.
Proof.
  intros sep lines. induction lines as [|l lines IH]; intro H; [contradiction|].
  destruct lines as [|l' lines].
  - simpl. now rewrite app_empty_r.
  - rewrite join_cons by discriminate.
    change (List.map (fun l0 => (l0 ++ sep)%string) (l :: l' :: lines))
      with ((l ++ sep)%string
            :: List.map (fun l0 => (l0 ++ sep)%string) (l' :: lines)).
    rewrite concatAll_cons, IH by discriminate. now rewrite !app_assoc.
Qed.

(** ** The chunks *)

Lemma chunkLoop_content : forall limit lines chunk,
  (concatAll (fst (chunkLoop limit lines chunk))
   ++ snd (chunkLoop limit lines chunk))%string
  = (chunk ++ concatAll (List.map (fun l => (l ++ newline)%string) lines))%string.
Proof.
  intros limit lines. induction lines as [|l lines IH]; intro chunk.
  - simpl. now rewrite app_empty_r.
  - cbn [chunkLoop List.map]. rewrite concatAll_cons.
    destruct (limit <? String.length (chunk ++ l ++ newline)).
    + specialize (IH (l ++ newline)%string).
      destruct (chunkLoop limit lines (l ++ newline)) as [pushed final].
      cbn [fst snd] in *. rewrite concatAll_cons.
      rewrite app_assoc, IH. reflexivity.
    + rewrite IH. now rewrite !app_assoc.
Qed.

Lemma concatAll_app : forall l1 l2,
  concatAll (l1 ++ l2) = (concatAll l1 ++ concatAll l2)%string.
Proof.
  induction l1 as [|x l1 IH]; intro l2; [reflexivity|].
  rewrite <- List.app_comm_cons, !concatAll_cons, IH.
  now rewrite app_assoc.
Qed.

Lemma messagesOf_content : forall limit text,
  exists dropped,
    (concatAll (messagesOf limit text) ++ dropped)%string
    = (if String.length text <=? limit then text else (text ++ newline)%string)
    /\ trim dropped = "".
Proof.
  intros limit text. unfold messagesOf.
  destruct (String.length text <=? limit).
  - exists "". simpl. split; [now rewrite !app_empty_r | reflexivity].
  - pose proof (chunkLoop_content limit (split newline text) "") as H.
    destruct (chunkLoop limit (split newline text) "") as [pushed chunk].
    cbn [fst snd] in H.
    rewrite concat_lines in H by apply split_nonempty.
    assert (J : join newline (split newline text) = text) by apply join_split.
    rewrite J in H.
    destruct (truthy (trim chunk)) eqn:E.
    + exists "". split; [|reflexivity].
      rewrite concatAll_app. simpl. now rewrite !app_empty_r.
    + exists chunk. split; [exact H|].
      destruct (trim chunk); [reflexivity | discriminate E].
Qed.

(** X16.  [sendTelegram] hands a text of at most 4000 characters over
    as one message; of a longer text it hands over chunks that, put
    together, are the text with a line feed added at its end, less a
    last chunk of white space only, which is not sent. *)
Theorem sendTelegram_loses_only_a_blank_tail : forall text : string,
  exists dropped : string,
    (concatAll (sendTelegram text) ++ dropped)%string
    = (if String.length text <=? maxLength then text
       else (text ++ newline)%string)
    /\ trim dropped = ""
    /\ (String.length text <= maxLength -> sendTelegram text = [text]).
Proof.
  intro text. destruct (messagesOf_content maxLength text) as [dropped [H1 H2]].
  exists dropped. split; [exact H1|]. split; [exact H2|].
  intro H. unfold sendTelegram, messagesOf.
  apply Nat.leb_le in H. now rewrite H.
Qed.

Lemma sendTelegram_loses_only_a_blank_tail_witness :
  sendTelegram "Bot siap" = ["Bot siap"].
Proof.
  destruct (sendTelegram_loses_only_a_blank_tail "Bot siap") as [dropped [_ [_ H]]].
  apply H. unfold maxLength. simpl. lia.
Defined.

Lemma chunkLoop_bound : forall limit lines chunk,
  String.length chunk <= limit ->
  (chunk = "" \/ 0 < String.length chunk) ->
  Forall (fun l => String.length l < limit) lines ->
  Forall (fun m => 0 < String.length m <= limit)
    (fst (chunkLoop limit lines chunk))
  /\ String.length (snd (chunkLoop limit lines chunk)) <= limit.
Proof.
  intros limit lines. induction lines as [|l lines IH]; intros chunk Hc Hne Hl.
  - simpl. split; [constructor | exact Hc].
  - inversion Hl as [|? ? Hl1 Hl2]; subst.
    assert (Hline : String.length (l ++ newline) <= limit
                    /\ 0 < String.length (l ++ newline)).
    { rewrite length_app. simpl. lia. }
    cbn [chunkLoop].
    destruct (limit <? String.length (chunk ++ l ++ newline)) eqn:E.
    + apply Nat.ltb_lt in E.
      destruct (IH (l ++ newline)%string) as [H1 H2];
        [lia | right; lia | exact Hl2 |].
      destruct (chunkLoop limit lines (l ++ newline)) as [pushed final].
      cbn [fst snd] in *. split; [|exact H2].
      constructor; [|exact H1].
      destruct Hne as [-> | Hpos]; [simpl in E; lia | lia].
    + apply Nat.ltb_ge in E. apply IH; [exact E | | exact Hl2].
      right. rewrite length_app. lia.
Qed.

(** X17.  If every line of a non-empty text has fewer than 4000
    characters, no message that [sendTelegram] hands over is empty and
    none is longer than 4000 characters. *)
Theorem sendTelegram_chunks_fit_when_the_lines_do : forall text : string,
  Forall (fun l => String.length l < maxLength) (split newline text) ->
  text <> "" ->
  Forall (fun m => 0 < String.length m <= maxLength) (sendTelegram text).
Proof.
  intros text Hl Hne. unfold sendTelegram, messagesOf.
  destruct (String.length text <=? maxLength) eqn:E.
  - apply Nat.leb_le in E. constructor; [|constructor].
    split; [|exact E]. destruct text; [contradiction | simpl; lia].
  - destruct (chunkLoop_bound maxLength (split newline text) "") as [H1 H2];
      [simpl; lia | now left | exact Hl |].
    destruct (chunkLoop maxLength (split newline text) "") as [pushed chunk].
    cbn [fst snd] in *.
    destruct (truthy (trim chunk)) eqn:Et; [|exact H1].
    apply Forall_app. split; [exact H1|]. constructor; [|constructor].
    split; [|exact H2]. destruct chunk; [discriminate Et | simpl; lia].
Qed.

(** X18.  If a text of more than 4000 characters begins with a line
    of 4000 characters or more, the first message that [sendTelegram]
    hands over is the empty string. *)
Theorem sendTelegram_sends_an_empty_chunk_first : forall text : string,
  maxLength < String.length text ->
  maxLength <= String.length (hd "" (split newline text)) ->
  exists more, sendTelegram text = "" :: more.
Proof.
  intros text Ht Hl. unfold sendTelegram, messagesOf.
  apply Nat.leb_gt in Ht. rewrite Ht.
  destruct (split newline text) as [|l lines]; [simpl in Hl; unfold maxLength in Hl; lia|].
  cbn [hd] in Hl. cbn [chunkLoop].
  assert (E : (maxLength <? String.length ("" ++ l ++ newline)) = true).
  { apply Nat.ltb_lt. simpl. rewrite length_app. simpl. lia. }
  rewrite E.
  destruct (chunkLoop maxLength lines (l ++ newline)) as [pushed final].
  destruct (truthy (trim final)); eexists; reflexivity.
Qed.

(** X19.  [sendWithRetry] calls [bot.sendMessage] until a call
    succeeds, four times at most: after the first, second and third
    failure it waits one, two and three seconds, after the fourth it
    rethrows, having waited six seconds in all. *)
Theorem sendWithRetry_gives_up_after_four_calls : forall throws : nat -> bool,
  match sendWithRetry throws with
  | Delivered retries waited =>
      retries <= maxRetries
      /\ throws retries = false
      /\ (forall i, i < retries -> throws i = true)
      /\ waited = 500 * retries * (retries + 1)
  | Thrown retries waited =>
      retries = maxRetries
      /\ (forall i, i <= maxRetries -> throws i = true)
      /\ waited = 6 * 1000
  end.
Proof.
  intro throws. unfold sendWithRetry, maxRetries. cbn [retryLoop].
  destruct (throws 0) eqn:E0; cbn [negb Nat.add].
  2:{ repeat split; [lia | assumption | intros i Hi; lia]. }
  destruct (throws 1) eqn:E1; cbn [negb Nat.add].
  2:{ repeat split; [lia | assumption |].
      intros i Hi. assert (i = 0) by lia. now subst. }
  destruct (throws 2) eqn:E2; cbn [negb Nat.add].
  2:{ repeat split; [lia | assumption |].
      intros i Hi. assert (i = 0 \/ i = 1) as [-> | ->] by lia; assumption. }
  destruct (throws 3) eqn:E3; cbn [negb Nat.add].
  2:{ repeat split; [lia | assumption |].
      intros i Hi.
      assert (i = 0 \/ i = 1 \/ i = 2) as [-> | [-> | ->]] by lia; assumption. }
  repeat split.
  intros i Hi.
  assert (i = 0 \/ i = 1 \/ i = 2 \/ i = 3) as [-> | [-> | [-> | ->]]] by lia;
    assumption.
Qed.

Lemma sendTelegram_chunks_fit_when_the_lines_do_witness :
  Forall (fun m => 0 < String.length m <= maxLength)
    (sendTelegram Sample.longText).
Proof.
  apply sendTelegram_chunks_fit_when_the_lines_do.
  - apply Forall_forall. intros l Hl. apply Nat.ltb_lt. revert l Hl.
    apply forallb_forall. vm_compute. reflexivity.
  - intro H. apply (f_equal String.length) in H. vm_compute in H.
    discriminate H.
Defined.

Lemma sendTelegram_sends_an_empty_chunk_first_witness :
  exists more, sendTelegram Sample.longLine = "" :: more.
Proof.
  apply sendTelegram_sends_an_empty_chunk_first.
  - apply Nat.ltb_lt. vm_compute. reflexivity.
  - apply Nat.leb_le. vm_compute. reflexivity.
Defined.

Lemma app_cancel_r : forall a b t : string,
  (a ++ t)%string = (b ++ t)%string -> a = b.
Proof.
  induction a as [|x a IH]; intros [|y b] t H.
  - reflexivity.
  - exfalso. apply (f_equal String.length) in H.
    simpl in H. rewrite length_app in H. lia.
  - exfalso. apply (f_equal String.length) in H.
    simpl in H. rewrite length_app in H. lia.
  - simpl in H. injection H as -> H. f_equal. eapply IH. exact H.
Qed.

Lemma doubleQuotes_inj : forall a b, doubleQuotes a = doubleQuotes b -> a = b.
Proof.
  induction a as [|x a IH]; intros [|y b] H.
  - reflexivity.
  - simpl in H. destruct (Ascii.eqb y dquoteChar); discriminate H.
  - simpl in H. destruct (Ascii.eqb x dquoteChar); discriminate H.
  - simpl in H.
    destruct (Ascii.eqb x dquoteChar) eqn:Ex, (Ascii.eqb y dquoteChar) eqn:Ey.
    + apply ascii_eqb_true in Ex, Ey. subst.
      injection H as H. f_equal. now apply IH.
    + injection H as Hy H. subst y. apply ascii_eqb_true in Ex.
      rewrite Ascii.eqb_refl in Ey. discriminate Ey.
    + injection H as Hx H. subst x.
      rewrite Ascii.eqb_refl in Ex. discriminate Ex.
    + injection H as -> H. f_equal. now apply IH.
Qed.

Lemma length_doubleQuotes : forall s,
  String.length s <= String.length (doubleQuotes s).
Proof.
  induction s as [|c s IH]; simpl; [lia|].
  destruct (Ascii.eqb c dquoteChar); simpl; lia.
Qed.

Lemma escapeCell_cases : forall cell,
  escapeCell cell
  = if special cell then (dquote ++ doubleQuotes cell ++ dquote)%string else cell.
Proof.
  intro cell. unfold escapeCell, special. now rewrite or_else_empty.
Qed.

Lemma special_head : forall s,
  special (String dquoteChar s) = true.
Proof.
  intro s. unfold special.
  assert (H : includes (String dquoteChar s) dquote = true).
  { cbn [includes startsWith dquote]. now rewrite Ascii.eqb_refl. }
  rewrite H. now destruct (includes (String dquoteChar s) ",").
Qed.

Lemma generateCSV_lines : forall data headers,
  generateCSV data headers
  = (join "," headers ++ newline ++ concatAll (List.map csvRow data))%string.
Proof.
  intros data headers. unfold generateCSV.
  rewrite <- app_assoc. generalize (join "," headers ++ newline)%string.
  induction data as [|row data IH]; intro csv.
  - simpl. now rewrite app_empty_r.
  - cbn [fold_left List.map]. rewrite concatAll_cons, IH.
    now rewrite app_assoc.
Qed.

(** X20.  The cells of the export: a cell without comma, double quote
    and line feed is written as it is, and only such a cell; any other
    cell is written between double quotes with its double quotes
    doubled; no two different cells are written alike.  The header
    line is written without that treatment. *)
Theorem escapeCell_is_injective : forall a b : string,
  (forall data headers,
     generateCSV data headers
     = (join "," headers ++ newline ++ concatAll (List.map csvRow data))%string)
  /\ (escapeCell a = a <-> special a = false)
  /\ (special a = true ->
      escapeCell a = (dquote ++ doubleQuotes a ++ dquote)%string)
  /\ (escapeCell a = escapeCell b -> a = b).
Proof.
  intros a b. split; [apply generateCSV_lines|].
  rewrite !escapeCell_cases.
  split.
  { destruct (special a); split; try reflexivity; try discriminate.
    intro H. exfalso. apply (f_equal String.length) in H.
    simpl in H. rewrite length_app in H. simpl in H.
    pose proof (length_doubleQuotes a). lia. }
  split.
  { intros ->. reflexivity. }
  destruct (special a) eqn:Ea, (special b) eqn:Eb; intro H.
  - simpl in H. injection H as H. apply app_cancel_r in H.
    now apply doubleQuotes_inj.
  - exfalso. subst b. simpl in Eb. rewrite special_head in Eb. discriminate Eb.
  - exfalso. subst a. simpl in Ea. rewrite special_head in Ea. discriminate Ea.
  - exact H.
Qed.

Lemma escapeCell_is_injective_witness :
  escapeCell "DOE, JOHN" = (dquote ++ "DOE, JOHN" ++ dquote)%string
  /\ (escapeCell "DOE, JOHN" = escapeCell "DOE, JOHN" -> "DOE, JOHN" = "DOE, JOHN").
Proof.
  destruct (escapeCell_is_injective "DOE, JOHN" "DOE, JOHN") as [_ [_ [H1 H2]]].
  split; [apply H1; reflexivity | exact H2].
Defined.

(* ================================================================== *)
(** * Part XXIV. The calendar and the windows *)
(* ================================================================== *)

Section Calendar.

Import JsDate.
Local Open Scope Z_scope.

(** ** The calendar: the civil date of a day number names that day *)

Lemma yoe_bounds : forall doe,
  0 <= doe < 146097 ->
  let yoe := yoeOf doe in
  0 <= yoe <= 399 /\ 0 <= doe - (365 * yoe + yoe / 4 - yoe / 100) <= 365.
Proof.
  intros doe H. unfold yoeOf. cbv zeta.
  Z.to_euclidean_division_equations. lia.
Qed.

Lemma days_from_civil_date : forall y m d,
  days_from_civil y m d = days_from_civil y m 1 + d - 1.
Proof. intros y m d. unfold days_from_civil. cbv zeta. lia. Qed.

Lemma civil_round_trip : forall z,
  let '(y, m, d) := civil_from_days z in
  days_from_civil y m d = z /\ 1 <= m <= 12 /\ 1 <= d <= 31.
Proof.
  intro z. unfold civil_from_days. cbv zeta.
  set (z1 := z + 719468).
  set (era := z1 / 146097).
  set (doe := z1 - era * 146097).
  assert (Hdoe : 0 <= doe < 146097).
  { unfold doe, era. pose proof (Z.mod_pos_bound z1 146097 ltac:(lia)).
    rewrite Z.mod_eq in H by lia. lia. }
  fold (yoeOf doe).
  destruct (yoe_bounds doe Hdoe) as [Hyoe Hdoy]. cbv zeta in Hyoe, Hdoy.
  set (yoe := yoeOf doe) in *.
  set (doy := doe - (365 * yoe + yoe / 4 - yoe / 100)) in *.
  set (mp := (5 * doy + 2) / 153).
  assert (Hmp : 0 <= mp <= 11 /\ 153 * mp <= 5 * doy + 2 < 153 * mp + 153).
  { unfold mp. pose proof (Z.div_mod (5 * doy + 2) 153 ltac:(lia)).
    pose proof (Z.mod_pos_bound (5 * doy + 2) 153 ltac:(lia)). lia. }
  destruct Hmp as [Hmp Hmp2].
  set (q := (153 * mp + 2) / 5).
  assert (Hq : 5 * q <= 153 * mp + 2 < 5 * q + 5).
  { unfold q. pose proof (Z.div_mod (153 * mp + 2) 5 ltac:(lia)).
    pose proof (Z.mod_pos_bound (153 * mp + 2) 5 ltac:(lia)). lia. }
  unfold days_from_civil. cbv zeta.
  assert (Hm : (if mp <? 10 then mp + 3 else mp - 9)
               = if mp <? 10 then mp + 3 else mp - 9) by reflexivity.
  destruct (mp <? 10) eqn:E10.
  - apply Z.ltb_lt in E10.
    replace (mp + 3 <=? 2) with false by (symmetry; apply Z.leb_gt; lia).
    replace (2 <? mp + 3) with true by (symmetry; apply Z.ltb_lt; lia).
    replace (yoe + era * 400 + 0) with (yoe + era * 400) by lia.
    replace ((yoe + era * 400) / 400) with era
      by (apply (Z.div_unique _ _ _ yoe); lia).
    replace (yoe + era * 400 - era * 400) with yoe by lia.
    replace (mp + 3 - 3) with mp by lia. fold q.
    split; [unfold doy, doe, z1 in *; lia|]. split; [lia|]. lia.
  - apply Z.ltb_ge in E10.
    replace (mp - 9 <=? 2) with true by (symmetry; apply Z.leb_le; lia).
    replace (2 <? mp - 9) with false by (symmetry; apply Z.ltb_ge; lia).
    replace (yoe + era * 400 + 1 - 1) with (yoe + era * 400) by lia.
    replace ((yoe + era * 400) / 400) with era
      by (apply (Z.div_unique _ _ _ yoe); lia).
    replace (yoe + era * 400 - era * 400) with yoe by lia.
    replace (mp - 9 + 9) with mp by lia. fold q.
    split; [unfold doy, doe, z1 in *; lia|]. split; [lia|]. lia.
Qed.

End Calendar.


Section WindowFacts.

Import JsDate.
Local Open Scope Z_scope.

Variable host : Host.

Lemma Day_shift : forall t k, Day (t + k * msPerDay) = Day t + k.
Proof. intros t k. unfold Day, msPerDay. now rewrite Z.div_add by lia. Qed.

Lemma TimeWithinDay_shift : forall t k,
  TimeWithinDay (t + k * msPerDay) = TimeWithinDay t.
Proof. intros t k. unfold TimeWithinDay, msPerDay. now rewrite Z.mod_add by lia. Qed.

Lemma time_split : forall t,
  t = Day t * msPerDay + TimeWithinDay t /\ 0 <= TimeWithinDay t < msPerDay.
Proof.
  intro t. unfold Day, TimeWithinDay, msPerDay.
  pose proof (Z.div_mod t 86400000 ltac:(lia)).
  pose proof (Z.mod_pos_bound t 86400000 ltac:(lia)). lia.
Qed.

Lemma midnight_Day : forall t,
  TimeWithinDay t = 0 -> t = Day t * msPerDay.
Proof. intros t H. pose proof (time_split t). lia. Qed.

Lemma MakeDay_of_time : forall t dt,
  MakeDay (YearFromTime t) (MonthFromTime t) dt = Day t - DateFromTime t + dt.
Proof.
  intros t dt. unfold YearFromTime, MonthFromTime, DateFromTime.
  pose proof (civil_round_trip (Day t)) as H.
  destruct (civil_from_days (Day t)) as [[y m] d].
  destruct H as [H [Hm Hd]]. unfold MakeDay. cbv zeta.
  replace ((m - 1) / 12) with 0 by (symmetry; apply Z.div_small; lia).
  replace ((m - 1) mod 12) with (m - 1) by (symmetry; apply Z.mod_small; lia).
  replace (y + 0) with y by lia. replace (m - 1 + 1) with m by lia.
  rewrite (days_from_civil_date y m d) in H. lia.
Qed.

(** [d.setDate(d.getDate() + k)] moves [d] by [k] days. *)
Lemma setDate_shift : forall d k,
  setDate host d (getDate host d + k) = d + k * msPerDay.
Proof.
  intros d k. unfold setDate, getDate. cbv zeta.
  rewrite MakeDay_of_time. unfold MakeDate, UTC.
  pose proof (time_split (LocalTime host d)) as [H _].
  unfold LocalTime in *. lia.
Qed.

(** [d.setHours(0, 0, 0, 0)] is the local midnight before [d]. *)
Lemma setHours_midnight : forall d,
  setHours host d 0 0 0 0 = d - TimeWithinDay (LocalTime host d).
Proof.
  intro d. unfold setHours, MakeDate, MakeTime, UTC.
  pose proof (time_split (LocalTime host d)) as [H _].
  unfold LocalTime in *. lia.
Qed.

Lemma endOfDay_midnight : forall d,
  TimeWithinDay (LocalTime host d) = 0 ->
  endOfDay host d = d + msPerDay - 1.
Proof.
  intros d H. unfold endOfDay, setHours, MakeDate, MakeTime, UTC.
  pose proof (time_split (LocalTime host d)) as [H1 _].
  unfold LocalTime, msPerDay in *. lia.
Qed.

Lemma LocalTime_shift : forall d k,
  LocalTime host (d + k) = LocalTime host d + k.
Proof. intros. unfold LocalTime. lia. Qed.

Lemma monday_reached : forall D,
  (D + mondayOffset ((D + 4) mod 7) + 4) mod 7 = 1
  /\ -6 <= mondayOffset ((D + 4) mod 7) <= 0.
Proof.
  intro D. pose proof (Z.div_mod (D + 4) 7 ltac:(lia)) as H.
  pose proof (Z.mod_pos_bound (D + 4) 7 ltac:(lia)) as Hb.
  set (w := (D + 4) mod 7) in *. set (q := (D + 4) / 7) in *.
  unfold mondayOffset. destruct (w =? 0) eqn:E.
  - apply Z.eqb_eq in E. split; [|lia].
    replace (D + -6 + 4) with (1 + (q - 1) * 7) by lia.
    now rewrite Z.mod_add by lia.
  - apply Z.eqb_neq in E. split; [|lia].
    replace (D + (1 - w) + 4) with (1 + q * 7) by lia.
    now rewrite Z.mod_add by lia.
Qed.

(** The week that the code builds around a local midnight. *)
Lemma week_of_midnight : forall ref t,
  TimeWithinDay (LocalTime host t) = 0 ->
  t <= ref < t + msPerDay ->
  let s := t + mondayOffset (getDay host t) * msPerDay in
  weekAround host ref s (s + 7 * msPerDay - 1)
  /\ setDate host s (getDate host s + 6) = s + 6 * msPerDay
  /\ TimeWithinDay (LocalTime host (s + 6 * msPerDay)) = 0.
Proof.
  intros ref t Ht Href s.
  destruct (monday_reached (Day (LocalTime host t))) as [Hmon Hoff].
  assert (Hs : TimeWithinDay (LocalTime host s) = 0).
  { unfold s. rewrite LocalTime_shift, TimeWithinDay_shift. exact Ht. }
  split; [|split].
  - unfold weekAround. split; [|split; [exact Hs | split; [reflexivity|]]].
    + unfold getDay, WeekDay, s. rewrite LocalTime_shift, Day_shift.
      exact Hmon.
    + unfold s, getDay, WeekDay, msPerDay in *. lia.
  - apply setDate_shift.
  - rewrite LocalTime_shift, TimeWithinDay_shift. exact Hs.
Qed.

Lemma today_midnight : forall now,
  let today := setHours host now 0 0 0 0 in
  TimeWithinDay (LocalTime host today) = 0 /\ today <= now < today + msPerDay.
Proof.
  intros now today. unfold today. rewrite setHours_midnight.
  pose proof (time_split (LocalTime host now)) as [H Hb]. split; [|lia].
  unfold LocalTime in *.
  replace (now - TimeWithinDay (now + LocalTZA host) + LocalTZA host)
    with (0 + Day (now + LocalTZA host) * msPerDay) by lia.
  rewrite TimeWithinDay_shift. reflexivity.
Qed.

Lemma newDate_midnight : forall y m d,
  TimeWithinDay (LocalTime host (newDate host y m d)) = 0.
Proof.
  intros y m d. rewrite newDate_UTC, LocalTime_UTC.
  unfold MakeDate, MakeTime.
  match goal with
    |- TimeWithinDay (?K * msPerDay + _) = 0 =>
      replace (K * msPerDay + (0 * 3600000 + 0 * 60000 + 0 * 1000 + 0))
        with (0 + K * msPerDay) by lia
  end.
  now rewrite TimeWithinDay_shift.
Qed.

End WindowFacts.

(** X21.  The window of the daily report is one local day, from its
    midnight to its last millisecond, and the window of the weekly
    report is the seven local days from a Monday midnight to the last
    millisecond of the Sunday: around the current moment when no date is
    given, around the local midnight that [new Date(year, month - 1,
    day)] makes of the three numbers of the anchor otherwise, on every
    host and for every such moment. *)
Theorem daily_and_weekly_windows_hold_their_anchor :
  forall (host : JsDate.Host) (now : Z),
  (forall customDate,
     truthy (or_default customDate "") = false ->
     (exists s e,
        periodBounds host now "daily" customDate = Window (Some s) (Some e)
        /\ dayAround host now s e)
     /\ (exists s e,
           periodBounds host now "weekly" customDate = Window (Some s) (Some e)
           /\ weekAround host now s e))
  /\ (forall customDate m,
        truthy customDate = true ->
        exec datePattern customDate = Some m ->
        let targetDate :=
          JsDate.newDate host (groupInt 3 m) (groupInt 2 m - 1)%Z (groupInt 1 m) in
        (exists s e,
           periodBounds host now "daily" (Some customDate)
           = Window (Some s) (Some e)
           /\ s = targetDate /\ dayAround host targetDate s e)
        /\ (exists s e,
              periodBounds host now "weekly" (Some customDate)
              = Window (Some s) (Some e)
              /\ weekAround host targetDate s e)).
Proof.
  intros host now. split.
  - intros customDate Hc.
    destruct (today_midnight host now) as [Ht Hnow]. cbv zeta in Ht, Hnow.
    split.
    + eexists. eexists. split.
      * unfold periodBounds. rewrite Hc. reflexivity.
      * unfold dayAround. rewrite (endOfDay_midnight host _ Ht).
        split; [exact Ht | split; [reflexivity | unfold JsDate.msPerDay in *; lia]].
    + destruct (week_of_midnight host now _ Ht Hnow) as [Hw [Hs6 Hm6]].
      cbv zeta in Hw, Hs6, Hm6.
      eexists. eexists. split.
      * unfold periodBounds. rewrite Hc.
        change (String.eqb "weekly" "daily") with false.
        change (String.eqb "weekly" "weekly") with true. cbv iota zeta.
        rewrite (setDate_shift host). rewrite Hs6.
        rewrite (endOfDay_midnight host _ Hm6). reflexivity.
      * replace (JsDate.setHours host now 0 0 0 0
                 + mondayOffset (JsDate.getDay host (JsDate.setHours host now 0 0 0 0))
                   * JsDate.msPerDay + 6 * JsDate.msPerDay + JsDate.msPerDay - 1)%Z
          with (JsDate.setHours host now 0 0 0 0
                + mondayOffset (JsDate.getDay host (JsDate.setHours host now 0 0 0 0))
                  * JsDate.msPerDay + 7 * JsDate.msPerDay - 1)%Z by lia.
        exact Hw.
  - intros customDate m Ht Hm targetDate.
    pose proof (newDate_midnight host (groupInt 3 m) (groupInt 2 m - 1)%Z
                  (groupInt 1 m)) as Hmid.
    fold targetDate in Hmid.
    split.
    + eexists. eexists. split; [|split].
      * rewrite (periodBounds_anchor host now "daily" customDate m Ht Hm).
        reflexivity.
      * reflexivity.
      * fold targetDate. unfold dayAround.
        rewrite (endOfDay_midnight host _ Hmid).
        split; [exact Hmid | split; [reflexivity | unfold JsDate.msPerDay; lia]].
    + assert (Href : (targetDate <= targetDate < targetDate + JsDate.msPerDay)%Z)
        by (unfold JsDate.msPerDay; lia).
      destruct (week_of_midnight host targetDate _ Hmid Href) as [Hw [Hs6 Hm6]].
      cbv zeta in Hw, Hs6, Hm6.
      destruct Hw as [Hw1 [Hw2 Hw3]].
      eexists. eexists. split.
      * rewrite (periodBounds_anchor host now "weekly" customDate m Ht Hm).
        cbv zeta. fold targetDate.
        change (String.eqb "weekly" "daily") with false.
        change (String.eqb "weekly" "weekly") with true. cbv iota.
        rewrite (setDate_shift host targetDate).
        rewrite (setHours_midnight host), Hw2, Z.sub_0_r.
        rewrite Hs6, (endOfDay_midnight host _ Hm6). reflexivity.
      * unfold weekAround. split; [exact Hw1 | split; [exact Hw2|]].
        destruct Hw3 as [_ Hw3]. split; lia.
Qed.

Lemma daily_and_weekly_windows_hold_their_anchor_witness :
  exists s e,
    periodBounds Fixture.wib Fixture.monday_morning "weekly" None
    = Window (Some s) (Some e)
    /\ weekAround Fixture.wib Fixture.monday_morning s e.
Proof.
  destruct (daily_and_weekly_windows_hold_their_anchor Fixture.wib
              Fixture.monday_morning) as [H _].
  destruct (H None eq_refl) as [_ Hw]. exact Hw.
Defined.

(** X22.  Which stored days a window selects.  A stored date that is
    read as a midnight of UTC is inside a window of [n] local days that
    begins at the local midnight [s] exactly when its day is one of the
    [n] days from the local day of [s] on, on a host at or ahead of UTC
    (by less than a day), and one of the [n] days from the next day on,
    on a host behind UTC. *)
Theorem window_selects_rows_by_their_stored_day :
  forall (host : JsDate.Host) (s e n t : Z) (row : Row) (dateStr : string),
  (- JsDate.msPerDay < JsDate.LocalTZA host < JsDate.msPerDay)%Z ->
  JsDate.TimeWithinDay (JsDate.LocalTime host s) = 0%Z ->
  e = (s + n * JsDate.msPerDay - 1)%Z ->
  cell row 0 = Some dateStr ->
  truthy dateStr = true ->
  parseIndonesianDate host dateStr = Some (JsDate.ValidDate t) ->
  JsDate.TimeWithinDay t = 0%Z ->
  (inWindow host (Some s) (Some e) row = true
   <-> (JsDate.Day (JsDate.LocalTime host s) + westShift host
        <= JsDate.Day t
        < JsDate.Day (JsDate.LocalTime host s) + westShift host + n)%Z).
Proof.
  intros host s e n t row dateStr Htz Hs He Hcell Htruthy Hparse Ht.
  unfold inWindow. rewrite Hcell, Htruthy, Hparse. cbn [andb].
  unfold JsDate.date_ge, JsDate.date_le.
  rewrite andb_true_iff, !Z.leb_le.
  apply midnight_Day in Hs, Ht.
  unfold JsDate.LocalTime in *. unfold westShift.
  set (Ds := JsDate.Day (s + JsDate.LocalTZA host)) in *.
  set (Dt := JsDate.Day t) in *.
  unfold JsDate.msPerDay in *.
  destruct (JsDate.LocalTZA host <? 0)%Z eqn:E;
    [apply Z.ltb_lt in E | apply Z.ltb_ge in E]; subst e; lia.
Qed.

Lemma window_selects_rows_by_their_stored_day_witness :
  inWindow Fixture.wib (Some 1757869200000%Z) (Some 1757955599999%Z)
    Fixture.todayRow = true
  <-> (JsDate.Day (JsDate.LocalTime Fixture.wib 1757869200000)
       + westShift Fixture.wib
       <= JsDate.Day 1757894400000
       < JsDate.Day (JsDate.LocalTime Fixture.wib 1757869200000)
         + westShift Fixture.wib + 1)%Z.
Proof.
  apply (window_selects_rows_by_their_stored_day Fixture.wib
           1757869200000 1757955599999 1 1757894400000 Fixture.todayRow
           "Senin, 15 September 2025").
  - vm_compute. split; reflexivity.
  - reflexivity.
  - reflexivity.
  - reflexivity.
  - reflexivity.
  - vm_compute. reflexivity.
  - reflexivity.
Defined.

Lemma rev_string_involutive : forall w, rev_string "" (rev_string "" w) = w.
Proof.
  assert (H : forall w acc,
            rev_string "" (rev_string acc w)
            = (rev_string "" acc ++ w)%string).
  { induction w as [|c w IH]; intro acc; simpl.
    - now rewrite app_empty_r.
    - rewrite IH. simpl. rewrite (rev_string_app acc (String c "")).
      now rewrite app_assoc. }
  intro w. now rewrite H.
Qed.

Lemma split_token : forall w tail,
  noSpace w -> split " " (w ++ String " " tail) = w :: split " " tail.
Proof.
  intros w tail H. unfold split at 1.
  now rewrite (split_first_token w tail "" H), rev_string_involutive.
Qed.

Lemma split_last_token : forall w, noSpace w -> split " " w = [w].
Proof.
  intros w H. unfold split.
  assert (G : forall w cur, noSpace w ->
            split_aux " " w cur 0 = [rev_string "" (rev_string cur w)]).
  { unfold noSpace. induction w0 as [|c w0 IH]; intros cur Hw; [reflexivity|].
    simpl in Hw. apply andb_true_iff in Hw. destruct Hw as [Hc Hw].
    cbn [split_aux startsWith]. rewrite Ascii.eqb_sym.
    apply negb_true_iff in Hc. rewrite Hc. cbn [andb]. now rewrite IH. }
  now rewrite (G w "" H), rev_string_involutive.
Qed.

Lemma digitChar_facts : forall n,
  n < 10 ->
  isDigit (digitChar n) = true
  /\ toLowerChar (digitChar n) = digitChar n
  /\ negb (Ascii.eqb (digitChar n) " ") = true
  /\ JsDate.digitVal (digitChar n) = Z.of_nat n.
Proof.
  intros n H.
  do 10 (destruct n as [|n]; [repeat split; reflexivity|]). lia.
Qed.

Lemma dayText_facts : forall d,
  1 <= d <= 31 ->
  noSpace (dayText d) /\ toLowerCase (dayText d) = dayText d
  /\ padStart 2 "0" (dayText d)
     = String (digitChar (d / 10)) (String (digitChar (d mod 10)) "").
Proof.
  intros d H. unfold dayText, noSpace.
  assert (H1 : d / 10 < 10) by (apply Nat.Div0.div_lt_upper_bound; lia).
  assert (H2 : d mod 10 < 10) by (apply Nat.mod_upper_bound; lia).
  destruct (digitChar_facts _ H1) as [_ [L1 [S1 _]]].
  destruct (digitChar_facts _ H2) as [_ [L2 [S2 _]]].
  destruct (d <? 10) eqn:E.
  - apply Nat.ltb_lt in E.
    assert (E1 : d / 10 = 0) by (apply Nat.div_small; lia).
    assert (E2 : d mod 10 = d) by (apply Nat.mod_small; lia).
    rewrite E1, E2 in *. cbn [allb]. unfold toLowerCase. cbn [Str.map].
    rewrite L2, S2. repeat split; reflexivity.
  - cbn [allb]. unfold toLowerCase. cbn [Str.map].
    rewrite L1, L2, S1, S2. repeat split; reflexivity.
Qed.

Lemma yearText_facts : forall y,
  (Z.of_nat y <= 9999)%Z ->
  noSpace (yearText y) /\ toLowerCase (yearText y) = yearText y.
Proof.
  intros y H. unfold yearText, noSpace.
  assert (H1 : y / 1000 < 10) by (apply Nat.Div0.div_lt_upper_bound; lia).
  assert (H2 : (y / 100) mod 10 < 10) by (apply Nat.mod_upper_bound; lia).
  assert (H3 : (y / 10) mod 10 < 10) by (apply Nat.mod_upper_bound; lia).
  assert (H4 : y mod 10 < 10) by (apply Nat.mod_upper_bound; lia).
  destruct (digitChar_facts _ H1) as [_ [L1 [S1 _]]].
  destruct (digitChar_facts _ H2) as [_ [L2 [S2 _]]].
  destruct (digitChar_facts _ H3) as [_ [L3 [S3 _]]].
  destruct (digitChar_facts _ H4) as [_ [L4 [S4 _]]].
  cbn [allb]. unfold toLowerCase. cbn [Str.map].
  rewrite L1, L2, L3, L4, S1, S2, S3, S4. split; reflexivity.
Qed.

Lemma year_digits : forall y,
  (1000 * Z.of_nat (y / 1000) + 100 * Z.of_nat ((y / 100) mod 10)
   + 10 * Z.of_nat ((y / 10) mod 10) + Z.of_nat (y mod 10))%Z
  = Z.of_nat y.
Proof.
  intro y.
  pose proof (Nat.div_mod_eq y 10) as E1.
  pose proof (Nat.div_mod_eq (y / 10) 10) as E2.
  pose proof (Nat.div_mod_eq (y / 100) 10) as E3.
  assert (E4 : y / 100 = y / 10 / 10) by (now rewrite Nat.Div0.div_div).
  assert (E5 : y / 1000 = y / 100 / 10) by (now rewrite Nat.Div0.div_div).
  lia.
Qed.

Lemma day_digits : forall d,
  (10 * Z.of_nat (d / 10) + Z.of_nat (d mod 10))%Z = Z.of_nat d.
Proof. intro d. pose proof (Nat.div_mod_eq d 10). lia. Qed.

(** The date string that [parseIndonesianDate] builds is read as the
    date it names. *)
Lemma isoDateOnly_built : forall y m1 m2 d,
  (Z.of_nat y <= 9999)%Z -> 1 <= d <= 31 -> m1 < 10 -> m2 < 10 ->
  (1 <= 10 * Z.of_nat m1 + Z.of_nat m2 <= 12)%Z ->
  (Z.of_nat d <= JsDate.daysInMonth (Z.of_nat y) (10 * Z.of_nat m1 + Z.of_nat m2))%Z ->
  JsDate.isoDateOnly
    (yearText y ++ "-"
     ++ String (digitChar m1) (String (digitChar m2) "") ++ "-"
     ++ String (digitChar (d / 10)) (String (digitChar (d mod 10)) ""))
  = Some (Z.of_nat y, (10 * Z.of_nat m1 + Z.of_nat m2)%Z, Z.of_nat d).
Proof.
  intros y m1 m2 d Hy Hd Hm1 Hm2 Hm Hdim.
  assert (H1 : y / 1000 < 10) by (apply Nat.Div0.div_lt_upper_bound; lia).
  assert (H2 : (y / 100) mod 10 < 10) by (apply Nat.mod_upper_bound; lia).
  assert (H3 : (y / 10) mod 10 < 10) by (apply Nat.mod_upper_bound; lia).
  assert (H4 : y mod 10 < 10) by (apply Nat.mod_upper_bound; lia).
  assert (H5 : d / 10 < 10) by (apply Nat.Div0.div_lt_upper_bound; lia).
  assert (H6 : d mod 10 < 10) by (apply Nat.mod_upper_bound; lia).
  destruct (digitChar_facts _ H1) as [D1 [_ [_ V1]]].
  destruct (digitChar_facts _ H2) as [D2 [_ [_ V2]]].
  destruct (digitChar_facts _ H3) as [D3 [_ [_ V3]]].
  destruct (digitChar_facts _ H4) as [D4 [_ [_ V4]]].
  destruct (digitChar_facts _ H5) as [D5 [_ [_ V5]]].
  destruct (digitChar_facts _ H6) as [D6 [_ [_ V6]]].
  destruct (digitChar_facts _ Hm1) as [D7 [_ [_ V7]]].
  destruct (digitChar_facts _ Hm2) as [D8 [_ [_ V8]]].
  unfold yearText. cbn [String.append JsDate.isoDateOnly forallb].
  rewrite D1, D2, D3, D4, D5, D6, D7, D8. cbn [andb].
  rewrite V1, V2, V3, V4, V5, V6, V7, V8.
  rewrite year_digits, day_digits.
  replace (1 <=? 10 * Z.of_nat m1 + Z.of_nat m2)%Z with true
    by (symmetry; apply Z.leb_le; lia).
  replace (10 * Z.of_nat m1 + Z.of_nat m2 <=? 12)%Z with true
    by (symmetry; apply Z.leb_le; lia).
  replace (1 <=? Z.of_nat d)%Z with true by (symmetry; apply Z.leb_le; lia).
  replace (Z.of_nat d <=? JsDate.daysInMonth (Z.of_nat y)
                            (10 * Z.of_nat m1 + Z.of_nat m2))%Z with true
    by (symmetry; apply Z.leb_le; lia).
  reflexivity.
Qed.

(** The month table on the twelve names, in any case of letters. *)
Lemma months_names : forall (m : nat) (month : string),
  1 <= m <= 12 ->
  toLowerCase month = toLowerCase (nth (m - 1) monthNames "") ->
  noSpace month
  /\ exists m1 m2,
       months (toLowerCase month)
       = Some (String (digitChar m1) (String (digitChar m2) ""))
       /\ m1 < 10 /\ m2 < 10 /\ 10 * m1 + m2 = m.
Proof.
  intros m month Hm E.
  assert (Hns : noSpace (toLowerCase month) -> noSpace month).
  { unfold noSpace. clear. induction month as [|c s IH]; [reflexivity|].
    intro H.
    change (negb (Ascii.eqb (toLowerChar c) " ")
            && allb (fun c => negb (Ascii.eqb c " ")) (toLowerCase s) = true) in H.
    apply andb_true_iff in H. destruct H as [Hc Hs].
    change (negb (Ascii.eqb c " ")
            && allb (fun c => negb (Ascii.eqb c " ")) s = true).
    rewrite (IH Hs), andb_true_r.
    destruct (Ascii.eqb c " ") eqn:Ec; [|reflexivity].
    apply ascii_eqb_true in Ec. subst c. discriminate Hc. }
  rewrite E.
  assert (Hcases : m = 1 \/ m = 2 \/ m = 3 \/ m = 4 \/ m = 5 \/ m = 6 \/ m = 7
                   \/ m = 8 \/ m = 9 \/ m = 10 \/ m = 11 \/ m = 12) by lia.
  split.
  - apply Hns. rewrite E.
    repeat (destruct Hcases as [-> | Hcases]; [reflexivity|]).
    subst m. reflexivity.
  - repeat (destruct Hcases as [-> | Hcases];
            [first [ exists 0, 1; repeat split; (reflexivity || lia)
                   | exists 0, 2; repeat split; (reflexivity || lia)
                   | exists 0, 3; repeat split; (reflexivity || lia)
                   | exists 0, 4; repeat split; (reflexivity || lia)
                   | exists 0, 5; repeat split; (reflexivity || lia)
                   | exists 0, 6; repeat split; (reflexivity || lia)
                   | exists 0, 7; repeat split; (reflexivity || lia)
                   | exists 0, 8; repeat split; (reflexivity || lia)
                   | exists 0, 9; repeat split; (reflexivity || lia)
                   | exists 1, 0; repeat split; (reflexivity || lia)
                   | exists 1, 1; repeat split; (reflexivity || lia) ]|]).
    subst m. exists 1, 2. repeat split; (reflexivity || lia).
Qed.

(** X23.  [parseIndonesianDate] reads a date in the long Indonesian
    format, a weekday token, the day without leading zero, one of the
    twelve month names in any case of letters and the year in four
    digits, as the midnight of UTC that begins that day of the calendar,
    on every host, whenever the day exists in that month. *)
Theorem stored_dates_are_read_as_their_day :
  forall (host : JsDate.Host) (weekday month : string) (y m d : nat),
  noSpace weekday ->
  1 <= m <= 12 ->
  toLowerCase month = toLowerCase (nth (m - 1) monthNames "") ->
  (Z.of_nat y <= 9999)%Z ->
  (1 <= Z.of_nat d <= JsDate.daysInMonth (Z.of_nat y) (Z.of_nat m))%Z ->
  d <= 31 ->
  exists t,
    parseIndonesianDate host (longDate weekday month y d)
    = Some (JsDate.ValidDate t)
    /\ t = (JsDate.MakeDay (Z.of_nat y) (Z.of_nat m - 1) (Z.of_nat d)
            * JsDate.msPerDay)%Z
    /\ JsDate.TimeWithinDay t = 0%Z.
Proof.
  intros host weekday month y m d Hw Hm Hmonth Hy Hd Hd31.
  destruct (dayText_facts d ltac:(lia)) as [Sd [Ld Pd]].
  destruct (yearText_facts y Hy) as [Sy Ly].
  destruct (months_names m month Hm Hmonth) as [Sm [m1 [m2 [Emon [Hm1 [Hm2 Em]]]]]].
  eexists. split; [|split; [reflexivity|]].
  - unfold parseIndonesianDate, longDate.
    rewrite !toLowerCase_app.
    change (toLowerCase " ") with " ".
    change (" " ++ ?x)%string with (String " " x).
    rewrite Ld, Ly.
    rewrite (split_token _ _ (noSpace_toLowerCase _ Hw)).
    change (" " ++ toLowerCase month ++ " " ++ yearText y)%string
      with (String " " (toLowerCase month ++ String " " (yearText y))).
    rewrite (split_token _ _ Sd).
    rewrite (split_token _ _ (noSpace_toLowerCase _ Sm)).
    rewrite (split_last_token _ Sy).
    cbn [List.length Nat.leb nth]. rewrite Emon, Pd.
    unfold JsDate.parseDate.
    rewrite (isoDateOnly_built y m1 m2 d Hy ltac:(lia) Hm1 Hm2).
    + replace (10 * Z.of_nat m1 + Z.of_nat m2)%Z with (Z.of_nat m) by lia.
      unfold JsDate.MakeDate. rewrite Z.add_0_r. reflexivity.
    + lia.
    + replace (10 * Z.of_nat m1 + Z.of_nat m2)%Z with (Z.of_nat m) by lia. lia.
  - unfold JsDate.TimeWithinDay, JsDate.msPerDay. apply Z.mod_mul. lia.
Qed.

Lemma stored_dates_are_read_as_their_day_witness :
  exists t,
    parseIndonesianDate Fixture.wib (longDate "Senin," "SEPTEMBER" 2025 15)
    = Some (JsDate.ValidDate t)
    /\ t = (JsDate.MakeDay (Z.of_nat 2025) (Z.of_nat 9 - 1) (Z.of_nat 15)
            * JsDate.msPerDay)%Z
    /\ JsDate.TimeWithinDay t = 0%Z.
Proof.
  apply (stored_dates_are_read_as_their_day Fixture.wib "Senin," "SEPTEMBER"
           2025 9 15).
  - reflexivity.
  - lia.
  - reflexivity.
  - vm_compute. discriminate.
  - vm_compute. split; discriminate.
  - lia.
Defined.

(* ================================================================== *)
(** * Part XXV. The message handler and the users *)
(* ================================================================== *)


Lemma starts_ci_compatible : forall a b s,
  starts_ci a s -> starts_ci b s -> compatible a b = true.
Proof.
  intros a b s Ha. revert b. induction Ha as [s|x y a s Hxy Ha IH]; intros b Hb.
  - reflexivity.
  - inversion Hb as [|x' y' b' s' Hxy' Hb']; subst; [reflexivity|].
    cbn [compatible]. rewrite (IH _ Hb'), andb_true_r.
    apply ascii_eqb_true. congruence.
Qed.

(** ** The matcher on a literal after [^] *)

Lemma rmatch_lit_sound : forall w p s cs k,
  rmatch true (lit w) (mkMState p s cs) k <> None -> starts_ci w s.
Proof.
  induction w as [|c w IH]; intros p s cs k H; [constructor|].
  assert (Hstep : forall k',
            step_char (chr_eqb true c) (mkMState p s cs) k' <> None ->
            exists a s', s = String a s' /\ toUpperChar c = toUpperChar a
                         /\ k' (mkMState (Some a) s' cs) <> None).
  { intros k' Hk. unfold step_char in Hk. cbn [rest caps] in Hk.
    destruct s as [|a s']; [contradiction|].
    destruct (chr_eqb true c a) eqn:E; [|contradiction].
    exists a, s'. repeat split; [|exact Hk].
    unfold chr_eqb in E. now apply ascii_eqb_true. }
  destruct w as [|c' w'].
  - cbn [lit rmatch] in H. destruct (Hstep _ H) as [a [s' [-> [E _]]]].
    constructor; [exact E | constructor].
  - change (lit (String c (String c' w')))
      with (Seq (Chr c) (lit (String c' w'))) in H.
    cbn [rmatch] in H. destruct (Hstep _ H) as [a [s' [-> [E Hk]]]].
    constructor; [exact E|]. eapply IH. exact Hk.
Qed.

Lemma rmatch_lit_complete : forall w p s cs k,
  starts_ci w s ->
  exists p' s',
    rmatch true (lit w) (mkMState p s cs) k = k (mkMState p' s' cs).
Proof.
  induction w as [|c w IH]; intros p s cs k H.
  - exists p, s. reflexivity.
  - inversion H as [|x a w0 s' E Hw]; subst.
    assert (Hc : chr_eqb true c a = true).
    { unfold chr_eqb. now apply ascii_eqb_true. }
    destruct w as [|c' w'].
    + exists (Some a), s'. cbn [lit rmatch]. unfold step_char.
      cbn [rest caps]. now rewrite Hc.
    + change (lit (String c (String c' w')))
        with (Seq (Chr c) (lit (String c' w'))).
      cbn [rmatch]. unfold step_char at 1. cbn [rest caps]. rewrite Hc.
      apply IH. exact Hw.
Qed.

Lemma exec_from_Bol_later : forall ic r s pre c,
  exec_from ic (Seq Bol r) pre (Some c) s = None.
Proof.
  intros ic r s. induction s as [|a s IH]; intros pre c; cbn [exec_from rmatch prev].
  - reflexivity.
  - apply IH.
Qed.

Lemma test_Bol : forall r s,
  test (Pat.icase (Seq Bol r)) s = true
  <-> rmatch true r (mkMState None s []) (fun st => Some st) <> None.
Proof.
  intros r s. unfold test, exec, Pat.icase. cbn [ignoreCase source].
  assert (E : rmatch true r (mkMState None s []) (fun st => Some st) = None ->
              exec_from true (Seq Bol r) "" None s = None).
  { intro H. destruct s as [|a s]; cbn [exec_from rmatch prev]; rewrite H;
      [reflexivity | apply exec_from_Bol_later]. }
  split.
  - intros H Hn. rewrite (E Hn) in H. discriminate H.
  - intro H. destruct s as [|a s]; cbn [exec_from rmatch prev];
      match goal with
      | |- context [match ?m with Some _ => _ | None => _ end] =>
          destruct m; [reflexivity | now contradiction H]
      end.
Qed.

Lemma commandRe_sound : forall name s,
  test (commandRe name) s = true -> starts_ci name s.
Proof.
  intros name s H. unfold commandRe in H.
  change (seq [Bol; lit name; WordBoundary])
    with (Seq Bol (Seq (lit name) WordBoundary)) in H.
  apply test_Bol in H. cbn [rmatch] in H.
  eapply rmatch_lit_sound. exact H.
Qed.

Lemma prefixRe_iff : forall name s,
  test (prefixRe name) s = true <-> starts_ci name s.
Proof.
  intros name s. unfold prefixRe.
  change (seq [Bol; lit name]) with (Seq Bol (lit name)).
  rewrite test_Bol. split.
  - apply rmatch_lit_sound.
  - intro H.
    destruct (rmatch_lit_complete name None s [] (fun st => Some st) H)
      as [p' [s' E]].
    rewrite E. discriminate.
Qed.

Lemma aktivasiCommand_sound : forall s,
  test Pat.aktivasiCommand s = true -> starts_ci "/aktivasi" s.
Proof. intros s H. now apply (commandRe_sound "/aktivasi"). Qed.

Lemma starts_ci_slash : forall name s,
  starts_ci (String "/" name) s -> startsWith "/" s = true.
Proof.
  intros name s H. inversion H as [|x a w s' E Hw]; subst.
  cbn [startsWith]. rewrite andb_true_r.
  destruct a as [[] [] [] [] [] [] [] []]; try discriminate E; reflexivity.
Qed.

(** A command test fails on a text that begins like another command. *)
Lemma commandRe_clash : forall name other s,
  starts_ci other s -> compatible name other = false ->
  test (commandRe name) s = false.
Proof.
  intros name other s Ho Hc.
  destruct (test (commandRe name) s) eqn:E; [|reflexivity].
  apply commandRe_sound in E.
  rewrite (starts_ci_compatible _ _ _ E Ho) in Hc. discriminate Hc.
Qed.

Lemma commandRe_no_slash : forall name s,
  startsWith "/" s = false -> test (commandRe (String "/" name)) s = false.
Proof.
  intros name s H.
  destruct (test (commandRe (String "/" name)) s) eqn:E; [|reflexivity].
  apply commandRe_sound, starts_ci_slash in E. congruence.
Qed.

Lemma reserved_test : forall s,
  existsb (fun p => test (prefixRe p) s) reservedPrefixes = true
  <-> exists p, In p reservedPrefixes /\ starts_ci p s.
Proof.
  intro s. rewrite existsb_exists.
  split; intros [p [Hp H]]; exists p; (split; [exact Hp|]); now apply prefixRe_iff.
Qed.

(** X24.  Only commands are answered.  In a group or supergroup chat
    a message reaches the [/aktivasi] branch when it passes the test of
    that command and is dropped without a reply otherwise; a text that
    does not begin with a slash is answered in no chat; and the handler
    falls through all its branches only for such a text, outside group
    chats. *)
Theorem only_commands_are_answered :
  forall chatType text : string,
  (groupChat chatType = true ->
     (test Pat.aktivasiCommand text = true /\ route chatType text = Aktivasi)
     \/ (test Pat.aktivasiCommand text = false /\ route chatType text = Ignored))
  /\ (startsWith "/" text = false ->
        route chatType text = Silent \/ route chatType text = Ignored)
  /\ (route chatType text = Silent ->
        groupChat chatType = false /\ startsWith "/" text = false).
Proof.
  intros chatType text. unfold route. fold (groupChat chatType).
  split; [|split].
  - intro Hg. rewrite Hg. cbn [andb].
    destruct (test Pat.aktivasiCommand text) eqn:Ea; [left | right; now split].
    split; [reflexivity|]. cbn [negb].
    pose proof (aktivasiCommand_sound text Ea) as Hs.
    rewrite (commandRe_clash "/exportcari" _ _ Hs eq_refl).
    rewrite (commandRe_clash "/ps" _ _ Hs eq_refl).
    rewrite (commandRe_clash "/weekly" _ _ Hs eq_refl).
    rewrite (commandRe_clash "/monthly" _ _ Hs eq_refl).
    rewrite (commandRe_clash "/topteknisi" _ _ Hs eq_refl).
    rewrite (commandRe_clash "/allps" _ _ Hs eq_refl).
    rewrite (commandRe_clash "/cari" _ _ Hs eq_refl).
    rewrite (commandRe_clash "/clear" _ _ Hs eq_refl).
    assert (Hr : existsb (fun p => test (prefixRe p) text) reservedPrefixes = true).
    { apply reserved_test. exists "/aktivasi". split; [|exact Hs].
      unfold reservedPrefixes. simpl. tauto. }
    rewrite Hr. cbn [negb]. rewrite andb_false_r. reflexivity.
  - intro Hs.
    assert (Ha : test Pat.aktivasiCommand text = false)
      by apply (commandRe_no_slash "aktivasi" _ Hs).
    rewrite Ha. cbn [negb]. rewrite andb_true_r.
    destruct (groupChat chatType); [now right | left].
    rewrite !(commandRe_no_slash _ _ Hs).
    assert (Hw : isSlashWord text = false).
    { destruct text as [|c w]; [reflexivity|].
      cbn [startsWith] in Hs. rewrite andb_true_r in Hs.
      unfold isSlashWord.
      destruct c as [[] [] [] [] [] [] [] []]; try reflexivity; discriminate Hs. }
    rewrite Hw, Hs. reflexivity.
  - destruct (groupChat chatType && negb (test Pat.aktivasiCommand text)) eqn:Eg;
      [discriminate|].
    repeat match goal with
           | |- (if ?c then _ else _) = Silent -> _ =>
               destruct c eqn:?; [discriminate|]
           end.
    intros _. split; [|reflexivity].
    destruct (groupChat chatType); [|reflexivity].
    cbn [andb] in Eg. apply negb_false_iff in Eg. congruence.
Qed.

Lemma only_commands_are_answered_witness :
  (test Pat.aktivasiCommand "/ps" = true /\ route "group" "/ps" = Aktivasi)
  \/ (test Pat.aktivasiCommand "/ps" = false /\ route "group" "/ps" = Ignored).
Proof.
  destruct (only_commands_are_answered "group" "/ps") as [H _].
  apply H. reflexivity.
Defined.

(** X25.  The statistics of a technician, [/<username>], are reached
    exactly by a text outside group chats that is a slash followed by
    letters, digits and underscores only and that does not begin, in
    any case of letters, with one of the twelve reserved words: a
    technician whose handle begins with ps, cari, help, start and the
    like cannot be looked up. *)
Theorem user_stats_are_shadowed_by_command_words :
  forall chatType text : string,
  route chatType text = UserStats
  <-> groupChat chatType = false
      /\ isSlashWord text = true
      /\ forall p, In p reservedPrefixes -> ~ starts_ci p text.
Proof.
  intros chatType text.
  assert (Hres : existsb (fun p => test (prefixRe p) text) reservedPrefixes = false
                 <-> forall p, In p reservedPrefixes -> ~ starts_ci p text).
  { split.
    - intros H p Hp Hs.
      assert (Ht : existsb (fun p => test (prefixRe p) text) reservedPrefixes = true)
        by (apply reserved_test; eauto).
      congruence.
    - intro H. apply not_true_is_false. intro Ht.
      apply reserved_test in Ht. destruct Ht as [p [Hp Hs]]. exact (H p Hp Hs). }
  unfold route. fold (groupChat chatType). split.
  - intro H.
    destruct (groupChat chatType && negb (test Pat.aktivasiCommand text)) eqn:Eg;
      [discriminate|].
    repeat match type of H with
           | (if test ?r text then _ else _) = UserStats =>
               destruct (test r text) eqn:?; [discriminate|]
           end.
    destruct (isSlashWord text
              && negb (existsb (fun p => test (prefixRe p) text) reservedPrefixes))
      eqn:Eu.
    + apply andb_true_iff in Eu. destruct Eu as [Hw Hn].
      apply negb_true_iff in Hn. pose proof (proj1 Hres Hn) as Hn'.
      split; [|split; assumption].
      destruct (groupChat chatType); [|reflexivity].
      cbn [andb] in Eg. apply negb_false_iff in Eg.
      exfalso. apply (Hn' "/aktivasi").
      * unfold reservedPrefixes. simpl. tauto.
      * now apply aktivasiCommand_sound.
    + exfalso.
      repeat match type of H with
             | (if ?c then _ else _) = UserStats =>
                 destruct c; [discriminate|]
             end.
      discriminate H.
  - intros [Hg [Hw Hn]]. rewrite Hg. cbn [andb].
    assert (Hcmd : forall name, In name reservedPrefixes ->
              test (commandRe name) text = false).
    { intros name Hin. destruct (test (commandRe name) text) eqn:E; [|reflexivity].
      exfalso. apply (Hn name Hin). now apply commandRe_sound. }
    rewrite !Hcmd by (unfold reservedPrefixes; simpl; tauto).
    pose proof (proj2 Hres Hn) as Hn'. now rewrite Hw, Hn'.
Qed.

Lemma user_stats_are_shadowed_by_command_words_witness :
  route "private" "/budi_teknisi" = UserStats.
Proof.
  apply (user_stats_are_shadowed_by_command_words "private" "/budi_teknisi").
  split; [reflexivity|]. split; [reflexivity|].
  intros p Hin Hs. apply prefixRe_iff in Hs. simpl in Hin.
  repeat (destruct Hin as [<- | Hin]; [vm_compute in Hs; discriminate Hs|]).
  contradiction.
Defined.

Lemma removeFirst_map : forall (f : ascii -> ascii) c s,
  (forall a, Ascii.eqb (f a) c = Ascii.eqb a c) ->
  removeFirst c (Str.map f s) = Str.map f (removeFirst c s).
Proof.
  intros f c s Hf. induction s as [|a s IH]; [reflexivity|].
  cbn [Str.map removeFirst]. rewrite Hf.
  destruct (Ascii.eqb a c); [reflexivity|]. cbn [Str.map]. now rewrite IH.
Qed.

Lemma toLowerCase_toUpperCase : forall s,
  toLowerCase (toUpperCase s) = toLowerCase s.
Proof.
  induction s as [|c s IH]; [reflexivity|].
  unfold toLowerCase, toUpperCase in *. cbn [Str.map]. rewrite IH. f_equal.
  each_char c.
Qed.

Lemma toLowerCase_idem : forall s, toLowerCase (toLowerCase s) = toLowerCase s.
Proof.
  induction s as [|c s IH]; [reflexivity|].
  unfold toLowerCase in *. cbn [Str.map]. rewrite IH. f_equal. each_char c.
Qed.

Lemma handleOf_case : forall u,
  handleOf (toUpperCase u) = handleOf u /\ handleOf (toLowerCase u) = handleOf u.
Proof.
  intro u. unfold handleOf, toUpperCase, toLowerCase. split.
  - rewrite removeFirst_map by (intro a; each_char a).
    apply toLowerCase_toUpperCase.
  - rewrite removeFirst_map by (intro a; each_char a).
    apply toLowerCase_idem.
Qed.

Lemma getUserData_handle : forall users u v,
  handleOf u = handleOf v -> getUserData users u = getUserData users v.
Proof.
  intros users u v H. unfold getUserData, isActiveUser. now rewrite H.
Qed.

Lemma find_first : forall (A : Type) (f : A -> bool) before x after,
  (forall y, In y before -> f y = false) -> f x = true ->
  find f (before ++ x :: after) = Some x.
Proof.
  intros A f before x after Hb Hx. induction before as [|y before IH].
  - simpl. now rewrite Hx.
  - simpl. rewrite (Hb y (or_introl eq_refl)). apply IH.
    intros z Hz. apply Hb. now right.
Qed.


(** X26.  The lookup of a sender does not depend on the case of the
    letters of the name nor on an [@] in front of it; it returns the
    first row after the header that is active and carries the handle,
    and that row alone decides whether the sender is an
    administrator. *)
Theorem user_lookup_takes_the_first_active_row :
  forall (users : Sheet) (username : string),
  (getUserData users (toUpperCase username) = getUserData users username
   /\ getUserData users (toLowerCase username) = getUserData users username
   /\ getUserData users (String "@" (removeFirst "@" username))
      = getUserData users username
   /\ isAdmin users (toUpperCase username) = isAdmin users username)
  /\ (forall before row after,
        skipn 1 users = before ++ row :: after ->
        (forall r, In r before -> isActiveUser username r = false) ->
        isActiveUser username row = true ->
        getUserData users username = Some row
        /\ isAdmin users username
           = String.eqb (toUpperCase (or_default (cell row 2) "")) "ADMIN")
  /\ (forall row,
        getUserData users username = Some row ->
        In row (skipn 1 users)
        /\ handleOf (or_default (cell row 1) "") = handleOf username
        /\ toUpperCase (or_default (cell row 3) "") = "AKTIF").
Proof.
  intros users username. destruct (handleOf_case username) as [Hu Hl].
  split; [|split].
  - assert (E : getUserData users (toUpperCase username)
                = getUserData users username)
      by (apply getUserData_handle; exact Hu).
    split; [exact E|]. split; [apply getUserData_handle; exact Hl|].
    split; [apply getUserData_handle; unfold handleOf; cbn [removeFirst];
            reflexivity|].
    unfold isAdmin. now rewrite E.
  - intros before row after Hs Hb Hr.
    assert (E : getUserData users username = Some row).
    { unfold getUserData. rewrite Hs. now apply find_first. }
    split; [exact E|]. unfold isAdmin. now rewrite E.
  - intros row H. unfold getUserData in H. apply find_some in H.
    destruct H as [Hin H]. unfold isActiveUser in H.
    apply andb_true_iff in H. destruct H as [H1 H2].
    apply String.eqb_eq in H1, H2. auto.
Qed.

Lemma user_lookup_takes_the_first_active_row_witness :
  getUserData Fixture.users "sari_admin"
  = Some ["2"; "@sari_admin"; "ADMIN"; "AKTIF"]
  /\ isAdmin Fixture.users "sari_admin" = true.
Proof.
  destruct (user_lookup_takes_the_first_active_row Fixture.users "sari_admin")
    as [_ [H _]].
  destruct (H [Fixture.budi] ["2"; "@sari_admin"; "ADMIN"; "AKTIF"] [])
    as [H1 H2].
  - reflexivity.
  - intros r [<- | []]. reflexivity.
  - reflexivity.
  - split; [exact H1 | rewrite H2; reflexivity].
Defined.



(* ================================================================== *)
(** * Part XXVI. Labelled lines, the older reports, and the day within the week *)
(* ================================================================== *)


Lemma includes_char_allb : forall c s,
  includes s (String c "") = false ->
  allb (fun a => negb (Ascii.eqb a c)) s = true.
Proof.
  intros c s. induction s as [|a s IH]; [reflexivity|].
  cbn [includes startsWith]. rewrite andb_true_r, (Ascii.eqb_sym c a).
  intro H. apply orb_false_iff in H. destruct H as [H1 H2].
  change (negb (Ascii.eqb a c) && allb (fun a => negb (Ascii.eqb a c)) s = true).
  now rewrite H1, (IH H2).
Qed.

Lemma split_char_first : forall c w tail cur,
  allb (fun a => negb (Ascii.eqb a c)) w = true ->
  split_aux (String c "") (w ++ String c tail) cur 0
  = rev_string "" (rev_string cur w) :: split (String c "") tail.
Proof.
  intros c w. induction w as [|a w IH]; intros tail cur Hw.
  - cbn [String.append split_aux startsWith rev_string String.length Nat.sub].
    now rewrite Ascii.eqb_refl.
  - change (negb (Ascii.eqb a c) && allb (fun a => negb (Ascii.eqb a c)) w = true)
      in Hw.
    apply andb_true_iff in Hw. destruct Hw as [Hc Hw].
    change (String a w ++ String c tail)%string
      with (String a (w ++ String c tail)).
    cbn [split_aux startsWith].
    rewrite Ascii.eqb_sym. apply negb_true_iff in Hc. rewrite Hc.
    cbn [andb]. now rewrite IH.
Qed.

(** What follows the first colon of a line. *)
Lemma afterColon_value : forall head value,
  includes head ":" = false ->
  afterColon (head ++ ":" ++ value) = trim value.
Proof.
  intros head value H. unfold afterColon, split.
  change (head ++ ":" ++ value)%string with (head ++ String ":" value)%string.
  rewrite (split_char_first ":" head value "" (includes_char_allb _ _ H)).
  cbn [skipn]. now rewrite join_split.
Qed.

Lemma upper_label : forall label,
  (toUpperCase label ++ " :")%string = toUpperCase (label ++ " :").
Proof.
  intro label. induction label as [|c l IH]; [reflexivity|].
  unfold toUpperCase in *. cbn [Str.map String.append]. now rewrite IH.
Qed.

Lemma getValue_first : forall lines before after label line,
  lines = before ++ line :: after ->
  (forall l, In l before -> ~ starts_ci (label ++ " :") l) ->
  starts_ci (label ++ " :") line ->
  getValue lines label = afterColon line.
Proof.
  intros lines before after label line -> Hb Hl. unfold getValue.
  rewrite find_first; [reflexivity | |].
  - intros l Hin. apply not_true_is_false. intro H.
    rewrite upper_label in H. apply startsWith_upper in H. exact (Hb l Hin H).
  - rewrite upper_label. now apply startsWith_upper.
Qed.

(** X28.  In the label fallback of [parseAktivasi] a field is read from
    the first line that begins with its label, one blank and a colon,
    letters compared without regard to case: the value is the text
    after the first colon of that line, trimmed, later colons
    included; when it is not empty it is the field, before any pattern
    is tried. *)
Theorem labelled_line_gives_the_text_after_its_colon :
  forall (text username label head value : string) (userRow : Row)
         (before after : list string),
  linesOf text = before ++ (head ++ ":" ++ value)%string :: after ->
  (forall l, In l before -> ~ starts_ci (label ++ " :") l) ->
  starts_ci (label ++ " :") (head ++ ":" ++ value) ->
  includes head ":" = false ->
  getValue (linesOf text) label = trim value
  /\ (detectOwner text = "" -> truthy (trim value) = true ->
      let parsed := parseAktivasi username text userRow in
      (label = "AO" -> ao parsed = trim value)
      /\ (label = "WORKORDER" -> workorder parsed = trim value)
      /\ (label = "SERVICE NO" -> serviceNo parsed = trim value)
      /\ (label = "CUSTOMER NAME" -> customerName parsed = trim value)
      /\ (label = "OWNER" -> owner parsed = trim value)
      /\ (label = "WORKZONE" -> workzone parsed = trim value)
      /\ (label = "SN ONT" -> snOnt parsed = trim value)
      /\ (label = "NIK ONT" -> nikOnt parsed = trim value)
      /\ (label = "STB ID" -> stbId parsed = trim value)
      /\ (label = "NIK STB" -> nikStb parsed = trim value)).
Proof.
  intros text username label head value userRow before after Hlines Hb Hl Hh.
  assert (Hv : getValue (linesOf text) label = trim value).
  { rewrite (getValue_first _ _ _ _ _ Hlines Hb Hl). now apply afterColon_value. }
  split; [exact Hv|].
  intros Hd Ht parsed. unfold parsed, parseAktivasi. rewrite Hd.
  change (String.eqb "" "TSEL") with false.
  change (String.eqb "" "BGES" || String.eqb "" "WMS") with false.
  cbv iota. unfold parseManual.
  cbn [ao workorder serviceNo customerName owner workzone snOnt nikOnt stbId nikStb].
  repeat split; intros ->; rewrite Hv; unfold or_else; now rewrite Ht.
Qed.

Lemma labelled_line_gives_the_text_after_its_colon_witness :
  getValue (linesOf Fixture.manualText) "ao" = "sc123456"
  /\ ao (parseAktivasi "budi_teknisi"
           ("ao : SC1:2" ++ Fixture.nl ++ "AO : SC999999") Fixture.budi)
     = "SC1:2".
Proof.
  split.
  - assert (H : starts_ci ("ao" ++ " :") ("AO " ++ ":" ++ " sc123456"))
      by (repeat constructor).
    destruct (labelled_line_gives_the_text_after_its_colon Fixture.manualText
                "budi_teknisi" "ao" "AO " " sc123456" Fixture.budi []
                ["SERVICE NO : 12345678901"; "SN ONT : ZTEG12345678";
                 "NIK ONT : 987654321"]
                eq_refl (fun l (F : In l []) => match F with end) H eq_refl)
      as [Hv _].
    exact Hv.
  - assert (H : starts_ci ("AO" ++ " :") ("ao " ++ ":" ++ " SC1:2"))
      by (repeat constructor).
    destruct (labelled_line_gives_the_text_after_its_colon
                ("ao : SC1:2" ++ Fixture.nl ++ "AO : SC999999")
                "budi_teknisi" "AO" "ao " " SC1:2" Fixture.budi []
                ["AO : SC999999"]
                eq_refl (fun l (F : In l []) => match F with end) H eq_refl)
      as [_ Hp].
    destruct (Hp eq_refl eq_refl) as [Hao _]. exact (Hao eq_refl).
Defined.

Lemma legacy_saved : forall users store username text tanggal store',
  Legacy.handleAktivasi users store username text tanggal = (Saved, store') ->
  exists user p,
    getUserData users username = Some user
    /\ Legacy.parseLegacy (payloadOf text) = Some p
    /\ truthy (snOnt p) = true /\ truthy (nikOnt p) = true
    /\ store' = store ++ [rowOf tanggal p].
Proof.
  intros users store username text tanggal store' H.
  unfold Legacy.handleAktivasi in H. fold (payloadOf text) in H.
  destruct (negb (test Pat.aktivasiCommand text)); [discriminate|].
  destruct (getUserData users username) as [user|]; [|discriminate].
  destruct (negb (truthy (payloadOf text))); [discriminate|].
  destruct (Legacy.parseLegacy (payloadOf text)) as [p|]; [|discriminate].
  destruct (truthy (snOnt p)) eqn:E1; [|discriminate].
  destruct (truthy (nikOnt p)) eqn:E2; [|discriminate].
  cbn [negb orb] in H. injection H as <-.
  exists user, p. repeat split; (reflexivity || assumption).
Qed.

Lemma isSukses_rowOf : forall tanggal p,
  LegacyRead.isSukses (rowOf tanggal p)
  = String.eqb (toUpperCase (workzone p)) "SUKSES".
Proof.
  intros tanggal p. unfold LegacyRead.isSukses, rowOf, cell. simpl.
  now rewrite or_else_empty.
Qed.

Lemma legacy_sukses : forall data,
  LegacyRead.sukses (LegacyRead.allps data)
  = List.length (filter LegacyRead.isSukses (skipn 1 data)).
Proof.
  intro data. unfold LegacyRead.allps, LegacyRead.countLoop.
  rewrite countLoop_counts. reflexivity.
Qed.

Lemma rowOf_columns : forall tanggal p,
  or_default (cell (rowOf tanggal p) 2) "" = workorder p
  /\ or_default (cell (rowOf tanggal p) 3) "" = serviceNo p.
Proof.
  intros tanggal p. unfold rowOf, cell. simpl. now rewrite !or_else_empty.
Qed.

(** X29.  The reports of the older bot read other columns than its
    [/aktivasi] writes: of a record that it has saved, [/allps] counts
    as SUKSES the one whose WORKZONE reads so, [/cari <SN>] finds it by
    its WORKORDER and [/nik <NIK>] counts it by its SERVICE NO; the
    SN ONT and NIK ONT that the record must have are read by no
    report. *)
Theorem legacy_reports_read_other_columns :
  forall (users store store' : Sheet) (username text tanggal : string),
  Legacy.handleAktivasi users store username text tanggal = (Saved, store') ->
  store <> [] ->
  exists p,
    Legacy.parseLegacy (payloadOf text) = Some p
    /\ store' = store ++ [rowOf tanggal p]
    /\ LegacyRead.sukses (LegacyRead.allps store')
       = LegacyRead.sukses (LegacyRead.allps store)
         + (if String.eqb (toUpperCase (workzone p)) "SUKSES" then 1 else 0)
    /\ (forall query sn,
          LegacyRead.argOf query = Some sn -> truthy sn = true ->
          exists found,
            LegacyRead.cari store query = Some found
            /\ LegacyRead.cari store' query
               = Some (found
                       ++ if String.eqb (toUpperCase (workorder p)) (toUpperCase sn)
                          then [rowOf tanggal p] else []))
    /\ (forall query k,
          LegacyRead.argOf query = Some k -> truthy k = true ->
          exists n,
            LegacyRead.nik store query = Some n
            /\ LegacyRead.nik store' query
               = Some (n + if String.eqb (toUpperCase (serviceNo p)) (toUpperCase k)
                           then 1 else 0)).
Proof.
  intros users store store' username text tanggal H Hne.
  apply legacy_saved in H. destruct H as [user [p [_ [Hp [_ [_ ->]]]]]].
  exists p. split; [exact Hp|]. split; [reflexivity|].
  assert (Hskip : skipn 1 (store ++ [rowOf tanggal p])
                  = skipn 1 store ++ [rowOf tanggal p]).
  { rewrite skipn1_append. destruct store; [contradiction | reflexivity]. }
  split; [|split].
  - rewrite !legacy_sukses, Hskip, filter_app, List.length_app.
    cbn [filter]. rewrite isSukses_rowOf.
    now destruct (String.eqb (toUpperCase (workzone p)) "SUKSES").
  - intros query sn Hq Hs. unfold LegacyRead.cari. rewrite Hq, Hs.
    eexists. split; [reflexivity|].
    rewrite Hskip, filter_app. cbn [filter].
    rewrite (proj1 (rowOf_columns tanggal p)).
    now destruct (String.eqb (toUpperCase (workorder p)) (toUpperCase sn)).
  - intros query k Hq Hk. unfold LegacyRead.nik. rewrite Hq, Hk.
    eexists. split; [reflexivity|].
    rewrite Hskip, filter_app, List.length_app. cbn [filter].
    rewrite (proj2 (rowOf_columns tanggal p)).
    now destruct (String.eqb (toUpperCase (serviceNo p)) (toUpperCase k)).
Qed.

Lemma legacy_reports_read_other_columns_witness :
  snOnt Sample.legacyParsed = "ZTEG12345678"
  /\ LegacyRead.cari
       ([Fixture.header] ++ [rowOf "Senin, 15 September 2025" Sample.legacyParsed])
       "/cari ZTEG12345678"
     = Some [].
Proof.
  split; [reflexivity|].
  destruct (legacy_reports_read_other_columns Fixture.users [Fixture.header]
              ([Fixture.header]
                 ++ [rowOf "Senin, 15 September 2025" Sample.legacyParsed])
              "budi_teknisi" ("/aktivasi " ++ Fixture.legacyText)
              "Senin, 15 September 2025")
    as [p [Hp [_ [_ [Hc _]]]]].
  - vm_compute. reflexivity.
  - discriminate.
  - assert (Ep : p = Sample.legacyParsed).
    { vm_compute in Hp. injection Hp as <-. reflexivity. }
    destruct (Hc "/cari ZTEG12345678" "ZTEG12345678" eq_refl eq_refl)
      as [found [H1 H2]].
    rewrite H2, Ep. injection H1 as <-. reflexivity.
Defined.

Lemma inWindow_mono : forall host s e s' e' row,
  (s' <= s)%Z -> (e <= e')%Z ->
  inWindow host (Some s) (Some e) row = true ->
  inWindow host (Some s') (Some e') row = true.
Proof.
  intros host s e s' e' row Hs He. unfold inWindow.
  destruct (cell row 0) as [d|]; [|discriminate].
  destruct (truthy d); [|discriminate]. cbn [andb].
  destruct (parseIndonesianDate host d) as [[t|]|]; try discriminate.
  unfold JsDate.date_ge, JsDate.date_le.
  rewrite !andb_true_iff, !Z.leb_le. lia.
Qed.

(** The daily and the weekly window around the same local midnight. *)
Lemma week_holds_day : forall host t,
  JsDate.TimeWithinDay (JsDate.LocalTime host t) = 0%Z ->
  let s := (t + mondayOffset (JsDate.getDay host t) * JsDate.msPerDay)%Z in
  (s <= t /\ t + JsDate.msPerDay - 1 <= s + 7 * JsDate.msPerDay - 1)%Z.
Proof.
  intros host t Ht s.
  destruct (monday_reached (JsDate.Day (JsDate.LocalTime host t))) as [_ Hoff].
  unfold s, JsDate.getDay, JsDate.WeekDay, JsDate.msPerDay. lia.
Qed.

(** X30.  The weekly report holds the rows of the daily report: for the
    same anchor, or for none, every row that the period filter selects
    for the day it selects for the week, on every host and at every
    moment. *)
Theorem weekly_report_holds_the_daily_rows :
  forall (host : JsDate.Host) (now : Z) (data : Sheet)
         (customDate : option string) (row : Row),
  In row (filterDataByPeriod host now data "daily" customDate) ->
  In row (filterDataByPeriod host now data "weekly" customDate).
Proof.
  intros host now data customDate row. unfold filterDataByPeriod.
  destruct (truthy (or_default customDate "")) eqn:Hc.
  - (* an anchor is given *)
    assert (Hsome : exists c, customDate = Some c /\ truthy c = true).
    { destruct customDate as [c|]; [|discriminate Hc].
      exists c. split; [reflexivity|]. cbn [or_default] in Hc.
      unfold or_else in Hc. now destruct (truthy c). }
    destruct Hsome as [c [-> Ht]].
    destruct (exec datePattern c) as [m|] eqn:Hm.
    + rewrite (periodBounds_anchor host now "daily" c m Ht Hm).
      rewrite (periodBounds_anchor host now "weekly" c m Ht Hm).
      cbv zeta.
      change (String.eqb "daily" "daily") with true.
      change (String.eqb "weekly" "daily") with false.
      change (String.eqb "weekly" "weekly") with true. cbv iota.
      set (targetDate := JsDate.newDate host (groupInt 3 m) (groupInt 2 m - 1)
                           (groupInt 1 m)).
      pose proof (newDate_midnight host (groupInt 3 m) (groupInt 2 m - 1)%Z
                    (groupInt 1 m)) as Hmid.
      fold targetDate in Hmid.
      assert (Href : (targetDate <= targetDate < targetDate + JsDate.msPerDay)%Z)
        by (unfold JsDate.msPerDay; lia).
      destruct (week_of_midnight host targetDate _ Hmid Href) as [Hw [Hs6 Hm6]].
      cbv zeta in Hw, Hs6, Hm6. destruct Hw as [_ [Hw2 _]].
      destruct (week_holds_day host targetDate Hmid) as [Hlo Hhi].
      rewrite (setDate_shift host targetDate).
      rewrite (setHours_midnight host), Hw2, Z.sub_0_r.
      rewrite Hs6, (endOfDay_midnight host _ Hm6).
      rewrite (endOfDay_midnight host _ Hmid).
      rewrite !filter_In. intros [Hin Hrow]. split; [exact Hin|].
      eapply inWindow_mono; [| |exact Hrow]; lia.
    + rewrite !(periodBounds_no_match host now _ c Ht Hm). tauto.
  - unfold periodBounds. rewrite Hc.
    change (String.eqb "daily" "daily") with true.
    change (String.eqb "weekly" "daily") with false.
    change (String.eqb "weekly" "weekly") with true. cbv iota zeta.
    destruct (today_midnight host now) as [Ht Hnow]. cbv zeta in Ht, Hnow.
    destruct (week_of_midnight host now _ Ht Hnow) as [_ [Hs6 Hm6]].
    cbv zeta in Hs6, Hm6.
    destruct (week_holds_day host _ Ht) as [Hlo Hhi].
    rewrite (setDate_shift host). rewrite Hs6.
    rewrite (endOfDay_midnight host _ Hm6), (endOfDay_midnight host _ Ht).
    rewrite !filter_In. intros [Hin Hrow]. split; [exact Hin|].
    eapply inWindow_mono; [| |exact Hrow]; lia.
Qed.

Lemma weekly_report_holds_the_daily_rows_witness :
  In Fixture.todayRow
    (filterDataByPeriod Fixture.wib Fixture.monday_morning
       [Fixture.header; Fixture.todayRow] "weekly" (Some "15/09/2025")).
Proof.
  apply weekly_report_holds_the_daily_rows.
  vm_compute. left. reflexivity.
Defined.
